(** * Orion Assistant: the intent-dispatch and session-state engine

    A shallow embedding of [App.handleRun], [toggleMeetingListener], the
    meeting listener callbacks, the planner and summarizer clients of
    [services/gemini.ts] and the mouth-height computation of [BotAvatar].

    Conventions of the embedding.
    - A JavaScript string is a [string]; [toLowerCase] and [trim] act on the
      ASCII range.
    - [NoteStore] is a plain JavaScript object used as a dictionary; it is an
      association list kept in the order in which [Object.values] enumerates
      own properties.  A property access [o[k]] also finds the names that
      every object inherits from [Object.prototype].
    - [handleRun] is a closure: it reads [input], [loading], [notes] and
      [meeting] from the render in which it was created (the snapshot) and
      writes through the state setters.  A setter call is applied to the
      component state at once; updater functions receive the current state,
      plain values overwrite it.
    - An awaited collaborator settles: it yields a value or throws.  The
      outcome is given by an environment of oracles.
    - A state updater runs when React processes the update queue: one
      that throws stores nothing and is recorded among the render errors
      of the run.
    - The numbers of the avatar are doubles: each is the rational it
      denotes, each operation rounds to nearest, ties to even.  A PCM
      sample divided by 32768 is exact. *)

From Stdlib Require Import String Ascii List Bool NArith ZArith QArith Qminmax.
From Stdlib Require Import Qround Qabs Qpower.
From Stdlib Require Import DecimalString Relations Lia Lqa.
Import ListNotations.

Local Open Scope string_scope.
Local Open Scope list_scope.

(* ================================================================== *)
(** ** Strings *)

(** The character U+0022 and the line feed, for string templates. *)
Definition dq : string := String (ascii_of_nat 34) EmptyString.
Definition nl : string := String (ascii_of_nat 10) EmptyString.

Definition is_empty (s : string) : bool :=
  match s with EmptyString => true | String _ _ => false end.

(** Truthiness of an optional string: [undefined] and the empty string are
    falsy. *)
Definition truthy (o : option string) : bool :=
  match o with
  | Some s => negb (is_empty s)
  | None => false
  end.

(** [o || d] for an optional string [o]. *)
Definition or_else (o : option string) (d : string) : string :=
  match o with
  | Some s => if is_empty s then d else s
  | None => d
  end.

Definition lower_ascii (c : ascii) : ascii :=
  let n := nat_of_ascii c in
  if (65 <=? n)%nat && (n <=? 90)%nat then ascii_of_nat (n + 32) else c.

Fixpoint toLowerCase (s : string) : string :=
  match s with
  | EmptyString => EmptyString
  | String c r => String (lower_ascii c) (toLowerCase r)
  end.

(** White space and line terminators removed by [String.prototype.trim]
    (ASCII range): TAB, LF, VT, FF, CR, SPACE. *)
Definition is_space (c : ascii) : bool :=
  let n := nat_of_ascii c in
  ((9 <=? n)%nat && (n <=? 13)%nat) || (n =? 32)%nat.

Fixpoint trim_start (s : string) : string :=
  match s with
  | EmptyString => EmptyString
  | String c r => if is_space c then trim_start r else s
  end.

Fixpoint rev_string (s acc : string) : string :=
  match s with
  | EmptyString => acc
  | String c r => rev_string r (String c acc)
  end.

Definition trim (s : string) : string :=
  rev_string (trim_start (rev_string (trim_start s) EmptyString)) EmptyString.

(** [log.join(sep)]. *)
Fixpoint join (sep : string) (l : list string) : string :=
  match l with
  | [] => EmptyString
  | [x] => x
  | x :: r => x ++ sep ++ join sep r
  end.

(** [n.toString()] for a non-negative integer. *)
Definition N_toString (n : N) : string := NilEmpty.string_of_uint (N.to_uint n).

(* ================================================================== *)
(** ** JavaScript objects used as dictionaries *)

Module JsObject.

Section WithValue.
Context {V : Type}.

Definition t := list (string * V).

Definition is_digit (c : ascii) : bool :=
  let n := nat_of_ascii c in (48 <=? n)%nat && (n <=? 57)%nat.

Fixpoint digits_value (s : string) (acc : N) : option N :=
  match s with
  | EmptyString => Some acc
  | String c r =>
      if is_digit c
      then digits_value r (10 * acc + (N.of_nat (nat_of_ascii c) - 48))%N
      else None
  end.

(** A property key is an array index when it is the canonical decimal
    form of an integer below 2^32 - 1.  Such keys are enumerated first,
    in ascending numeric order; the other keys follow in creation
    order. *)
Definition array_index (k : string) : option N :=
  match k with
  | EmptyString => None
  | String c r =>
      if (nat_of_ascii c =? 48)%nat && negb (is_empty r) then None
      else match digits_value k 0 with
           | Some n => if (n <? 4294967295)%N then Some n else None
           | None => None
           end
  end.

(** The own property [k] of [o], if there is one. *)
Fixpoint get (k : string) (o : t) : option V :=
  match o with
  | [] => None
  | (k', v) :: r => if String.eqb k k' then Some v else get k r
  end.

(** The properties an object literal inherits from [Object.prototype]:
    eleven functions and the accessor [__proto__], which yields
    [Object.prototype] itself. *)
Definition prototype_names : list string :=
  ["constructor"; "__defineGetter__"; "__defineSetter__"; "hasOwnProperty";
   "__lookupGetter__"; "__lookupSetter__"; "isPrototypeOf";
   "propertyIsEnumerable"; "toString"; "valueOf"; "__proto__";
   "toLocaleString"].

Definition inherited (k : string) : bool :=
  existsb (String.eqb k) prototype_names.

(** The [length] of an inherited value: the arity of the function;
    [Object.prototype] has no such property. *)
Definition inherited_length (k : string) : option N :=
  if String.eqb k "__defineGetter__" || String.eqb k "__defineSetter__"
  then Some 2%N
  else if String.eqb k "toString" || String.eqb k "valueOf"
          || String.eqb k "toLocaleString"
  then Some 0%N
  else if String.eqb k "__proto__" then None
  else Some 1%N.

(** The value of the expression [o[k]]: an own property shadows an
    inherited one; an inherited value is truthy and is not iterable. *)
Inductive Value :=
| Own (v : V)
| Inherited (name : string)
| Undefined.

Definition lookup (k : string) (o : t) : Value :=
  match get k o with
  | Some v => Own v
  | None => if inherited k then Inherited k else Undefined
  end.

Fixpoint replace (k : string) (v : V) (o : t) : t :=
  match o with
  | [] => []
  | (k', v') :: r =>
      if String.eqb k k' then (k', v) :: r else (k', v') :: replace k v r
  end.

(** Position of a fresh array-index key among the own properties. *)
Fixpoint insert_index (n : N) (k : string) (v : V) (o : t) : t :=
  match o with
  | [] => [(k, v)]
  | (k', v') :: r =>
      match array_index k' with
      | Some n' =>
          if (n <? n')%N then (k, v) :: o
          else (k', v') :: insert_index n k v r
      | None => (k, v) :: o
      end
  end.

(** [o[k] = v]: an existing property keeps its place, a new one is
    created. *)
Definition set (k : string) (v : V) (o : t) : t :=
  match get k o with
  | Some _ => replace k v o
  | None =>
      match array_index k with
      | Some n => insert_index n k v o
      | None => o ++ [(k, v)]
      end
  end.

(** [delete o[k]]. *)
Fixpoint delete (k : string) (o : t) : t :=
  match o with
  | [] => []
  | (k', v) :: r =>
      if String.eqb k k' then delete k r else (k', v) :: delete k r
  end.

(** [{ ...o }]: the own properties copied in enumeration order onto a
    fresh object, which enumerates them in the same order. *)
Definition spread (o : t) : t := o.

Definition keys (o : t) : list string := map fst o.
Definition values (o : t) : list V := map snd o.

Definition empty : t := [].
End WithValue.

Arguments t : clear implicits.
Arguments Value : clear implicits.

End JsObject.

(** [Array.prototype.flat] at depth one. *)
Definition flat {A : Type} (l : list (list A)) : list A := concat l.

(* ================================================================== *)
(** ** Data model ([types.ts]) *)

Record PlannerInfo := {
  topic : option string;
  content : option string;
  meetingAction : option string;
  language : option string
}.

(** [agent] is whatever string [JSON.parse] delivered: the cast to
    [AgentType] is unchecked at run time. *)
Record PlannerOutput := {
  agent : string;
  info : PlannerInfo;
  reasoning : option string
}.

Record Paper := {
  title : string;
  authors : list string;
  link : string;
  summary : string;
  published : string
}.

Definition NoteStore := JsObject.t (list string).

Record MeetingSession := {
  active : bool;
  mtopic : string;
  log : list string;
  listening : bool
}.

Record NewsResult := {
  headline : string;
  script : string;
  audioData : option string;
  sources : list (string * string)
}.

Inductive Status := planning | executing | success | error.

(** The values stored in [HistoryItem.result] (typed [any]). *)
Inductive ResultValue :=
| RNull
| RText (s : string)
| RLines (l : list string)
| RPapers (l : list Paper)
| RNews (n : NewsResult)
(** a function or object inherited from [Object.prototype] *)
| RInherited (name : string).

Record HistoryItem := {
  id : string;
  timestamp : N;
  userQuery : string;
  plannerOutput : PlannerOutput;
  result : ResultValue;
  status : Status;
  errorMessage : option string
}.

Inductive Phase := idle | ph_planning | ph_executing | ph_speaking.

(** The closed agent set of [AgentType]. *)
Definition agent_set : list string :=
  ["code"; "papers"; "notes_add"; "notes_read"; "notes_clear"; "meeting";
   "news"; "translate"; "unknown"].

Definition in_agent_set (a : string) : bool :=
  existsb (String.eqb a) agent_set.

Definition empty_info : PlannerInfo :=
  {| topic := None; content := None; meetingAction := None; language := None |}.

(* ================================================================== *)
(** ** Component state of [App] *)

Record AppState := {
  input : string;
  history : list HistoryItem;
  notes : NoteStore;
  meeting : MeetingSession;
  loading : bool;
  loadingPhase : Phase;
  currentPlannerData : option PlannerOutput
}.

Definition initial_meeting : MeetingSession :=
  {| active := false; mtopic := EmptyString; log := []; listening := false |}.

Definition initial_state : AppState :=
  {| input := EmptyString; history := []; notes := JsObject.empty;
     meeting := initial_meeting; loading := false; loadingPhase := idle;
     currentPlannerData := None |}.

Definition with_input (v : string) (s : AppState) : AppState :=
  {| input := v; history := history s; notes := notes s; meeting := meeting s;
     loading := loading s; loadingPhase := loadingPhase s;
     currentPlannerData := currentPlannerData s |}.

Definition with_history (f : list HistoryItem -> list HistoryItem)
    (s : AppState) : AppState :=
  {| input := input s; history := f (history s); notes := notes s;
     meeting := meeting s; loading := loading s;
     loadingPhase := loadingPhase s;
     currentPlannerData := currentPlannerData s |}.

Definition with_notes (f : NoteStore -> NoteStore) (s : AppState) : AppState :=
  {| input := input s; history := history s; notes := f (notes s);
     meeting := meeting s; loading := loading s;
     loadingPhase := loadingPhase s;
     currentPlannerData := currentPlannerData s |}.

Definition with_meeting (f : MeetingSession -> MeetingSession)
    (s : AppState) : AppState :=
  {| input := input s; history := history s; notes := notes s;
     meeting := f (meeting s); loading := loading s;
     loadingPhase := loadingPhase s;
     currentPlannerData := currentPlannerData s |}.

Definition with_loading (v : bool) (s : AppState) : AppState :=
  {| input := input s; history := history s; notes := notes s;
     meeting := meeting s; loading := v; loadingPhase := loadingPhase s;
     currentPlannerData := currentPlannerData s |}.

Definition with_loadingPhase (v : Phase) (s : AppState) : AppState :=
  {| input := input s; history := history s; notes := notes s;
     meeting := meeting s; loading := loading s; loadingPhase := v;
     currentPlannerData := currentPlannerData s |}.

Definition with_currentPlannerData (v : option PlannerOutput)
    (s : AppState) : AppState :=
  {| input := input s; history := history s; notes := notes s;
     meeting := meeting s; loading := loading s;
     loadingPhase := loadingPhase s; currentPlannerData := v |}.

(* ================================================================== *)
(** ** Updates of the meeting session

    Every [setMeeting] call of [App], as a function of the previous
    session. *)

Module Meeting.

(** [setMeeting({ active: true, topic: mTopic, log: [], listening: true })] *)
Definition started (t : string) (_ : MeetingSession) : MeetingSession :=
  {| active := true; mtopic := t; log := []; listening := true |}.

(** [setMeeting({ active: true, topic: mTopic, log: [content],
    listening: false })] *)
Definition adhoc (t c : string) (_ : MeetingSession) : MeetingSession :=
  {| active := true; mtopic := t; log := [c]; listening := false |}.

(** [setMeeting(prev => ({ ...prev, log: [...prev.log, content] }))] *)
Definition append_log (c : string) (prev : MeetingSession) : MeetingSession :=
  {| active := active prev; mtopic := mtopic prev; log := log prev ++ [c];
     listening := listening prev |}.

(** [setMeeting(prev => ({ ...prev, listening: false }))] *)
Definition mute (prev : MeetingSession) : MeetingSession :=
  {| active := active prev; mtopic := mtopic prev; log := log prev;
     listening := false |}.

(** [setMeeting({ active: false, topic: '', log: [], listening: false })] *)
Definition reset (_ : MeetingSession) : MeetingSession := initial_meeting.

(** [setMeeting(prev => ({ ...prev, listening: !prev.listening }))] *)
Definition toggle (prev : MeetingSession) : MeetingSession :=
  {| active := active prev; mtopic := mtopic prev; log := log prev;
     listening := negb (listening prev) |}.

(** The log line of a final speech transcript. *)
Definition speech_line (transcript : string) : string :=
  "[Speech]: " ++ transcript.

(** The effect of lines 46-111 starts the recognition stream only under
    this condition. *)
Definition stream_wanted (m : MeetingSession) : bool :=
  active m && listening m.

End Meeting.

(** [toggleMeetingListener], bound to the button rendered under
    [meeting.active &&]. *)
Definition toggleMeetingListener (s : AppState) : AppState :=
  with_meeting Meeting.toggle s.

(** [recognition.onresult] of the meeting listener for a final result. *)
Definition onresult (transcript : string) (s : AppState) : AppState :=
  let t := trim transcript in
  if is_empty t then s
  else with_meeting (Meeting.append_log (Meeting.speech_line t)) s.

(** [recognition.onerror] of the meeting listener. *)
Definition onerror (err : string) (s : AppState) : AppState :=
  if String.eqb err "no-speech" then s
  else if String.eqb err "not-allowed" then with_meeting Meeting.mute s
  else if String.eqb err "service-not-allowed" then with_meeting Meeting.mute s
  else s.

(* ================================================================== *)
(** ** Collaborators and the execution monad *)

(** A settled promise. *)
Inductive Outcome (A : Type) :=
| Resolved (a : A)
| Thrown (message : string).

Arguments Resolved {A} a.
Arguments Thrown {A} message.

(** A request to [ai.models.generateContent].  [planner_config] stands for
    the planner's [config] object (system instruction, JSON mime type,
    response schema, temperature 0.1). *)
Record GenRequest := {
  model : string;
  contents : string;
  planner_config : bool
}.

(** Calls that leave the component, in the order they are issued. *)
Inductive Call :=
| CallPlanRequest (userQuery : string)
| CallGenerateContent (req : GenRequest)
| CallGenerateCode (t : string) (details : option string)
| CallSearchArxiv (t : string)
| CallGenerateNews (t : string)
| CallTranslateText (text lang : string)
| CallSummarizeMeetingLog (t : string) (l : list string)
| CallGenerateSpeech (text : string).

(** What the outside world answers. *)
Record Env := {
  API_KEY : option string;
  generateContent : GenRequest -> Outcome (option string);
  JSON_parse : string -> Outcome PlannerOutput;
  generateCode : string -> option string -> Outcome string;
  searchArxiv : string -> Outcome (list Paper);
  generateNews : string -> Outcome NewsResult;
  translateText : string -> string -> Outcome string;
  clock_id : N;
  clock_timestamp : N
}.

(** The [let] variables of [handleRun]'s outer [try] block. *)
Record Locals := {
  l_result : ResultValue;
  l_status : Status;
  l_errorMsg : string;
  l_textToSpeak : string
}.

(** Everything one invocation of [handleRun] can write: the component
    state, its own [newItem] object and locals, the outgoing calls, and
    the errors of the state updaters it queued.  React runs an updater
    when it processes the queue, not in the caller's stack: an updater
    that throws stores nothing, the caller's [try] does not see the error,
    and the render that applies the queue fails with it. *)
Record World := {
  app : AppState;
  newItem : HistoryItem;
  vars : Locals;
  calls : list Call;
  render_errors : list string
}.

Definition M (A : Type) : Type := World -> Outcome A * World.

Definition ret {A} (a : A) : M A := fun w => (Resolved a, w).

Definition bind {A B} (c : M A) (k : A -> M B) : M B :=
  fun w =>
    match c w with
    | (Resolved a, w') => k a w'
    | (Thrown e, w') => (Thrown e, w')
    end.

Definition throw {A} (e : string) : M A := fun w => (Thrown e, w).

(** [try { c } catch (e) { h e }]: writes made before the throw stay. *)
Definition try_catch {A} (c : M A) (h : string -> M A) : M A :=
  fun w =>
    match c w with
    | (Resolved a, w') => (Resolved a, w')
    | (Thrown e, w') => h e w'
    end.

(** [try { c } finally { f }] for an [f] that does not throw. *)
Definition try_finally {A} (c : M A) (f : M unit) : M A :=
  fun w =>
    let (r, w') := c w in
    (r, snd (f w')).

Declare Scope run_scope.
Delimit Scope run_scope with run.
Notation "x <- c ;; k" := (bind c (fun x => k))
  (at level 61, c at next level, right associativity) : run_scope.
Notation "c ;; k" := (bind c (fun _ => k))
  (at level 61, right associativity) : run_scope.
Local Open Scope run_scope.

(** [await p] for a promise that settles with [o]. *)
Definition await {A} (o : Outcome A) : M A := fun w => (o, w).

Definition update_app (f : AppState -> AppState) : M unit :=
  fun w => (Resolved tt,
            {| app := f (app w); newItem := newItem w; vars := vars w;
               calls := calls w; render_errors := render_errors w |}).

Definition update_item (f : HistoryItem -> HistoryItem) : M unit :=
  fun w => (Resolved tt,
            {| app := app w; newItem := f (newItem w); vars := vars w;
               calls := calls w; render_errors := render_errors w |}).

Definition update_vars (f : Locals -> Locals) : M unit :=
  fun w => (Resolved tt,
            {| app := app w; newItem := newItem w; vars := f (vars w);
               calls := calls w; render_errors := render_errors w |}).

Definition emit (c : Call) : M unit :=
  fun w => (Resolved tt,
            {| app := app w; newItem := newItem w; vars := vars w;
               calls := calls w ++ [c]; render_errors := render_errors w |}).

(** An updater that throws [e] while React applies it. *)
Definition render_error (e : string) : M unit :=
  fun w => (Resolved tt,
            {| app := app w; newItem := newItem w; vars := vars w;
               calls := calls w; render_errors := render_errors w ++ [e] |}).

Definition read_vars : M Locals := fun w => (Resolved (vars w), w).
Definition read_item : M HistoryItem := fun w => (Resolved (newItem w), w).

(** The state setters. *)
Definition setInput (v : string) : M unit := update_app (with_input v).
Definition setLoading (v : bool) : M unit := update_app (with_loading v).
Definition setLoadingPhase (v : Phase) : M unit :=
  update_app (with_loadingPhase v).
Definition setCurrentPlannerData (v : option PlannerOutput) : M unit :=
  update_app (with_currentPlannerData v).
(** [setNotes(updater)]: [None] stands for an updater that throws a
    [TypeError]. *)
Definition setNotes (f : NoteStore -> option NoteStore) : M unit :=
  fun w =>
    match f (notes (app w)) with
    | Some n => update_app (with_notes (fun _ => n)) w
    | None => render_error "TypeError" w
    end.
Definition setMeeting (f : MeetingSession -> MeetingSession) : M unit :=
  update_app (with_meeting f).
Definition setHistory (f : list HistoryItem -> list HistoryItem) : M unit :=
  update_app (with_history f).

(** Assignments to the locals. *)
Definition assign_result (v : ResultValue) : M unit :=
  update_vars (fun l => {| l_result := v; l_status := l_status l;
                           l_errorMsg := l_errorMsg l;
                           l_textToSpeak := l_textToSpeak l |}).
Definition assign_status (v : Status) : M unit :=
  update_vars (fun l => {| l_result := l_result l; l_status := v;
                           l_errorMsg := l_errorMsg l;
                           l_textToSpeak := l_textToSpeak l |}).
Definition assign_errorMsg (v : string) : M unit :=
  update_vars (fun l => {| l_result := l_result l; l_status := l_status l;
                           l_errorMsg := v;
                           l_textToSpeak := l_textToSpeak l |}).
Definition assign_textToSpeak (v : string) : M unit :=
  update_vars (fun l => {| l_result := l_result l; l_status := l_status l;
                           l_errorMsg := l_errorMsg l;
                           l_textToSpeak := v |}).

(** Assignments to the fields of [newItem]. *)
Definition item_plannerOutput (p : PlannerOutput) (i : HistoryItem) :=
  {| id := id i; timestamp := timestamp i; userQuery := userQuery i;
     plannerOutput := p; result := result i; status := status i;
     errorMessage := errorMessage i |}.
Definition item_result (r : ResultValue) (i : HistoryItem) :=
  {| id := id i; timestamp := timestamp i; userQuery := userQuery i;
     plannerOutput := plannerOutput i; result := r; status := status i;
     errorMessage := errorMessage i |}.
Definition item_status (st : Status) (i : HistoryItem) :=
  {| id := id i; timestamp := timestamp i; userQuery := userQuery i;
     plannerOutput := plannerOutput i; result := result i; status := st;
     errorMessage := errorMessage i |}.
Definition item_errorMessage (e : string) (i : HistoryItem) :=
  {| id := id i; timestamp := timestamp i; userQuery := userQuery i;
     plannerOutput := plannerOutput i; result := result i; status := status i;
     errorMessage := Some e |}.

(* ================================================================== *)
(** ** [services/gemini.ts] and [App.handleRun] *)

Section Dispatch.

Variable E : Env.

(** [getAiClient]: throws when the key is missing. *)
Definition getAiClient : M unit :=
  if truthy (API_KEY E) then ret tt
  else throw "API Key not found in environment".

Definition models_generateContent (req : GenRequest) : M (option string) :=
  emit (CallGenerateContent req) ;;
  await (generateContent E req).

Definition planner_fallback : PlannerOutput :=
  {| agent := "unknown"; info := empty_info;
     reasoning := Some "Planning failed due to API error." |}.

(** [planRequest]: the client is obtained before the [try]; a failed
    request, an empty text or a parse error yield the fallback plan. *)
Definition planRequest (userQuery : string) : M PlannerOutput :=
  emit (CallPlanRequest userQuery) ;;
  getAiClient ;;
  try_catch
    (text <- models_generateContent
               {| model := "gemini-3-pro-preview"; contents := userQuery;
                  planner_config := true |} ;;
     match text with
     | Some t =>
         if is_empty t then throw "Empty response from planner"
         else await (JSON_parse E t)
     | None => throw "Empty response from planner"
     end)
    (fun _ => ret planner_fallback).

Definition summary_prompt (t logText : string) : string :=
  nl ++ "    You are an intelligent personal assistant." ++ nl
  ++ "    Analyze the following meeting transcript/log for topic "
  ++ dq ++ t ++ dq ++ "." ++ nl
  ++ "    " ++ nl
  ++ "    1. Summarize the key points in 3-5 bullets." ++ nl
  ++ "    2. Crucially, identify specific action items or relevant "
  ++ "information for " ++ dq ++ "Me" ++ dq
  ++ " (the user). Tell me exactly what I need to do or know." ++ nl
  ++ "    " ++ nl
  ++ "    Log:" ++ nl
  ++ "    " ++ logText ++ nl
  ++ "  ".

(** [summarizeMeetingLog]: no [try]; an absent or empty text is replaced by
    the fallback string. *)
Definition summarizeMeetingLog (t : string) (l : list string) : M string :=
  emit (CallSummarizeMeetingLog t l) ;;
  getAiClient ;;
  let logText := join nl l in
  text <- models_generateContent
            {| model := "gemini-2.5-flash"; contents := summary_prompt t logText;
               planner_config := false |} ;;
  ret (or_else text "Could not generate summary.").

(** The notes stored under the own topic [k]; none when [k] is not an
    own topic. *)
Definition notes_at (k : string) (o : NoteStore) : list string :=
  match JsObject.get k o with
  | Some l => l
  | None => []
  end.

(** [notes[readTopic] || []]: an array is always truthy, and so is a value
    inherited from [Object.prototype]. *)
Definition read_topic (k : string) (o : NoteStore) : ResultValue :=
  match JsObject.lookup k o with
  | JsObject.Own l => RLines l
  | JsObject.Inherited name => RInherited name
  | JsObject.Undefined => RLines []
  end.

(** The updater of [notes_add],
    [prev => ({ ...prev, [addTopic]: [...(prev[addTopic] || []), noteContent] })]:
    spreading an inherited value throws a [TypeError], as it is not
    iterable. *)
Definition add_note (addTopic noteContent : string) (prev : NoteStore)
  : option NoteStore :=
  match JsObject.lookup addTopic prev with
  | JsObject.Own l =>
      Some (JsObject.set addTopic (l ++ [noteContent]) (JsObject.spread prev))
  | JsObject.Inherited _ => None
  | JsObject.Undefined =>
      Some (JsObject.set addTopic ([] ++ [noteContent]) (JsObject.spread prev))
  end.

(** [await generateNews(newsTopic)].  [generateNews] requests the speech
    of its script itself (gemini.ts, line 152) and resolves only after
    that request has settled; it throws only before it. *)
Definition call_generateNews (newsTopic : string) : M NewsResult :=
  emit (CallGenerateNews newsTopic) ;;
  newsResult <- await (generateNews E newsTopic) ;;
  emit (CallGenerateSpeech (script newsResult)) ;;
  ret newsResult.

Definition unknown_message : string :=
  "I couldn't quite understand that. I can help with Python code, "
  ++ "searching ArXiv papers, taking notes, reading news, translation, "
  ++ "or tracking meetings.".

(** The [case 'meeting'] block; [meeting] is the snapshot of the closure. *)
Definition meeting_case (snap : AppState) (query : string)
    (i : PlannerInfo) : M unit :=
  let action := meetingAction i in
  match action with
  | Some a =>
      if String.eqb a "start" then
        let mTopic := or_else (topic i) "General Meeting" in
        setMeeting (Meeting.started mTopic) ;;
        assign_result (RText ("Started meeting: " ++ mTopic
                              ++ ". I am listening.")) ;;
        assign_textToSpeak ("Meeting started on " ++ mTopic
                            ++ ". I am listening.")
      else if String.eqb a "add" then
        if negb (active (meeting snap)) then
          let mTopic := "Ad-hoc Discussion" in
          let c := or_else (content i) query in
          setMeeting (Meeting.adhoc mTopic c) ;;
          assign_result (RText ("No active meeting found. Started " ++ dq
                                ++ mTopic ++ dq ++ " and added log entry.")) ;;
          assign_textToSpeak "Meeting started and entry added."
        else
          if truthy (content i) then
            let c := or_else (content i) EmptyString in
            setMeeting (Meeting.append_log c) ;;
            assign_result (RText "Added to meeting log.") ;;
            assign_textToSpeak "Added."
          else
            assign_result (RText "Nothing to add.") ;;
            assign_textToSpeak "I didn't catch that."
      else if String.eqb a "stop" then
        if negb (active (meeting snap)) then
          assign_result (RText "No active meeting to stop.") ;;
          assign_status error ;;
          assign_textToSpeak "There is no active meeting."
        else
          setMeeting Meeting.mute ;;
          summary <- summarizeMeetingLog (mtopic (meeting snap))
                       (log (meeting snap)) ;;
          setMeeting Meeting.reset ;;
          assign_result (RText summary) ;;
          assign_textToSpeak
            "Meeting stopped. Here is your summary and action items."
      else
        assign_result (RText "Unknown meeting action.") ;;
        assign_status error
  | None =>
      assign_result (RText "Unknown meeting action.") ;;
      assign_status error
  end.

(** The [switch (plan.agent)] statement: nine cases, no [default]. *)
Definition switch_agent (snap : AppState) (query : string)
    (plan : PlannerOutput) : M unit :=
  let i := info plan in
  let a := agent plan in
  if String.eqb a "code" then
    let codeTopic := or_else (topic i) query in
    r <- (emit (CallGenerateCode codeTopic (content i)) ;;
          await (generateCode E codeTopic (content i))) ;;
    assign_result (RText r) ;;
    assign_textToSpeak ("I've generated the Python code for " ++ codeTopic
                        ++ ".")
  else if String.eqb a "papers" then
    let paperTopic := or_else (topic i) "General AI" in
    r <- (emit (CallSearchArxiv paperTopic) ;;
          await (searchArxiv E paperTopic)) ;;
    assign_result (RPapers r) ;;
    assign_textToSpeak ("I found some ArXiv papers related to " ++ paperTopic
                        ++ ".")
  else if String.eqb a "news" then
    let newsTopic := or_else (topic i) "Latest Tech" in
    newsResult <- call_generateNews newsTopic ;;
    assign_result (RNews newsResult) ;;
    assign_textToSpeak "Here is the latest news update."
  else if String.eqb a "translate" then
    let contentToTranslate := or_else (content i) query in
    let targetLang := or_else (language i) "English" in
    r <- (emit (CallTranslateText contentToTranslate targetLang) ;;
          await (translateText E contentToTranslate targetLang)) ;;
    assign_result (RText r) ;;
    assign_textToSpeak r
  else if String.eqb a "notes_add" then
    let addTopic := toLowerCase (or_else (topic i) "general") in
    if truthy (content i) then
      let noteContent := or_else (content i) EmptyString in
      setNotes (add_note addTopic noteContent) ;;
      assign_result (RText ("Added note to " ++ dq ++ addTopic ++ dq ++ ".")) ;;
      assign_textToSpeak ("Note added to " ++ addTopic ++ ".")
    else
      assign_result (RText "No content provided for the note.") ;;
      assign_status error ;;
      assign_textToSpeak "I didn't catch what you wanted to write."
  else if String.eqb a "notes_read" then
    let readTopic := toLowerCase (or_else (topic i) EmptyString) in
    if String.eqb readTopic "all" || is_empty readTopic then
      let all := flat (JsObject.values (notes snap)) in
      assign_result (RLines all) ;;
      (if (length all =? 0)%nat then assign_result (RLines ["No notes found."])
       else ret tt) ;;
      assign_textToSpeak "Here are all your notes."
    else
      assign_result (read_topic readTopic (notes snap)) ;;
      assign_textToSpeak ("Here are your notes on " ++ readTopic ++ ".")
  else if String.eqb a "notes_clear" then
    let clearTopic := toLowerCase (or_else (topic i) EmptyString) in
    if negb (is_empty clearTopic) then
      setNotes (fun prev =>
                  Some (JsObject.delete clearTopic (JsObject.spread prev))) ;;
      assign_result (RText ("Cleared notes for " ++ dq ++ clearTopic ++ dq
                            ++ ".")) ;;
      assign_textToSpeak ("Cleared notes for " ++ clearTopic ++ ".")
    else
      setNotes (fun _ => Some JsObject.empty) ;;
      assign_result (RText "Cleared all notes.") ;;
      assign_textToSpeak "All notes cleared."
  else if String.eqb a "meeting" then
    meeting_case snap query i
  else if String.eqb a "unknown" then
    assign_result (RText unknown_message) ;;
    assign_status error ;;
    assign_textToSpeak "I'm not sure how to help with that."
  else
    ret tt.

(** Step 2 of [handleRun]: the inner [try]/[catch] around the switch. *)
Definition execute_tool (snap : AppState) (query : string)
    (plan : PlannerOutput) : M unit :=
  try_catch
    (switch_agent snap query plan)
    (fun message =>
       assign_status error ;;
       assign_errorMsg (if is_empty message then "Execution failed"
                        else message) ;;
       assign_textToSpeak "Something went wrong during execution.").

Definition initial_locals : Locals :=
  {| l_result := RText "Done."; l_status := success;
     l_errorMsg := EmptyString; l_textToSpeak := EmptyString |}.

Definition fresh_item (query : string) : HistoryItem :=
  {| id := N_toString (clock_id E); timestamp := clock_timestamp E;
     userQuery := query;
     plannerOutput := {| agent := "unknown"; info := empty_info;
                         reasoning := None |};
     result := RNull; status := planning; errorMessage := None |}.

(** The outer [try] block of [handleRun]. *)
Definition plan_and_execute (snap : AppState) (query : string) : M unit :=
  plan <- planRequest query ;;
  setCurrentPlannerData (Some plan) ;;
  setLoadingPhase ph_executing ;;
  update_item (item_plannerOutput plan) ;;
  update_vars (fun _ => initial_locals) ;;
  execute_tool snap query plan ;;
  l <- read_vars ;;
  update_item (item_result (l_result l)) ;;
  update_item (item_status (l_status l)) ;;
  update_item (item_errorMessage (l_errorMsg l)) ;;
  it <- read_item ;;
  setHistory (fun prev => prev ++ [it]) ;;
  (* the synthesis request is issued and not awaited; its continuation
     (playback, or the idle phase when no audio comes back) runs later *)
  if negb (is_empty (l_textToSpeak l))
  then emit (CallGenerateSpeech (l_textToSpeak l))
  else setLoadingPhase idle.

(** The outer [catch] block. *)
Definition planning_failed (_ : string) : M unit :=
  update_item (item_status error) ;;
  update_item (item_errorMessage "Planning failed unexpectedly.") ;;
  it <- read_item ;;
  setHistory (fun prev => prev ++ [it]) ;;
  setLoading false ;;
  setLoadingPhase idle.

(** The world in which an invocation starts writing. *)
Definition start_world (s : AppState) (query : string) : World :=
  {| app := s; newItem := fresh_item query; vars := initial_locals;
     calls := []; render_errors := [] |}.

(** The guard of line 197: a blank query, or a run still in flight, is
    ignored. *)
Definition accepted (snap : AppState) (overrideInput : option string) : bool :=
  negb (is_empty (trim (or_else overrideInput (input snap))) || loading snap).

(** [handleRun] past the guard of line 197. *)
Definition handleRun_body (snap : AppState) (query : string) : M unit :=
  setInput EmptyString ;;
  setLoading true ;;
  setLoadingPhase ph_planning ;;
  setCurrentPlannerData None ;;
  update_item (fun _ => fresh_item query) ;;
  try_finally
    (try_catch (plan_and_execute snap query) planning_failed)
    (setLoading false).

(** [handleRun(e, overrideInput)] called from the render [snap], acting
    on the component state [s].  The result is the component state after
    the returned promise has settled, and the calls issued. *)
Definition handleRun (snap : AppState) (overrideInput : option string)
    (s : AppState) : AppState * list Call :=
  let query := or_else overrideInput (input snap) in
  if is_empty (trim query) || loading snap then (s, [])  (* return; *)
  else
    let w := snd (handleRun_body snap query (start_world s query)) in
    (app w, calls w).

(** The errors of the updaters that [handleRun] queued. *)
Definition handleRun_render_errors (snap : AppState)
    (overrideInput : option string) (s : AppState) : list string :=
  let query := or_else overrideInput (input snap) in
  if is_empty (trim query) || loading snap then []
  else render_errors (snd (handleRun_body snap query (start_world s query))).

(** A run: the form is submitted with [query] typed in, and [handleRun]
    is the closure of the current render. *)
Definition run (s : AppState) (query : string) : AppState :=
  fst (handleRun (with_input query s) None (with_input query s)).

Definition run_calls (s : AppState) (query : string) : list Call :=
  snd (handleRun (with_input query s) None (with_input query s)).

Definition run_render_errors (s : AppState) (query : string) : list string :=
  handleRun_render_errors (with_input query s) None (with_input query s).

(** What [await planRequest(query)] and
    [await summarizeMeetingLog(topic, log)] settle with; neither reads the
    world it runs in. *)
Definition planned (query : string) : Outcome PlannerOutput :=
  fst (planRequest query (start_world initial_state query)).

Definition summarized (t : string) (l : list string) : Outcome string :=
  fst (summarizeMeetingLog t l (start_world initial_state EmptyString)).

End Dispatch.

Definition last_item (s : AppState) : option HistoryItem :=
  last (map Some (history s)) None.

(* ================================================================== *)
(** ** Reachable meeting sessions *)

Definition listening_implies_active (m : MeetingSession) : Prop :=
  listening m = true -> active m = true.

(** One [setMeeting] call of [handleRun] or of the listener, applied to
    the session [m] current at that moment:
    - [step_started]: meeting start (line 306);
    - [step_adhoc]: meeting add without an active session (line 313);
    - [step_append_log]: meeting add (line 319), speech transcript (line 74);
    - [step_mute]: meeting stop before the summary (line 333), recognition
      unsupported, refused or failing to start (lines 52, 91, 94, 107);
    - [step_reset]: meeting stop after the summary (line 336). *)
Inductive meeting_step : MeetingSession -> MeetingSession -> Prop :=
| step_started t m : meeting_step m (Meeting.started t m)
| step_adhoc t c m : meeting_step m (Meeting.adhoc t c m)
| step_append_log c m : meeting_step m (Meeting.append_log c m)
| step_mute m : meeting_step m (Meeting.mute m)
| step_reset m : meeting_step m (Meeting.reset m).

Definition meeting_steps : MeetingSession -> MeetingSession -> Prop :=
  clos_refl_trans MeetingSession meeting_step.

(** The session on the screen and the session in the state.  The toggle
    button is part of the last render, under [meeting.active &&] of the
    session rendered (line 506); [toggleMeetingListener] itself has no
    guard, and its updater receives the session held when the click is
    processed.  [click] restricts the moments at which the button is
    clicked. *)
Record Screen := {
  shown : MeetingSession;
  held : MeetingSession
}.

Inductive screen_step (click : Screen -> Prop) : Screen -> Screen -> Prop :=
| screen_write c m' :
    meeting_step (held c) m' ->
    screen_step click c {| shown := shown c; held := m' |}
| screen_toggle c :
    active (shown c) = true -> click c ->
    screen_step click c {| shown := shown c; held := Meeting.toggle (held c) |}
| screen_render c :
    screen_step click c {| shown := held c; held := held c |}.

Definition initial_screen : Screen :=
  {| shown := initial_meeting; held := initial_meeting |}.

Definition reachable_screen (click : Screen -> Prop) (c : Screen) : Prop :=
  clos_refl_trans Screen (screen_step click) initial_screen c.

(** The button is clicked whenever it is on the screen. *)
Definition any_click (c : Screen) : Prop := True.

(** The button is clicked only while the session held is still active. *)
Definition timely_click (c : Screen) : Prop := active (held c) = true.

(* ================================================================== *)
(** ** [BotAvatar]: the mouth height of one animation frame *)

(** A finite double is the rational it denotes.  An arithmetic operation
    on doubles returns the exact result rounded to the nearest double,
    ties to even; the results met here are far below the overflow
    threshold. *)
Module F64.
Local Open Scope Q_scope.

(** The nearest integer, ties to even. *)
Definition round_half_even (q : Q) : Z :=
  let f := Qfloor q in
  match Qcompare (q - inject_Z f) (1 # 2) with
  | Lt => f
  | Gt => (f + 1)%Z
  | Eq => if Z.even f then f else (f + 1)%Z
  end.

(** The integer [e] with [2^e <= q < 2^(e+1)], for a positive [q]. *)
Definition ilog2 (q : Q) : Z :=
  let e := (Z.log2 (Qnum q) - Z.log2 (Zpos (Qden q)))%Z in
  if Qle_bool (2 ^ e) q then e else (e - 1)%Z.

(** The exponent of the last place: 53 significant bits, and no place
    below that of the subnormal numbers, [2^-1074]. *)
Definition emin : Z := (-1074)%Z.

Definition exponent (q : Q) : Z := Z.max (ilog2 (Qabs q) - 52) emin.

(** Round to nearest, ties to even. *)
Definition round (q : Q) : Q :=
  if Qeq_bool q 0 then 0
  else
    let e := exponent q in
    inject_Z (round_half_even (q / 2 ^ e)) * 2 ^ e.

(** The quotient and the product of two doubles. *)
Definition div (a b : Q) : Q := round (a / b).
Definition mul (a b : Q) : Q := round (a * b).

(** The unit roundoff. *)
Definition u53 : Q := 1 # 9007199254740992.

End F64.

Module BotAvatar.
Local Open Scope Q_scope.

Definition maxHeight (small : bool) : Q := if small then 14 else 24.

(** [sum / bufferLength] over the byte frequency data; the sum of the
    bytes is an integer below 2^53, hence exact. *)
Definition frame_average (dataArray : list N) : Q :=
  F64.div (inject_Z (Z.of_N (fold_left N.add dataArray 0%N)))
          (inject_Z (Z.of_nat (length dataArray))).

(** [(average / 255) * maxHeight * 3.5], evaluated from left to right. *)
Definition scaled (small : bool) (average : Q) : Q :=
  F64.mul (F64.mul (F64.div average 255) (maxHeight small)) 3.5.

(** [Math.max(2, Math.min(maxHeight, (average / 255) * maxHeight * 3.5))] *)
Definition mouth_height (small : bool) (average : Q) : Q :=
  Qmax 2 (Qmin (maxHeight small) (scaled small average)).

(** The slope of the linear map that the computation approximates, and
    the relative error of its three roundings, 2^-51. *)
Definition gain (small : bool) : Q := maxHeight small * 3.5 / 255.

Definition u51 : Q := 1 # 2251799813685248.

End BotAvatar.

(* ================================================================== *)
(** ** Sample environments and states *)

Module Sample.

Definition plan_of (a : string) (i : PlannerInfo) : PlannerOutput :=
  {| agent := a; info := i; reasoning := None |}.

(** An environment whose planner answers [p] and whose text backend
    answers [answer] to every other request. *)
Definition env_with (p : PlannerOutput) (answer : Outcome (option string))
  : Env :=
  {| API_KEY := Some "key";
     generateContent := fun req =>
       if planner_config req then Resolved (Some "{}") else answer;
     JSON_parse := fun _ => Resolved p;
     generateCode := fun _ _ => Resolved "print(1)";
     searchArxiv := fun _ => Resolved [];
     generateNews := fun _ => Thrown "offline";
     translateText := fun _ _ => Resolved "bonjour";
     clock_id := 1700000000000%N;
     clock_timestamp := 1700000000000%N |}.

Definition info_content (c : string) : PlannerInfo :=
  {| topic := None; content := Some c; meetingAction := None;
     language := None |}.

Definition info_topic (t : string) : PlannerInfo :=
  {| topic := Some t; content := None; meetingAction := None;
     language := None |}.

Definition info_meeting (a : string) (t c : option string) : PlannerInfo :=
  {| topic := t; content := c; meetingAction := Some a; language := None |}.

Definition live_meeting : MeetingSession :=
  {| active := true; mtopic := "Standup"; log := ["alpha"; "beta"];
     listening := true |}.

Definition state_with (n : NoteStore) (m : MeetingSession) : AppState :=
  {| input := EmptyString; history := []; notes := n; meeting := m;
     loading := false; loadingPhase := idle; currentPlannerData := None |}.

Definition two_topics : NoteStore :=
  [("work", ["ship it"; "review"]); ("home", ["buy milk"])].

End Sample.

(* ================================================================== *)
(** ** Observations on a run *)

(** The arguments of every [summarizeMeetingLog] invocation, in order. *)
Definition summarize_calls (cs : list Call) : list (string * list string) :=
  flat_map (fun c => match c with
                     | CallSummarizeMeetingLog t l => [(t, l)]
                     | _ => []
                     end) cs.

(** The texts sent to speech synthesis, in order. *)
Definition speech_calls (cs : list Call) : list string :=
  flat_map (fun c => match c with
                     | CallGenerateSpeech text => [text]
                     | _ => []
                     end) cs.

(** A world after some more outgoing calls. *)
Definition more_calls (cs : list Call) (w : World) : World :=
  {| app := app w; newItem := newItem w; vars := vars w;
     calls := calls w ++ cs; render_errors := render_errors w |}.

(* ================================================================== *)
(** ** The remaining clients of [services/gemini.ts] *)

(** The patterns used by the clients, on strings. *)
Module Pattern.

(** [s] without the prefix [pre], when it starts with it. *)
Fixpoint drop_prefix (pre s : string) : option string :=
  match pre, s with
  | EmptyString, _ => Some s
  | String a p, String b r => if Ascii.eqb a b then drop_prefix p r else None
  | String _ _, EmptyString => None
  end.

(** [s.replace(/^pre/, '')] for a literal [pre]. *)
Definition replace_start (pre s : string) : string :=
  match drop_prefix pre s with
  | Some r => r
  | None => s
  end.

(** [s.replace(/suf$/, '')] for a literal [suf]: [$] is the end of the
    input (no [m] flag). *)
Definition replace_end (suf s : string) : string :=
  match drop_prefix (rev_string suf EmptyString) (rev_string s EmptyString) with
  | Some r => rev_string r EmptyString
  | None => s
  end.

(** What follows the first occurrence of [pat] in [s]. *)
Fixpoint find_after (pat s : string) : option string :=
  match drop_prefix pat s with
  | Some rest => Some rest
  | None =>
      match s with
      | EmptyString => None
      | String _ r => find_after pat r
      end
  end.

(** What precedes the first occurrence of [pat] in [s]. *)
Fixpoint take_until (pat s : string) : option string :=
  match drop_prefix pat s with
  | Some _ => Some EmptyString
  | None =>
      match s with
      | EmptyString => None
      | String c r => option_map (String c) (take_until pat r)
      end
  end.

(** Group 1 of [s.match(/open(.*?)close/s)] for literal [open] and
    [close]: the leftmost [open] that some [close] follows is the first
    one, and the lazy group ends at the first [close] after it. *)
Definition match_between (open close s : string) : option string :=
  match find_after open s with
  | Some rest => take_until close rest
  | None => None
  end.

Definition lt_char : ascii := ascii_of_nat 60.
Definition gt_char : ascii := ascii_of_nat 62.

Fixpoint has_gt (s : string) : bool :=
  match s with
  | EmptyString => false
  | String c r => Ascii.eqb c gt_char || has_gt r
  end.

(** [s.replace(/<[^>]*>/g, '')]: a match starts at a ['<'] that some ['>']
    follows and ends at the first such ['>'].  [in_tag] tells that the
    scan is inside a match. *)
Fixpoint strip_tags_from (in_tag : bool) (s : string) : string :=
  match s with
  | EmptyString => EmptyString
  | String c r =>
      if in_tag then
        if Ascii.eqb c gt_char then strip_tags_from false r
        else strip_tags_from true r
      else if Ascii.eqb c lt_char then
        if has_gt r then strip_tags_from true r else s
      else String c (strip_tags_from false r)
  end.

Definition strip_tags (s : string) : string := strip_tags_from false s.

End Pattern.

(** The grounding chunks and the audio parts of a backend response. *)
Record WebChunk := { web_title : option string; web_uri : option string }.
Record GroundingChunk := { web : option WebChunk }.

Record SearchResponse := {
  search_text : option string;
  groundingChunks : option (list GroundingChunk)
}.

(** [candidates?.[0]?.content?.parts] and [parts[0]?.inlineData?.data]. *)
Record TtsPart := { inlineData_data : option string }.
Record TtsResponse := { first_candidate_parts : option (list TtsPart) }.

(** The two other kinds of request sent to [ai.models.generateContent]:
    with the search tool, and with the audio modality. *)
Record Backend := {
  search_generateContent : string -> Outcome SearchResponse;
  tts_generateContent : string -> Outcome TtsResponse
}.

Module Gemini.

Section Clients.

Variable E : Env.
Variable B : Backend.

Definition fence : string := "```".

Definition code_prompt (t : string) (specificDetails : option string) : string :=
  "Generate concise Python code for: " ++ t ++ ". "
  ++ or_else specificDetails EmptyString ++ ". Return only the code block.".

(** The three [replace] calls of [generateCode]. *)
Definition clean_code (code : string) : string :=
  Pattern.replace_end fence
    (Pattern.replace_start (fence ++ nl)
       (Pattern.replace_start (fence ++ "python" ++ nl) code)).

Definition generateCode (t : string) (specificDetails : option string)
  : M string :=
  getAiClient E ;;
  text <- models_generateContent E
            {| model := "gemini-3-pro-preview";
               contents := code_prompt t specificDetails;
               planner_config := false |} ;;
  ret (clean_code (or_else text "# No code generated.")).

Definition translate_prompt (text targetLanguage : string) : string :=
  "Translate the following text to " ++ targetLanguage
  ++ ". Return only the translation." ++ nl ++ nl ++ "Text: "
  ++ dq ++ text ++ dq.

Definition translateText (text targetLanguage : string) : M string :=
  getAiClient E ;;
  r <- models_generateContent E
         {| model := "gemini-2.5-flash";
            contents := translate_prompt text targetLanguage;
            planner_config := false |} ;;
  ret (or_else r "Translation failed.").

(** [parts && parts[0]?.inlineData?.data] *)
Definition first_audio (r : TtsResponse) : option string :=
  match first_candidate_parts r with
  | Some (part :: _) => inlineData_data part
  | _ => None
  end.

(** [generateSpeech]: the client is obtained before the [try]. *)
Definition generateSpeech (text : string) : M (option string) :=
  emit (CallGenerateSpeech text) ;;
  getAiClient E ;;
  try_catch
    (ttsResponse <- await (tts_generateContent B text) ;;
     if truthy (first_audio ttsResponse) then ret (first_audio ttsResponse)
     else ret None)
    (fun _ => ret None).

Definition news_prompt (t : string) : string :=
  nl ++ "    You are an English news writer. Craft a short news package about: "
  ++ dq ++ t ++ dq ++ "." ++ nl
  ++ "    Use the search tool to find the latest info." ++ nl
  ++ "    " ++ nl
  ++ "    Rules:" ++ nl
  ++ "    1) Provide a concise English headline (max ~18 words)." ++ nl
  ++ "    2) Write a 3-4 sentence English script in plain language suitable "
  ++ "for reading aloud." ++ nl
  ++ "    3) Return the output strictly in this format (do not use markdown "
  ++ "for the tags):" ++ nl
  ++ "    <HEADLINE>...headline...</HEADLINE>" ++ nl
  ++ "    <SCRIPT>...script...</SCRIPT>" ++ nl
  ++ "  ".

(** The [forEach] over the grounding chunks. *)
Definition collect_sources (chunks : option (list GroundingChunk))
  : list (string * string) :=
  match chunks with
  | Some l =>
      flat_map (fun chunk =>
                  match web chunk with
                  | Some w => [(or_else (web_title w) "Source",
                                or_else (web_uri w) "#")]
                  | None => []
                  end) l
  | None => []
  end.

Definition news_headline (t text : string) : string :=
  match Pattern.match_between "<HEADLINE>" "</HEADLINE>" text with
  | Some h => trim h
  | None => "Latest News: " ++ t
  end.

Definition news_script (text : string) : string :=
  match Pattern.match_between "<SCRIPT>" "</SCRIPT>" text with
  | Some sc => trim sc
  | None =>
      or_else (Some (trim (Pattern.strip_tags text))) "No news script generated."
  end.

Definition generateNews (t : string) : M NewsResult :=
  getAiClient E ;;
  searchResponse <- await (search_generateContent B (news_prompt t)) ;;
  let srcs := collect_sources (groundingChunks searchResponse) in
  let text := or_else (search_text searchResponse) EmptyString in
  let hl := news_headline t text in
  let sc := news_script text in
  audio <- generateSpeech sc ;;
  ret {| headline := hl; script := sc; audioData := audio; sources := srcs |}.

End Clients.

End Gemini.

(* ================================================================== *)
(** ** [services/arxiv.ts] *)

Module Arxiv.

(** What [DOMParser] delivers for one [<entry>]: the [textContent] of the
    first element of each tag ([None] when the tag is absent), and of the
    first [<name>] of each [<author>]. *)
Record Entry := {
  entry_title : option string;
  entry_summary : option string;
  entry_published : option string;
  entry_id : option string;
  entry_authors : list (option string)
}.

Record Response := { ok : bool; http_status : N; body : Outcome string }.

Record Web := {
  encodeURIComponent : string -> string;
  fetch : string -> Outcome Response;
  parseFromString : string -> list Entry;
  toLocaleDateString : string -> string
}.

Section Search.

Variable W : Web.

Definition query_url (t : string) : string :=
  "https://export.arxiv.org/api/query?search_query=all:"
  ++ encodeURIComponent W t
  ++ "&start=0&max_results=5&sortBy=relevance&sortOrder=descending".

Definition newline_to_space (c : ascii) : ascii :=
  if Ascii.eqb c (ascii_of_nat 10) then ascii_of_nat 32 else c.

(** [s.replace(/\n/g, " ")] *)
Fixpoint replace_newlines (s : string) : string :=
  match s with
  | EmptyString => EmptyString
  | String c r => String (newline_to_space c) (replace_newlines r)
  end.

(** [x?.textContent?.replace(/\n/g, " ").trim() || fallback] *)
Definition clean_text (x : option string) (fallback : string) : string :=
  or_else (option_map (fun s => trim (replace_newlines s)) x) fallback.

(** The inner loop: names that are absent or empty are skipped. *)
Definition author_names (l : list (option string)) : list string :=
  flat_map (fun name => if truthy name then [or_else name EmptyString] else [])
           l.

Definition paper_of (e : Entry) : Paper :=
  {| title := clean_text (entry_title e) "No Title";
     authors := author_names (entry_authors e);
     link := or_else (entry_id e) EmptyString;
     summary := clean_text (entry_summary e) "No Summary";
     published :=
       toLocaleDateString W (or_else (entry_published e) EmptyString) |}.

(** [searchArxiv]: every failure is logged and thrown again. *)
Definition searchArxiv (t : string) : Outcome (list Paper) :=
  match fetch W (query_url t) with
  | Thrown e => Thrown e
  | Resolved response =>
      if negb (ok response) then
        Thrown ("ArXiv API failed with status: "
                ++ N_toString (http_status response))
      else
        match body response with
        | Thrown e => Thrown e
        | Resolved xmlText => Resolved (map paper_of (parseFromString W xmlText))
        end
  end.

End Search.

End Arxiv.

(* ================================================================== *)
(** ** Audio playback ([playGlobalAudio]) *)

Module Audio.

(** [bytes[i] = binaryString.charCodeAt(i)] *)
Definition bytes_of (binaryString : string) : list N :=
  map N_of_ascii (list_ascii_of_string binaryString).

(** One element of an [Int16Array] over the byte buffer (little-endian
    platform). *)
Definition int16 (lo hi : N) : Z :=
  let u := (Z.of_N lo + 256 * Z.of_N hi)%Z in
  if (u <? 32768)%Z then u else (u - 65536)%Z.

(** [new Int16Array(bytes.buffer)]: [None] is the RangeError raised for a
    byte length that is not a multiple of two. *)
Fixpoint Int16Array (bytes : list N) : option (list Z) :=
  match bytes with
  | [] => Some []
  | [_] => None
  | lo :: hi :: r => option_map (cons (int16 lo hi)) (Int16Array r)
  end.

(** [channelData[i] = pcmData[i] / 32768.0]; every quotient is exact in
    single precision. *)
Definition channelData (pcmData : list Z) : list Q :=
  map (fun v => (inject_Z v / 32768)%Q) pcmData.

Definition decode (binaryString : string) : option (list Q) :=
  option_map channelData (Int16Array (bytes_of binaryString)).

(** The browser: obtaining a running [AudioContext], [atob], and
    everything from [createBuffer] to [source.start()]. *)
Record Browser := {
  audio_context : Outcome unit;
  atob : string -> Outcome string;
  start_source : list Q -> Outcome unit
}.

(** [playGlobalAudio] up to the return of the promise, on the loading
    phase: any failure is caught and leads back to [idle]. *)
Definition playGlobalAudio (Br : Browser) (base64Audio : string)
    (s : AppState) : AppState :=
  match audio_context Br with
  | Thrown _ => with_loadingPhase idle s
  | Resolved _ =>
      match atob Br base64Audio with
      | Thrown _ => with_loadingPhase idle s
      | Resolved binaryString =>
          match decode binaryString with
          | None => with_loadingPhase idle s
          | Some samples =>
              match start_source Br samples with
              | Thrown _ =>
                  with_loadingPhase idle (with_loadingPhase ph_speaking s)
              | Resolved _ => with_loadingPhase ph_speaking s
              end
          end
      end
  end.

End Audio.

(* ================================================================== *)
(** ** [components/Dashboard] *)

Module Dashboard.

(** [l.slice(-n)] *)
Definition slice_last {A : Type} (n : nat) (l : list A) : list A :=
  skipn (length l - n) l.

(** The meeting block of an active session: topic, the lines shown, and
    the count of the line "+N more lines..." when there is one. *)
Record MeetingBlock := {
  block_topic : string;
  block_lines : list string;
  block_more : option nat
}.

Record View := {
  status_badge : string;
  meeting_block : option MeetingBlock;
  (** [None] stands for "No notes saved yet." *)
  notes_block : option (list (string * list string))
}.

Definition render (n : NoteStore) (m : MeetingSession) (isOpen : bool)
  : option View :=
  if negb isOpen then None
  else
    Some
      {| status_badge := if active m then "LIVE" else "IDLE";
         meeting_block :=
           if active m then
             Some {| block_topic := mtopic m;
                     block_lines := slice_last 3 (log m);
                     block_more :=
                       if (3 <? length (log m))%nat
                       then Some (length (log m) - 3)%nat else None |}
           else None;
         notes_block :=
           if (length (JsObject.keys n) =? 0)%nat then None else Some n |}.

End Dashboard.

(* ================================================================== *)
(** ** [components/ResponseCard]: [renderContent] *)

Module ResponseCard.

(** What [renderContent] puts on the card. *)
Inductive Content :=
| ErrorLine (message : string)
| CodeBlock (code : string)
| NoPapers
| PaperList (l : list Paper)
| MeetingSummary (text : string)
| MeetingStatus (text : string)
| NoNotes
| NoteList (l : list string)
| NewsCard (n : NewsResult)
| Translation (lang : option string) (text : string)
| NotSure
| PlainLine (text : string)
(** the result has not the shape the branch casts it to *)
| Miscast.

Definition as_text (r : ResultValue) (k : string -> Content) : Content :=
  match r with
  | RText s => k s
  | _ => Miscast
  end.

Definition renderContent (item : HistoryItem) : Content :=
  if match status item with error => true | _ => false end then
    ErrorLine (or_else (errorMessage item) "An error occurred.")
  else
    let a := agent (plannerOutput item) in
    if String.eqb a "code" then as_text (result item) CodeBlock
    else if String.eqb a "papers" then
      match result item with
      | RNull => NoPapers
      | RText EmptyString => NoPapers
      | RLines [] => NoPapers
      | RPapers [] => NoPapers
      | RPapers l => PaperList l
      | RInherited name =>
          match JsObject.inherited_length name with
          | Some 0%N => NoPapers
          | _ => Miscast
          end
      | _ => Miscast
      end
    else if String.eqb a "meeting" then
      match meetingAction (info (plannerOutput item)) with
      | Some act =>
          if String.eqb act "stop" then as_text (result item) MeetingSummary
          else as_text (result item) MeetingStatus
      | None => as_text (result item) MeetingStatus
      end
    else if String.eqb a "notes_read" then
      match result item with
      | RNull => NoNotes
      | RText EmptyString => NoNotes
      | RLines [] => NoNotes
      | RPapers [] => NoNotes
      | RLines l => NoteList l
      | RInherited name =>
          (* [notes.length === 0], else [notes.map] is not a function *)
          match JsObject.inherited_length name with
          | Some 0%N => NoNotes
          | _ => Miscast
          end
      | _ => Miscast
      end
    else if String.eqb a "news" then
      match result item with
      | RNews n => NewsCard n
      | _ => Miscast
      end
    else if String.eqb a "translate" then
      as_text (result item)
        (Translation (language (info (plannerOutput item))))
    else if String.eqb a "unknown" then NotSure
    else as_text (result item) PlainLine.

End ResponseCard.

(* ================================================================== *)
(** ** Auxiliary notions for the statements *)

(** The request [planRequest] sends for a query. *)
Definition planner_request (q : string) : GenRequest :=
  {| model := "gemini-3-pro-preview"; contents := q; planner_config := true |}.

(** What can happen to the component between two renders at rest: a
    submission, the listener toggle, a listener callback, the playback of a
    synthesized answer. *)
Inductive app_step : AppState -> AppState -> Prop :=
| app_run E q s : app_step s (run E s q)
| app_toggle s : app_step s (toggleMeetingListener s)
| app_onresult transcript s : app_step s (onresult transcript s)
| app_onerror err s : app_step s (onerror err s)
| app_playback Br audio s : app_step s (Audio.playGlobalAudio Br audio s).

Definition app_steps : AppState -> AppState -> Prop :=
  clos_refl_trans AppState app_step.

(** Topics are stored lower-cased, and no stored sequence or note is
    empty. *)
Definition notes_wf (n : NoteStore) : Prop :=
  Forall (fun kv => toLowerCase (fst kv) = fst kv /\ snd kv <> [] /\
                    Forall (fun note => note <> EmptyString) (snd kv)) n.

Definition terminal (it : HistoryItem) : Prop :=
  status it = success \/ status it = error.

(* ================================================================== *)
(** ** Requests and text predicates used by the properties *)

Definition backtick : ascii := ascii_of_nat 96.

(** The requests the text clients send. *)
Definition code_request (t : string) (d : option string) : GenRequest :=
  {| model := "gemini-3-pro-preview"; contents := Gemini.code_prompt t d;
     planner_config := false |}.

Definition translate_request (text lang : string) : GenRequest :=
  {| model := "gemini-2.5-flash";
     contents := Gemini.translate_prompt text lang;
     planner_config := false |}.

Definition summary_request (t : string) (l : list string) : GenRequest :=
  {| model := "gemini-2.5-flash"; contents := summary_prompt t (join nl l);
     planner_config := false |}.

(** [s] has no ['<']. *)
Definition no_lt (s : string) : Prop :=
  Forall (fun c => c <> Pattern.lt_char) (list_ascii_of_string s).

(** Some ['<'] of [s] is followed, later on, by a ['>']: [s] contains a
    match of [/<[^>]*>/]. *)
Fixpoint has_tag (s : string) : bool :=
  match s with
  | EmptyString => false
  | String c r => (Ascii.eqb c Pattern.lt_char && Pattern.has_gt r) || has_tag r
  end.

Definition line_feed : ascii := ascii_of_nat 10.

(* ================================================================== *)
(** * Properties *)

(** ** Concrete evaluations *)

Example trim_blank : trim ("  " ++ nl ++ " ") = EmptyString.
Proof. reflexivity. Qed.

Example trim_inner : trim "  add  note " = "add  note".
Proof. reflexivity. Qed.

Example toLowerCase_mixed : toLowerCase "Work-Notes 2" = "work-notes 2".
Proof. reflexivity. Qed.

(** Array-index keys come first in ascending order, whatever the order of
    creation; the other keys keep the order of creation. *)
Example own_property_order :
  JsObject.keys
    (JsObject.set "10" ["d"]
       (JsObject.set "b" ["c"]
          (JsObject.set "2" ["b"] (JsObject.set "a" ["a"] JsObject.empty))))
  = ["2"; "10"; "a"; "b"].
Proof. reflexivity. Qed.

Example array_index_canonical :
  JsObject.array_index "007" = None /\
  JsObject.array_index "4294967294" = Some 4294967294%N /\
  JsObject.array_index "4294967295" = None.
Proof. repeat split; reflexivity. Qed.

(** The scenario of the welcome screen: "Add note: Buy milk". *)
Example add_note_buy_milk :
  let E := Sample.env_with
             (Sample.plan_of "notes_add" (Sample.info_content "Buy milk"))
             (Resolved None) in
  let s' := run E initial_state "Add note: Buy milk" in
  notes s' = [("general", ["Buy milk"])] /\
  map result (history s')
    = [RText ("Added note to " ++ dq ++ "general" ++ dq ++ ".")] /\
  map status (history s') = [success] /\
  loading s' = false.
Proof. repeat split; reflexivity. Qed.

(** A missing API key makes [planRequest] itself throw: the outer [catch]
    records the placeholder plan with status [error]. *)
Example planning_throws :
  let E := {| API_KEY := None;
              generateContent := fun _ => Resolved None;
              JSON_parse := fun _ => Thrown "unexpected token";
              generateCode := fun _ _ => Thrown "no client";
              searchArxiv := fun _ => Resolved [];
              generateNews := fun _ => Thrown "no client";
              translateText := fun _ _ => Thrown "no client";
              clock_id := 7%N; clock_timestamp := 7%N |} in
  let s' := run E initial_state "hello" in
  map (fun it => (agent (plannerOutput it), status it, errorMessage it))
      (history s')
    = [("unknown", error, Some "Planning failed unexpectedly.")] /\
  loading s' = false /\ loadingPhase s' = idle.
Proof. repeat split; reflexivity. Qed.

(** ** String lemmas *)

Lemma is_empty_true s : is_empty s = true <-> s = EmptyString.
Proof. destruct s; simpl; split; congruence. Qed.

Lemma is_empty_false s : is_empty s = false <-> s <> EmptyString.
Proof. destruct s; simpl; split; congruence. Qed.

Lemma toLowerCase_empty s : is_empty (toLowerCase s) = is_empty s.
Proof. now destruct s. Qed.

Lemma truthy_some c : c <> EmptyString -> truthy (Some c) = true.
Proof. intros H. simpl. apply is_empty_false in H. now rewrite H. Qed.

Lemma or_else_some c d : c <> EmptyString -> or_else (Some c) d = c.
Proof. intros H. simpl. apply is_empty_false in H. now rewrite H. Qed.

Lemma last_item_snoc s l it :
  history s = l ++ [it] -> last_item s = Some it.
Proof.
  unfold last_item. intros ->. rewrite map_app. simpl. apply last_last.
Qed.

(** ** The planner and the summarizer leave the world alone *)

Section RunFacts.
Variable E : Env.

Lemma planRequest_world q w :
  exists cs,
    planRequest E q w = (planned E q, more_calls cs w) /\
    summarize_calls cs = [] /\ speech_calls cs = [].
Proof.
  unfold planned, planRequest, getAiClient, models_generateContent, try_catch,
    bind, emit, await, ret, throw, more_calls.
  destruct (truthy (API_KEY E)); cbn.
  - destruct (generateContent E _) as [[t|]|e]; cbn.
    + destruct (is_empty t); cbn.
      * rewrite <- !app_assoc; eexists; repeat split; reflexivity.
      * destruct (JSON_parse E t); cbn; rewrite <- !app_assoc;
          eexists; repeat split; reflexivity.
    + rewrite <- !app_assoc; eexists; repeat split; reflexivity.
    + rewrite <- !app_assoc; eexists; repeat split; reflexivity.
  - eexists; repeat split; reflexivity.
Qed.

Lemma summarizeMeetingLog_world t l w :
  exists cs,
    summarizeMeetingLog E t l w = (summarized E t l, more_calls cs w) /\
    summarize_calls cs = [(t, l)] /\ speech_calls cs = [].
Proof.
  unfold summarized, summarizeMeetingLog, getAiClient, models_generateContent,
    bind, emit, await, ret, throw, more_calls.
  destruct (truthy (API_KEY E)); cbn.
  - destruct (generateContent E _) as [text|e]; cbn; rewrite <- !app_assoc;
      eexists; repeat split; reflexivity.
  - eexists; repeat split; reflexivity.
Qed.

Lemma summarized_fallback t l text :
  truthy (API_KEY E) = true ->
  generateContent E {| model := "gemini-2.5-flash";
                       contents := summary_prompt t (join nl l);
                       planner_config := false |} = Resolved text ->
  summarized E t l = Resolved (or_else text "Could not generate summary.").
Proof.
  intros Hkey Hgen.
  unfold summarized, summarizeMeetingLog, getAiClient, models_generateContent,
    bind, emit, await, ret.
  rewrite Hkey. cbn -[summary_prompt join nl]. rewrite Hgen. reflexivity.
Qed.

Lemma handleRun_rejected snap ov s :
  accepted snap ov = false -> handleRun E snap ov s = (s, []).
Proof.
  unfold accepted, handleRun. intros H. apply negb_false_iff in H.
  now rewrite H.
Qed.

End RunFacts.

Lemma summarize_calls_app a b :
  summarize_calls (a ++ b) = summarize_calls a ++ summarize_calls b.
Proof. apply flat_map_app. Qed.

Lemma speech_calls_app a b :
  speech_calls (a ++ b) = speech_calls a ++ speech_calls b.
Proof. apply flat_map_app. Qed.

(** ** Symbolic execution of [handleRun] *)

Ltac use_planner :=
  match goal with
  | |- context [planRequest ?E ?q ?w] =>
      let cs := fresh "cs" in
      let Hp := fresh "Hp" in
      let Hs := fresh "Hsum" in
      let Hv := fresh "Hspeech" in
      destruct (planRequest_world E q w) as [cs [Hp [Hs Hv]]];
      rewrite Hp; clear Hp
  end.

Ltac use_summarizer :=
  match goal with
  | |- context [summarizeMeetingLog ?E ?t ?l ?w] =>
      let cs := fresh "cs" in
      let Hp := fresh "Hp" in
      let Hs := fresh "Hsum" in
      let Hv := fresh "Hspeech" in
      destruct (summarizeMeetingLog_world E t l w) as [cs [Hp [Hs Hv]]];
      rewrite Hp; clear Hp
  end.

(** Pass the guard of an accepted call and run up to the planner. *)
Ltac enter_run Hacc :=
  unfold run, run_calls, run_render_errors, handleRun,
    handleRun_render_errors, handleRun_body;
  let H' := fresh in
  pose proof Hacc as H'; unfold accepted in H'; apply negb_true_iff in H';
  cbn [or_else input with_input] in H'; cbn [or_else input with_input];
  rewrite H'; clear H';
  unfold plan_and_execute, try_finally, try_catch;
  cbn -[planRequest]; unfold bind at 1; use_planner.

(** Continue into the switch once the plan is known. *)
Ltac enter_switch :=
  cbn -[switch_agent];
  unfold execute_tool, try_catch, switch_agent, call_generateNews.

(** ** Dictionary lemmas *)

Module JsObjectFacts.
Import JsObject.

Section WithValue.
Context {V : Type}.
Implicit Types (o : JsObject.t V) (k : string) (v : V).

Lemma get_replace_same k v o :
  get k o <> None -> get k (replace k v o) = Some v.
Proof.
  induction o as [|[k' v'] r IH]; simpl; [congruence|].
  destruct (String.eqb k k') eqn:Hk; simpl; rewrite Hk; auto.
Qed.

Lemma get_replace_other k k' v o :
  k' <> k -> get k' (replace k v o) = get k' o.
Proof.
  intros Hne. induction o as [|[k0 v0] r IH]; simpl; [reflexivity|].
  destruct (String.eqb k k0) eqn:Hk; simpl.
  - apply String.eqb_eq in Hk. subst k0.
    apply String.eqb_neq in Hne. now rewrite Hne.
  - now rewrite IH.
Qed.

Lemma get_insert_index_same n k v o :
  get k o = None -> get k (insert_index n k v o) = Some v.
Proof.
  induction o as [|[k' v'] r IH]; simpl.
  - now rewrite String.eqb_refl.
  - destruct (String.eqb k k') eqn:Hk; [discriminate|]. intros Hr.
    destruct (array_index k') as [n'|]; [destruct (n <? n')%N|]; simpl;
      rewrite ?String.eqb_refl, ?Hk; auto.
Qed.

Lemma get_insert_index_other n k k' v o :
  k' <> k -> get k' (insert_index n k v o) = get k' o.
Proof.
  intros Hne. apply String.eqb_neq in Hne.
  induction o as [|[k0 v0] r IH]; simpl.
  - now rewrite Hne.
  - destruct (array_index k0) as [n'|]; [destruct (n <? n')%N|]; simpl;
      rewrite ?Hne, ?IH; reflexivity.
Qed.

Lemma get_app_fresh k k' v o :
  get k' (o ++ [(k, v)]) =
  match get k' o with
  | Some x => Some x
  | None => if String.eqb k' k then Some v else None
  end.
Proof.
  induction o as [|[k0 v0] r IH]; simpl; [reflexivity|].
  destruct (String.eqb k' k0); auto.
Qed.

Lemma get_set_same k v o : get k (set k v o) = Some v.
Proof.
  unfold set. destruct (get k o) eqn:Hg.
  - apply get_replace_same. congruence.
  - destruct (array_index k).
    + now apply get_insert_index_same.
    + rewrite get_app_fresh, Hg, String.eqb_refl. reflexivity.
Qed.

Lemma get_set_other k k' v o : k' <> k -> get k' (set k v o) = get k' o.
Proof.
  intros Hne. unfold set. destruct (get k o) eqn:Hg.
  - now apply get_replace_other.
  - destruct (array_index k).
    + now apply get_insert_index_other.
    + rewrite get_app_fresh. apply String.eqb_neq in Hne. rewrite Hne.
      now destruct (get k' o).
Qed.

Lemma get_delete_same k o : get k (delete k o) = None.
Proof.
  induction o as [|[k' v'] r IH]; simpl; [reflexivity|].
  destruct (String.eqb k k') eqn:Hk; simpl; rewrite ?Hk; auto.
Qed.

Lemma get_delete_other k k' o : k' <> k -> get k' (delete k o) = get k' o.
Proof.
  intros Hne. induction o as [|[k0 v0] r IH]; simpl; [reflexivity|].
  destruct (String.eqb k k0) eqn:Hk; simpl.
  - apply String.eqb_eq in Hk. subst k0.
    apply String.eqb_neq in Hne. now rewrite Hne.
  - now rewrite IH.
Qed.

Lemma delete_filter k o :
  delete k o = filter (fun kv => negb (String.eqb k (fst kv))) o.
Proof.
  induction o as [|[k' v'] r IH]; simpl; [reflexivity|].
  destruct (String.eqb k k'); simpl; now rewrite IH.
Qed.

End WithValue.
End JsObjectFacts.

(* ================================================================== *)
(** ** Notes handlers *)

Lemma lookup_own_or_fresh {V} k (o : JsObject.t V) :
  (JsObject.get k o = None -> JsObject.inherited k = false) ->
  JsObject.lookup k o
  = match JsObject.get k o with
    | Some v => JsObject.Own v
    | None => JsObject.Undefined
    end.
Proof.
  unfold JsObject.lookup. destruct (JsObject.get k o); [reflexivity|].
  intros H. now rewrite H.
Qed.

Lemma add_note_own_or_fresh k c n :
  (JsObject.get k n = None -> JsObject.inherited k = false) ->
  add_note k c n = Some (JsObject.set k (notes_at k n ++ [c]) n).
Proof.
  intros H. unfold add_note, notes_at, JsObject.spread.
  rewrite (lookup_own_or_fresh _ _ H). now destruct (JsObject.get k n).
Qed.

Lemma add_note_inherited k c n :
  JsObject.get k n = None -> JsObject.inherited k = true ->
  add_note k c n = None.
Proof.
  intros Hg Hi. unfold add_note, JsObject.lookup. now rewrite Hg, Hi.
Qed.

Lemma add_note_Some k c n n' :
  add_note k c n = Some n' ->
  n' = JsObject.set k (notes_at k n ++ [c]) n.
Proof.
  unfold add_note, JsObject.lookup, notes_at, JsObject.spread.
  destruct (JsObject.get k n); [|destruct (JsObject.inherited k)];
    congruence.
Qed.

Lemma read_topic_own_or_fresh k n :
  (JsObject.get k n = None -> JsObject.inherited k = false) ->
  read_topic k n = RLines (notes_at k n).
Proof.
  intros H. unfold read_topic, notes_at.
  rewrite (lookup_own_or_fresh _ _ H). now destruct (JsObject.get k n).
Qed.

Lemma read_topic_inherited k n :
  JsObject.get k n = None -> JsObject.inherited k = true ->
  read_topic k n = RInherited k.
Proof.
  intros Hg Hi. unfold read_topic, JsObject.lookup. now rewrite Hg, Hi.
Qed.

(** X28. [notes_add] on a topic that is an own topic of the store, or that
    is not a name inherited from [Object.prototype]: with non-empty
    content the content is appended to the note sequence of the lower-cased
    topic ("general" when the topic is omitted), every other topic is
    untouched, no updater throws and the item reports success; with missing
    content the item has status [error] with an explanatory message and
    the NoteStore is unchanged. *)
Theorem notes_add_run E s q p :
  accepted (with_input q s) None = true ->
  planned E q = Resolved p ->
  agent p = "notes_add" ->
  let k := toLowerCase (or_else (topic (info p)) "general") in
  let s' := run E s q in
  (forall c, content (info p) = Some c -> c <> EmptyString ->
     (JsObject.get k (notes s) = None -> JsObject.inherited k = false) ->
     JsObject.get k (notes s') = Some (notes_at k (notes s) ++ [c]) /\
     (forall k', k' <> k ->
        JsObject.get k' (notes s') = JsObject.get k' (notes s)) /\
     run_render_errors E s q = [] /\
     exists it, history s' = history s ++ [it] /\ status it = success /\
                result it = RText ("Added note to " ++ dq ++ k ++ dq ++ ".")) /\
  (truthy (content (info p)) = false ->
     notes s' = notes s /\
     exists it, history s' = history s ++ [it] /\ status it = error /\
                result it = RText "No content provided for the note.") /\
  (truthy (topic (info p)) = false -> k = "general").
Proof.
  intros Hacc Hplan Hagent k s'. subst s'. split; [|split].
  - intros c Hc Hne Hk.
    pose proof (add_note_own_or_fresh k c (notes s) Hk) as Hadd.
    apply is_empty_false in Hne.
    eassert (Hrun : run E s q = _).
    { enter_run Hacc. rewrite Hplan. enter_switch.
      rewrite Hagent. cbn -[add_note]. rewrite Hc. cbn -[add_note].
      rewrite Hne. cbn -[add_note]. fold k. unfold setNotes, bind.
      cbn -[add_note]. rewrite Hadd. cbn. reflexivity. }
    eassert (Herr : run_render_errors E s q = _).
    { enter_run Hacc. rewrite Hplan. enter_switch.
      rewrite Hagent. cbn -[add_note]. rewrite Hc. cbn -[add_note].
      rewrite Hne. cbn -[add_note]. fold k. unfold setNotes, bind.
      cbn -[add_note]. rewrite Hadd. cbn. reflexivity. }
    rewrite Hrun, Herr. cbn. split; [|split; [|split]].
    + apply JsObjectFacts.get_set_same.
    + intros k' Hk'. now apply JsObjectFacts.get_set_other.
    + reflexivity.
    + eexists. repeat split.
  - intros Hc.
    eassert (Hrun : run E s q = _).
    { enter_run Hacc. rewrite Hplan. enter_switch.
      rewrite Hagent. cbn. rewrite Hc. cbn. reflexivity. }
    rewrite Hrun. cbn. split; [reflexivity|]. eexists. repeat split.
  - subst k. destruct (topic (info p)) as [[|c t]|]; simpl;
      intros; [reflexivity|discriminate|reflexivity].
Qed.

Lemma notes_add_run_witness :
  let i := {| topic := Some "Work"; content := Some "Call Bob";
              meetingAction := None; language := None |} in
  let E := Sample.env_with (Sample.plan_of "notes_add" i) (Resolved None) in
  let s := Sample.state_with Sample.two_topics initial_meeting in
  let q := "note for Work: Call Bob" in
  accepted (with_input q s) None = true /\
  planned E q = Resolved (Sample.plan_of "notes_add" i) /\
  JsObject.inherited "work" = false /\
  notes (run E s q)
    = [("work", ["ship it"; "review"; "Call Bob"]); ("home", ["buy milk"])] /\
  JsObject.get "work" (notes (run E s q))
    = Some (["ship it"; "review"] ++ ["Call Bob"]) /\
  JsObject.get "Work" (notes (run E s q)) = None /\
  exists it, history (run E s q) = [] ++ [it] /\
             status it = success /\
             result it = RText ("Added note to " ++ dq ++ "work" ++ dq ++ ".").
Proof.
  cbv zeta. split; [reflexivity|]. split; [reflexivity|].
  split; [reflexivity|]. split; [reflexivity|].
  destruct (notes_add_run
              (Sample.env_with
                 (Sample.plan_of "notes_add"
                    {| topic := Some "Work"; content := Some "Call Bob";
                       meetingAction := None; language := None |})
                 (Resolved None))
              (Sample.state_with Sample.two_topics initial_meeting)
              "note for Work: Call Bob"
              (Sample.plan_of "notes_add"
                 {| topic := Some "Work"; content := Some "Call Bob";
                    meetingAction := None; language := None |})
              eq_refl eq_refl eq_refl) as [Hadd _].
  destruct (Hadd "Call Bob" eq_refl ltac:(discriminate) ltac:(reflexivity))
    as [Hseq [_ [_ Hitem]]].
  split; [exact Hseq|]. split; [reflexivity | exact Hitem].
Defined.

(** C7 (code defect). The planner hands over the topic "Constructor" and
    the content "call super first".  The lower-cased topic is not an own
    topic of the empty store, but [prev["constructor"]] is the function
    inherited from [Object.prototype]: it is truthy, so it is spread
    instead of [[]], and the updater throws.  Nothing is stored, while the
    item of the run reports success. *)
Theorem notes_add_inherited_topic :
  let i := {| topic := Some "Constructor"; content := Some "call super first";
              meetingAction := None; language := None |} in
  let E := Sample.env_with (Sample.plan_of "notes_add" i) (Resolved None) in
  let q := "note on Constructor: call super first" in
  let s' := run E initial_state q in
  accepted (with_input q initial_state) None = true /\
  planned E q = Resolved (Sample.plan_of "notes_add" i) /\
  JsObject.get "constructor" (notes initial_state) = None /\
  JsObject.lookup "constructor" (notes initial_state)
    = JsObject.Inherited "constructor" /\
  add_note "constructor" "call super first" (notes initial_state) = None /\
  notes s' = notes initial_state /\
  JsObject.get "constructor" (notes s') <> Some ([] ++ ["call super first"]) /\
  run_render_errors E initial_state q = ["TypeError"] /\
  map status (history s') = [success] /\
  map result (history s')
    = [RText ("Added note to " ++ dq ++ "constructor" ++ dq ++ ".")].
Proof.
  cbv zeta. repeat split; try reflexivity. vm_compute. discriminate.
Qed.

(** C8. [notes_clear]: a non-empty topic removes exactly the entry of that
    (lower-cased) topic and leaves every other topic, its notes and the
    enumeration order of the remaining entries unchanged; an empty topic
    empties the whole store; the item reports success in both cases. *)
Theorem notes_clear_run E s q p :
  accepted (with_input q s) None = true ->
  planned E q = Resolved p ->
  agent p = "notes_clear" ->
  let s' := run E s q in
  (forall t, topic (info p) = Some t -> t <> EmptyString ->
     let k := toLowerCase t in
     JsObject.get k (notes s') = None /\
     (forall k', k' <> k ->
        JsObject.get k' (notes s') = JsObject.get k' (notes s)) /\
     notes s' = filter (fun kv => negb (String.eqb k (fst kv))) (notes s)) /\
  (truthy (topic (info p)) = false -> notes s' = JsObject.empty) /\
  exists it, history s' = history s ++ [it] /\ status it = success.
Proof.
  intros Hacc Hplan Hagent s'. subst s'. split; [|split].
  - intros t Ht Hne k.
    eassert (Hrun : run E s q = _).
    { enter_run Hacc. rewrite Hplan. enter_switch.
      apply is_empty_false in Hne.
      rewrite Hagent. cbn. rewrite Ht. cbn. rewrite Hne. cbn.
      rewrite toLowerCase_empty, Hne. cbn. fold k. reflexivity. }
    rewrite Hrun. cbn. unfold JsObject.spread. split; [|split].
    + apply JsObjectFacts.get_delete_same.
    + intros k' Hk'. now apply JsObjectFacts.get_delete_other.
    + apply JsObjectFacts.delete_filter.
  - intros Ht.
    eassert (Hrun : run E s q = _).
    { enter_run Hacc. rewrite Hplan. enter_switch.
      rewrite Hagent. cbn.
      assert (Hk : is_empty (toLowerCase (or_else (topic (info p)) EmptyString))
                   = true).
      { destruct (topic (info p)) as [[|c t]|]; simpl in *;
          [reflexivity|discriminate|reflexivity]. }
      rewrite Hk. cbn. reflexivity. }
    rewrite Hrun. reflexivity.
  - enter_run Hacc. rewrite Hplan. enter_switch. rewrite Hagent. cbn.
    destruct (is_empty _); cbn; eexists; repeat split.
Qed.

Lemma notes_clear_run_witness :
  let E := Sample.env_with
             (Sample.plan_of "notes_clear" (Sample.info_topic "Work"))
             (Resolved None) in
  let s := Sample.state_with Sample.two_topics initial_meeting in
  let q := "clear my work notes" in
  accepted (with_input q s) None = true /\
  planned E q = Resolved (Sample.plan_of "notes_clear"
                            (Sample.info_topic "Work")) /\
  notes (run E s q) = [("home", ["buy milk"])] /\
  JsObject.get "work" (notes (run E s q)) = None /\
  JsObject.get "home" (notes (run E s q)) = JsObject.get "home" (notes s).
Proof.
  cbv zeta. split; [reflexivity|]. split; [reflexivity|].
  split; [reflexivity|].
  destruct (notes_clear_run
              (Sample.env_with
                 (Sample.plan_of "notes_clear" (Sample.info_topic "Work"))
                 (Resolved None))
              (Sample.state_with Sample.two_topics initial_meeting)
              "clear my work notes"
              (Sample.plan_of "notes_clear" (Sample.info_topic "Work"))
              eq_refl eq_refl eq_refl) as [Hclear _].
  destruct (Hclear "Work" eq_refl ltac:(discriminate)) as [Hgone [Hrest _]].
  split; [exact Hgone | apply Hrest; discriminate].
Defined.

(** C6 (amended). [notes_read]: the topic is lower-cased first.  With topic
    "all" or no topic the result is the flattened concatenation of every
    topic's notes in enumeration order, or the single line
    "No notes found." when that concatenation is empty; with any other
    topic that is an own topic of the store, or is not a name inherited
    from [Object.prototype], it is that topic's note sequence, empty when
    the topic is absent.  The store is not written and the item reports
    success. *)
Theorem notes_read_run E s q p :
  accepted (with_input q s) None = true ->
  planned E q = Resolved p ->
  agent p = "notes_read" ->
  let t := toLowerCase (or_else (topic (info p)) EmptyString) in
  let all := flat (JsObject.values (notes s)) in
  let s' := run E s q in
  notes s' = notes s /\
  exists it,
    history s' = history s ++ [it] /\ status it = success /\
    (t = "all" \/ t = EmptyString ->
       all <> [] -> result it = RLines all) /\
    (t = "all" \/ t = EmptyString ->
       all = [] -> result it = RLines ["No notes found."]) /\
    (t <> "all" -> t <> EmptyString ->
       (JsObject.get t (notes s) = None -> JsObject.inherited t = false) ->
       result it = RLines (match JsObject.get t (notes s) with
                           | Some l => l
                           | None => []
                           end)).
Proof.
  intros Hacc Hplan Hagent t all s'. subst s' all.
  unfold flat, JsObject.values.
  destruct (String.eqb t "all" || is_empty t) eqn:Hall.
  - assert (Ht : t = "all" \/ t = EmptyString).
    { apply orb_true_iff in Hall. destruct Hall as [H|H].
      - left. now apply String.eqb_eq.
      - right. now apply is_empty_true. }
    destruct (concat (map snd (notes s))) as [|x r] eqn:Hflat.
    + eassert (Hrun : run E s q = _).
      { enter_run Hacc. rewrite Hplan. enter_switch. rewrite Hagent. cbn.
        fold t. rewrite Hall. cbn. rewrite Hflat. cbn.
        reflexivity. }
      rewrite Hrun. cbn. split; [reflexivity|]. eexists.
      split; [reflexivity|]. split; [reflexivity|]. cbn.
      repeat split; intros; try reflexivity; try congruence.
      destruct Ht; congruence.
    + eassert (Hrun : run E s q = _).
      { enter_run Hacc. rewrite Hplan. enter_switch. rewrite Hagent. cbn.
        fold t. rewrite Hall. cbn. rewrite Hflat. cbn.
        reflexivity. }
      rewrite Hrun. cbn. split; [reflexivity|]. eexists.
      split; [reflexivity|]. split; [reflexivity|]. cbn.
      repeat split; intros; try reflexivity; try congruence.
      destruct Ht; congruence.
  - apply orb_false_iff in Hall. destruct Hall as [Hne1 Hne2].
    eassert (Hrun : run E s q = _).
    { enter_run Hacc. rewrite Hplan. enter_switch. rewrite Hagent.
      cbn -[read_topic]. fold t. rewrite Hne1, Hne2. cbn -[read_topic].
      reflexivity. }
    rewrite Hrun. cbn -[read_topic]. split; [reflexivity|]. eexists.
    split; [reflexivity|]. split; [reflexivity|]. cbn -[read_topic].
    apply String.eqb_neq in Hne1. apply is_empty_false in Hne2.
    split; [|split].
    + intros [H|H]; congruence.
    + intros [H|H]; congruence.
    + intros _ _ Hown. now apply read_topic_own_or_fresh.
Qed.

Lemma notes_read_run_witness :
  let E := Sample.env_with
             (Sample.plan_of "notes_read" (Sample.info_topic "ALL"))
             (Resolved None) in
  let s := Sample.state_with Sample.two_topics initial_meeting in
  let q := "read everything" in
  accepted (with_input q s) None = true /\
  planned E q = Resolved (Sample.plan_of "notes_read"
                            (Sample.info_topic "ALL")) /\
  exists it, history (run E s q) = history s ++ [it] /\
             result it = RLines ["ship it"; "review"; "buy milk"].
Proof.
  cbv zeta. split; [reflexivity|]. split; [reflexivity|].
  destruct (notes_read_run
              (Sample.env_with
                 (Sample.plan_of "notes_read" (Sample.info_topic "ALL"))
                 (Resolved None))
              (Sample.state_with Sample.two_topics initial_meeting)
              "read everything"
              (Sample.plan_of "notes_read" (Sample.info_topic "ALL"))
              eq_refl eq_refl eq_refl) as [_ [it [Hh [_ [Hall _]]]]].
  exists it. split; [exact Hh|].
  apply Hall; [left; reflexivity | discriminate].
Defined.

(** C6 as stated fails on an empty store: reading "all" yields the
    placeholder line, not the (empty) flattened concatenation. *)
Lemma notes_read_empty_store_counterexample :
  let E := Sample.env_with
             (Sample.plan_of "notes_read" (Sample.info_topic "all"))
             (Resolved None) in
  let s' := run E initial_state "read all my notes" in
  planned E "read all my notes"
    = Resolved (Sample.plan_of "notes_read" (Sample.info_topic "all")) /\
  flat (JsObject.values (notes initial_state)) = [] /\
  map result (history s') = [RLines ["No notes found."]] /\
  map result (history s')
    <> [RLines (flat (JsObject.values (notes initial_state)))].
Proof.
  cbv zeta. repeat split; try reflexivity. vm_compute. discriminate.
Qed.

(* ================================================================== *)
(** ** Meeting handlers *)

(** C10. A meeting [add] that finds no active session creates the
    "Ad-hoc Discussion" session with [listening = false], so the
    recognition stream is not wanted; a meeting [start] creates its
    session with [listening = true]. *)
Theorem adhoc_meeting_not_listening E s q p :
  accepted (with_input q s) None = true ->
  planned E q = Resolved p ->
  agent p = "meeting" ->
  let s' := run E s q in
  (meetingAction (info p) = Some "add" -> active (meeting s) = false ->
     meeting s' = {| active := true; mtopic := "Ad-hoc Discussion";
                     log := [or_else (content (info p)) q];
                     listening := false |} /\
     Meeting.stream_wanted (meeting s') = false) /\
  (meetingAction (info p) = Some "start" ->
     meeting s' = {| active := true;
                     mtopic := or_else (topic (info p)) "General Meeting";
                     log := []; listening := true |} /\
     Meeting.stream_wanted (meeting s') = true).
Proof.
  intros Hacc Hplan Hagent s'. subst s'. split.
  - intros Hact Hidle.
    eassert (Hrun : run E s q = _).
    { enter_run Hacc. rewrite Hplan. enter_switch. rewrite Hagent. cbn.
      unfold meeting_case. rewrite Hact. cbn. rewrite Hidle. cbn.
      reflexivity. }
    rewrite Hrun. cbn. split; reflexivity.
  - intros Hact.
    eassert (Hrun : run E s q = _).
    { enter_run Hacc. rewrite Hplan. enter_switch. rewrite Hagent. cbn.
      unfold meeting_case. rewrite Hact. cbn. reflexivity. }
    rewrite Hrun. cbn. split; reflexivity.
Qed.

Lemma adhoc_meeting_not_listening_witness :
  let E := Sample.env_with
             (Sample.plan_of "meeting"
                (Sample.info_meeting "add" None (Some "ship on Friday")))
             (Resolved None) in
  let q := "log that we ship on Friday" in
  accepted (with_input q initial_state) None = true /\
  planned E q = Resolved (Sample.plan_of "meeting"
                            (Sample.info_meeting "add" None
                               (Some "ship on Friday"))) /\
  active (meeting initial_state) = false /\
  meeting (run E initial_state q)
    = {| active := true; mtopic := "Ad-hoc Discussion";
         log := ["ship on Friday"]; listening := false |} /\
  Meeting.stream_wanted (meeting (run E initial_state q)) = false.
Proof.
  cbv zeta. split; [reflexivity|]. split; [reflexivity|].
  split; [reflexivity|].
  destruct (adhoc_meeting_not_listening
              (Sample.env_with
                 (Sample.plan_of "meeting"
                    (Sample.info_meeting "add" None (Some "ship on Friday")))
                 (Resolved None))
              initial_state "log that we ship on Friday"
              (Sample.plan_of "meeting"
                 (Sample.info_meeting "add" None (Some "ship on Friday")))
              eq_refl eq_refl eq_refl) as [Hadd _].
  exact (Hadd eq_refl eq_refl).
Defined.

(** Run a meeting [stop] on an active session up to the summarizer. *)
Ltac run_to_summarizer Hacc Hplan Hagent Hact Hlive :=
  enter_run Hacc; rewrite Hplan; enter_switch; rewrite Hagent; cbn;
  unfold meeting_case; rewrite Hact; cbn -[summarizeMeetingLog];
  rewrite Hlive; cbn -[summarizeMeetingLog];
  unfold bind; cbn -[summarizeMeetingLog]; use_summarizer.

(** C1 (amended). Meeting [stop] on an active session: the listener is
    switched off, the summarizer is invoked exactly once, with the
    session's topic and its log entries in order.  When the summarizer
    returns a text (the fallback string "Could not generate summary."
    included) the session is reset to the inactive, empty state and the
    text is the result.  When the summarizer throws, the reset is not
    reached: the session stays active with its topic and log, with
    [listening = false], and the item has status [error]. *)
Theorem meeting_stop_run E s q p :
  accepted (with_input q s) None = true ->
  planned E q = Resolved p ->
  agent p = "meeting" ->
  meetingAction (info p) = Some "stop" ->
  active (meeting s) = true ->
  let s' := run E s q in
  let t := mtopic (meeting s) in
  let l := log (meeting s) in
  summarize_calls (run_calls E s q) = [(t, l)] /\
  listening (meeting s') = false /\
  (forall text, summarized E t l = Resolved text ->
     meeting s' = initial_meeting /\
     exists it, history s' = history s ++ [it] /\
                result it = RText text /\ status it = success) /\
  (forall e, summarized E t l = Thrown e ->
     meeting s' = Meeting.mute (meeting s) /\
     exists it, history s' = history s ++ [it] /\ status it = error) /\
  (forall text,
     truthy (API_KEY E) = true ->
     generateContent E {| model := "gemini-2.5-flash";
                          contents := summary_prompt t (join nl l);
                          planner_config := false |} = Resolved text ->
     truthy text = false ->
     summarized E t l = Resolved "Could not generate summary.").
Proof.
  intros Hacc Hplan Hagent Hact Hlive s' t l. subst s'.
  assert (Hmuted : forall e, summarized E t l = Thrown e ->
            meeting (run E s q) = Meeting.mute (meeting s) /\
            exists it, history (run E s q) = history s ++ [it] /\
                       status it = error).
  { intros e Ho. eassert (Hrun : run E s q = _).
    { run_to_summarizer Hacc Hplan Hagent Hact Hlive.
      fold t l. rewrite Ho. cbn. reflexivity. }
    rewrite Hrun. cbn. split; [reflexivity|]. eexists. repeat split. }
  assert (Hreset : forall text, summarized E t l = Resolved text ->
            meeting (run E s q) = initial_meeting /\
            exists it, history (run E s q) = history s ++ [it] /\
                       result it = RText text /\ status it = success).
  { intros text Ho. eassert (Hrun : run E s q = _).
    { run_to_summarizer Hacc Hplan Hagent Hact Hlive.
      fold t l. rewrite Ho. cbn. reflexivity. }
    rewrite Hrun. cbn. split; [reflexivity|]. eexists. repeat split. }
  split; [|split; [|split; [|split]]].
  - run_to_summarizer Hacc Hplan Hagent Hact Hlive.
    fold t l. destruct (summarized E t l); cbn;
      rewrite !summarize_calls_app, Hsum, Hsum0; reflexivity.
  - destruct (summarized E t l) as [text|e] eqn:Ho.
    + destruct (Hreset text eq_refl) as [-> _]. reflexivity.
    + destruct (Hmuted e eq_refl) as [-> _]. reflexivity.
  - exact Hreset.
  - exact Hmuted.
  - intros text Hkey Hgen Htext.
    rewrite (summarized_fallback E t l text Hkey Hgen).
    destruct text as [[|c r]|]; simpl in *; try reflexivity; discriminate.
Qed.

Lemma meeting_stop_run_witness :
  let E := Sample.env_with
             (Sample.plan_of "meeting" (Sample.info_meeting "stop" None None))
             (Resolved None) in
  let s := Sample.state_with [] Sample.live_meeting in
  let q := "stop the meeting" in
  accepted (with_input q s) None = true /\
  planned E q = Resolved (Sample.plan_of "meeting"
                            (Sample.info_meeting "stop" None None)) /\
  active (meeting s) = true /\
  summarize_calls (run_calls E s q) = [("Standup", ["alpha"; "beta"])] /\
  meeting (run E s q) = initial_meeting /\
  exists it, history (run E s q) = history s ++ [it] /\
             result it = RText "Could not generate summary." /\
             status it = success.
Proof.
  cbv zeta. split; [reflexivity|]. split; [reflexivity|].
  split; [reflexivity|].
  destruct (meeting_stop_run
              (Sample.env_with
                 (Sample.plan_of "meeting"
                    (Sample.info_meeting "stop" None None))
                 (Resolved None))
              (Sample.state_with [] Sample.live_meeting)
              "stop the meeting"
              (Sample.plan_of "meeting" (Sample.info_meeting "stop" None None))
              eq_refl eq_refl eq_refl eq_refl eq_refl)
    as [Hcalls [_ [Hreset _]]].
  split; [exact Hcalls|].
  exact (Hreset "Could not generate summary." eq_refl).
Defined.

(** C1 as stated fails when the summarizer throws: the session is still
    active and keeps its log. *)
Lemma meeting_stop_throw_counterexample :
  let E := Sample.env_with
             (Sample.plan_of "meeting" (Sample.info_meeting "stop" None None))
             (Thrown "quota exceeded") in
  let s := Sample.state_with [] Sample.live_meeting in
  let q := "stop the meeting" in
  accepted (with_input q s) None = true /\
  planned E q = Resolved (Sample.plan_of "meeting"
                            (Sample.info_meeting "stop" None None)) /\
  active (meeting s) = true /\
  summarized E (mtopic (meeting s)) (log (meeting s))
    = Thrown "quota exceeded" /\
  active (meeting (run E s q)) = true /\
  log (meeting (run E s q)) = ["alpha"; "beta"] /\
  ~ (active (meeting (run E s q)) = false /\ log (meeting (run E s q)) = []).
Proof.
  cbv zeta. repeat split; try reflexivity.
  vm_compute. intros [H _]. discriminate H.
Qed.

(** The handler reads the session of the render it was created in: when
    the component state has moved on since (speech lines logged while the
    planner was awaited), the summarizer still receives the snapshot. *)
Lemma meeting_stop_reads_snapshot E snap ov s p :
  accepted snap ov = true ->
  planned E (or_else ov (input snap)) = Resolved p ->
  agent p = "meeting" ->
  meetingAction (info p) = Some "stop" ->
  active (meeting snap) = true ->
  summarize_calls (snd (handleRun E snap ov s))
    = [(mtopic (meeting snap), log (meeting snap))].
Proof.
  intros Hacc Hplan Hagent Hact Hlive.
  run_to_summarizer Hacc Hplan Hagent Hact Hlive.
  destruct (summarized E _ _); cbn;
    rewrite !summarize_calls_app, Hsum, Hsum0; reflexivity.
Qed.

(* ================================================================== *)
(** ** Agents outside the closed set *)

Lemma in_agent_set_false a :
  in_agent_set a = false ->
  String.eqb a "code" = false /\ String.eqb a "papers" = false /\
  String.eqb a "notes_add" = false /\ String.eqb a "notes_read" = false /\
  String.eqb a "notes_clear" = false /\ String.eqb a "meeting" = false /\
  String.eqb a "news" = false /\ String.eqb a "translate" = false /\
  String.eqb a "unknown" = false.
Proof.
  unfold in_agent_set, agent_set. cbn [existsb]. intros H.
  repeat (apply orb_false_iff in H; destruct H as [? H]).
  repeat split; assumption.
Qed.

(** C2 (amended). Agent ['unknown'] yields the fixed "I couldn't
    understand" result with status [error].  An agent outside the closed
    set matches no case of the switch: the item carries the initial result
    "Done." with status [success], nothing is sent to speech synthesis and
    the NoteStore and the MeetingSession are unchanged. *)
Theorem unrecognized_agent_run E s q p :
  accepted (with_input q s) None = true ->
  planned E q = Resolved p ->
  let s' := run E s q in
  (in_agent_set (agent p) = false ->
     notes s' = notes s /\ meeting s' = meeting s /\
     speech_calls (run_calls E s q) = [] /\
     exists it, history s' = history s ++ [it] /\ plannerOutput it = p /\
                result it = RText "Done." /\ status it = success) /\
  (agent p = "unknown" ->
     notes s' = notes s /\ meeting s' = meeting s /\
     speech_calls (run_calls E s q) = ["I'm not sure how to help with that."] /\
     exists it, history s' = history s ++ [it] /\ plannerOutput it = p /\
                result it = RText unknown_message /\ status it = error).
Proof.
  intros Hacc Hplan s'. subst s'. split.
  - intros Hout. apply in_agent_set_false in Hout.
    destruct Hout as (H1 & H2 & H3 & H4 & H5 & H6 & H7 & H8 & H9).
    eassert (Hrun : run E s q = _).
    { enter_run Hacc. rewrite Hplan. enter_switch.
      rewrite H1, H2, H3, H4, H5, H6, H7, H8, H9. cbn. reflexivity. }
    rewrite Hrun. cbn. repeat split.
    + enter_run Hacc. rewrite Hplan. enter_switch.
      rewrite H1, H2, H3, H4, H5, H6, H7, H8, H9. cbn. exact Hspeech.
    + eexists. repeat split.
  - intros Hagent.
    eassert (Hrun : run E s q = _).
    { enter_run Hacc. rewrite Hplan. enter_switch.
      rewrite Hagent. cbn. reflexivity. }
    rewrite Hrun. cbn. repeat split.
    + enter_run Hacc. rewrite Hplan. enter_switch.
      rewrite Hagent. cbn. rewrite speech_calls_app, Hspeech. reflexivity.
    + eexists. repeat split.
Qed.

Lemma unrecognized_agent_run_witness :
  let E := Sample.env_with (Sample.plan_of "weather" empty_info)
             (Resolved None) in
  let q := "will it rain tomorrow" in
  accepted (with_input q initial_state) None = true /\
  planned E q = Resolved (Sample.plan_of "weather" empty_info) /\
  in_agent_set "weather" = false /\
  notes (run E initial_state q) = notes initial_state /\
  meeting (run E initial_state q) = meeting initial_state /\
  speech_calls (run_calls E initial_state q) = [] /\
  exists it, history (run E initial_state q) = [] ++ [it] /\
             plannerOutput it = Sample.plan_of "weather" empty_info /\
             result it = RText "Done." /\ status it = success.
Proof.
  cbv zeta. split; [reflexivity|]. split; [reflexivity|].
  split; [reflexivity|].
  destruct (unrecognized_agent_run
              (Sample.env_with (Sample.plan_of "weather" empty_info)
                 (Resolved None))
              initial_state "will it rain tomorrow"
              (Sample.plan_of "weather" empty_info) eq_refl eq_refl)
    as [Hout _].
  exact (Hout eq_refl).
Defined.

(** C2 as stated fails: an agent outside the closed set is recorded as a
    success with result "Done.", unlike agent ['unknown']. *)
Lemma unrecognized_agent_counterexample :
  let E := Sample.env_with (Sample.plan_of "weather" empty_info)
             (Resolved None) in
  let q := "will it rain tomorrow" in
  in_agent_set "weather" = false /\
  planned E q = Resolved (Sample.plan_of "weather" empty_info) /\
  map status (history (run E initial_state q)) = [success] /\
  map result (history (run E initial_state q)) = [RText "Done."] /\
  map status (history (run E initial_state q)) <> [error] /\
  map result (history (run E initial_state q)) <> [RText unknown_message].
Proof.
  cbv zeta. repeat split; try reflexivity; vm_compute; discriminate.
Qed.

(* ================================================================== *)
(** ** Every branch of the dispatch *)

Ltac case_action p :=
  unfold meeting_case;
  destruct (meetingAction (info p)) as [?a|] eqn:?;
  [destruct (String.eqb a "start") eqn:?;
   [|destruct (String.eqb a "add") eqn:?;
   [|destruct (String.eqb a "stop") eqn:?]]|].

Ltac case_agent p :=
  destruct (String.eqb (agent p) "code") eqn:?;
  [|destruct (String.eqb (agent p) "papers") eqn:?;
  [|destruct (String.eqb (agent p) "news") eqn:?;
  [|destruct (String.eqb (agent p) "translate") eqn:?;
  [|destruct (String.eqb (agent p) "notes_add") eqn:?;
  [|destruct (String.eqb (agent p) "notes_read") eqn:?;
  [|destruct (String.eqb (agent p) "notes_clear") eqn:?;
  [|destruct (String.eqb (agent p) "meeting") eqn:?;
  [case_action p|destruct (String.eqb (agent p) "unknown") eqn:?]]]]]]]].

(** Settle the remaining tests and collaborator outcomes of a branch. *)
Ltac settle :=
  repeat (try unfold setNotes, call_generateNews;
          cbn -[summarizeMeetingLog Meeting.started Meeting.adhoc
                Meeting.append_log Meeting.mute Meeting.reset
                toLowerCase or_else truthy trim add_note read_topic];
          match goal with
          | |- context [summarizeMeetingLog ?E ?t ?l ?w] =>
              use_summarizer; destruct (summarized E t l) eqn:?
          | |- context [match add_note ?k ?c ?n with _ => _ end] =>
              destruct (add_note k c n) eqn:?
          | |- context [match generateCode ?E ?a ?b with _ => _ end] =>
              destruct (generateCode E a b) eqn:?
          | |- context [match searchArxiv ?E ?a with _ => _ end] =>
              destruct (searchArxiv E a) eqn:?
          | |- context [match generateNews ?E ?a with _ => _ end] =>
              destruct (generateNews E a) eqn:?
          | |- context [match translateText ?E ?a ?b with _ => _ end] =>
              destruct (translateText E a b) eqn:?
          | |- context [if ?b then _ else _] => destruct b eqn:?
          end).

Ltac every_branch Hacc p :=
  enter_run Hacc;
  match goal with
  | |- context [planned ?E ?q] => destruct (planned E q) as [p|?e] eqn:?
  end;
  [enter_switch; case_agent p; unfold bind; settle
  |cbn].

Lemma handleRun_outcome E snap ov s s' :
  accepted snap ov = true ->
  fst (handleRun E snap ov s) = s' ->
  let query := or_else ov (input snap) in
  exists it,
    history s' = history s ++ [it] /\ userQuery it = query /\
    loading s' = false /\
    (status it = success \/
     status it = error /\ notes s' = notes s /\
     (meeting s' = meeting s \/
      exists p e,
        planned E query = Resolved p /\ agent p = "meeting" /\
        meetingAction (info p) = Some "stop" /\
        active (meeting snap) = true /\
        summarized E (mtopic (meeting snap)) (log (meeting snap)) = Thrown e /\
        meeting s' = Meeting.mute (meeting s))).
Proof.
  intros Hacc Hs' query. subst query. revert Hs'.
  every_branch Hacc p.
  all: intros <-; eexists; split; [reflexivity|]; split; [reflexivity|];
    split; [reflexivity|]; cbn.
  all: try (left; reflexivity).
  all: right; split; [reflexivity|]; split; [reflexivity|].
  all: try (left; reflexivity).
  all: right; exists p, message;
    apply String.eqb_eq in Heqb6, Heqb9; apply negb_false_iff in Heqb10;
    subst a; repeat split; assumption.
Qed.

(** C4. An accepted query makes [run] append exactly one item to the
    history, and the status of that item is [success] or [error], never
    [planning] or [executing]; the run ends with [loading] cleared.  (A
    collaborator is taken to settle, with a value or by throwing.) *)
Theorem run_appends_one_item E s q :
  accepted (with_input q s) None = true ->
  exists it,
    history (run E s q) = history s ++ [it] /\
    userQuery it = q /\
    (status it = success \/ status it = error) /\
    status it <> planning /\ status it <> executing /\
    loading (run E s q) = false.
Proof.
  intros Hacc.
  destruct (handleRun_outcome E (with_input q s) None (with_input q s) _
              Hacc eq_refl) as (it & Hh & Hq & Hl & Hst).
  exists it. fold (run E s q) in Hh, Hl. cbn in Hh, Hq.
  assert (Hs : status it = success \/ status it = error)
    by (destruct Hst as [H|[H _]]; auto).
  repeat split; try assumption.
  - destruct Hs as [H|H]; rewrite H; discriminate.
  - destruct Hs as [H|H]; rewrite H; discriminate.
Qed.

Lemma run_appends_one_item_witness :
  let E := Sample.env_with (Sample.plan_of "news" (Sample.info_topic "SpaceX"))
             (Resolved None) in
  let q := "Get me the latest news on SpaceX" in
  accepted (with_input q initial_state) None = true /\
  exists it,
    history (run E initial_state q) = history initial_state ++ [it] /\
    userQuery it = q /\
    (status it = success \/ status it = error) /\
    status it <> planning /\ status it <> executing /\
    loading (run E initial_state q) = false.
Proof.
  cbv zeta. split; [reflexivity|].
  exact (run_appends_one_item
           (Sample.env_with
              (Sample.plan_of "news" (Sample.info_topic "SpaceX"))
              (Resolved None))
           initial_state "Get me the latest news on SpaceX" eq_refl).
Defined.

(** C3 (amended). A run that ends with History status [error] leaves the
    NoteStore exactly as it was, and leaves the MeetingSession exactly as
    it was except in one case: a meeting [stop] on an active session whose
    summarizer throws has already set [listening] to false (active, topic
    and log are as before). *)
Theorem error_run_session E s q it :
  accepted (with_input q s) None = true ->
  last_item (run E s q) = Some it ->
  status it = error ->
  notes (run E s q) = notes s /\
  (meeting (run E s q) = meeting s \/
   exists p e,
     planned E q = Resolved p /\ agent p = "meeting" /\
     meetingAction (info p) = Some "stop" /\
     active (meeting s) = true /\
     summarized E (mtopic (meeting s)) (log (meeting s)) = Thrown e /\
     meeting (run E s q) = Meeting.mute (meeting s)).
Proof.
  intros Hacc Hlast Herr.
  destruct (handleRun_outcome E (with_input q s) None (with_input q s) _
              Hacc eq_refl) as (it' & Hh & _ & _ & Hst).
  fold (run E s q) in Hh, Hst. cbn in Hh, Hst.
  rewrite (last_item_snoc _ _ _ Hh) in Hlast. injection Hlast as <-.
  destruct Hst as [Hok|[_ Hsame]]; [congruence|exact Hsame].
Qed.

Lemma error_run_session_witness :
  let E := Sample.env_with (Sample.plan_of "notes_add" empty_info)
             (Resolved None) in
  let s := Sample.state_with Sample.two_topics Sample.live_meeting in
  let q := "add a note" in
  accepted (with_input q s) None = true /\
  map status (history (run E s q)) = [error] /\
  notes (run E s q) = notes s /\
  meeting (run E s q) = meeting s.
Proof.
  cbv zeta. split; [reflexivity|]. split; [reflexivity|].
  destruct (error_run_session
              (Sample.env_with (Sample.plan_of "notes_add" empty_info)
                 (Resolved None))
              (Sample.state_with Sample.two_topics Sample.live_meeting)
              "add a note"
              {| id := "1700000000000"; timestamp := 1700000000000;
                 userQuery := "add a note";
                 plannerOutput := Sample.plan_of "notes_add" empty_info;
                 result := RText "No content provided for the note.";
                 status := error; errorMessage := Some EmptyString |}
              eq_refl eq_refl eq_refl) as [Hnotes _].
  split; [exact Hnotes | reflexivity].
Defined.

(** C3 as stated fails: a meeting [stop] whose summarizer throws ends with
    status [error] and has changed the session (the listener is off). *)
Lemma error_run_mutates_counterexample :
  let E := Sample.env_with
             (Sample.plan_of "meeting" (Sample.info_meeting "stop" None None))
             (Thrown "network down") in
  let s := Sample.state_with Sample.two_topics Sample.live_meeting in
  let q := "end the meeting" in
  accepted (with_input q s) None = true /\
  map status (history (run E s q)) = [error] /\
  listening (meeting s) = true /\
  listening (meeting (run E s q)) = false /\
  meeting (run E s q) <> meeting s.
Proof.
  cbv zeta. repeat split; try reflexivity. vm_compute. discriminate.
Qed.

(* ================================================================== *)
(** ** The meeting invariant *)

Lemma meeting_step_invariant m m' :
  meeting_step m m' ->
  listening_implies_active m -> listening_implies_active m'.
Proof.
  unfold listening_implies_active.
  intros Hstep Hinv. inversion Hstep; subst; cbn; auto; discriminate.
Qed.

Lemma meeting_steps_invariant m m' :
  meeting_steps m m' ->
  listening_implies_active m -> listening_implies_active m'.
Proof.
  induction 1 as [m m' Hstep| |m1 m2 m3 _ IH12 _ IH23]; auto.
  now apply meeting_step_invariant.
Qed.

Ltac meeting_path :=
  first
    [ apply rt_refl
    | apply rt_step; constructor
    | eapply rt_trans; [apply rt_step; apply step_mute|];
      first [apply rt_refl | apply rt_step; constructor] ].

(** Whatever render [handleRun] was created in, its writes to the meeting
    session are [setMeeting] steps. *)
Lemma handleRun_meeting_steps E snap ov s s' :
  fst (handleRun E snap ov s) = s' ->
  meeting_steps (meeting s) (meeting s').
Proof.
  destruct (accepted snap ov) eqn:Hacc.
  - every_branch Hacc p.
    all: intros <-; cbn -[Meeting.started Meeting.adhoc Meeting.append_log
                          Meeting.mute Meeting.reset];
      unfold meeting_steps; meeting_path.
  - rewrite handleRun_rejected by assumption. intros <-. apply rt_refl.
Qed.

Lemma toggle_invariant m :
  listening_implies_active m ->
  (listening_implies_active (Meeting.toggle m) <-> active m = true).
Proof.
  unfold listening_implies_active. cbn.
  destruct (listening m), (active m); cbn; intuition congruence.
Qed.

Lemma screen_step_invariant c c' :
  screen_step timely_click c c' ->
  listening_implies_active (held c) -> listening_implies_active (held c').
Proof.
  intros Hstep Hinv. destruct Hstep as [c m' Hw|c _ Hclick|c]; cbn.
  - exact (meeting_step_invariant _ _ Hw Hinv).
  - apply toggle_invariant; assumption.
  - exact Hinv.
Qed.

(** Several [setMeeting] calls in a row, seen from the screen. *)
Lemma screen_writes click r m m' :
  meeting_steps m m' ->
  clos_refl_trans Screen (screen_step click)
    {| shown := r; held := m |} {| shown := r; held := m' |}.
Proof.
  induction 1 as [m m' Hstep|m|m1 m2 m3 _ IH12 _ IH23].
  - apply rt_step. exact (screen_write click {| shown := r; held := m |} m' Hstep).
  - apply rt_refl.
  - eapply rt_trans; eassumption.
Qed.

(** C5 (amended). "[listening] implies [active]" is preserved by every
    [setMeeting] call of [handleRun] and of the listener, hence by a whole
    [handleRun] from any render and by the listener callbacks.  The toggle
    preserves it exactly when the session it is applied to is active.  So
    no session reached from the initial one is listening while inactive,
    as long as the button is clicked only while the session held is still
    active. *)
Theorem listening_implies_active_invariant :
  (forall m m', meeting_step m m' ->
     listening_implies_active m -> listening_implies_active m') /\
  (forall E snap ov s,
     meeting_steps (meeting s) (meeting (fst (handleRun E snap ov s))) /\
     (listening_implies_active (meeting s) ->
      listening_implies_active (meeting (fst (handleRun E snap ov s))))) /\
  (forall transcript s,
     listening_implies_active (meeting s) ->
     listening_implies_active (meeting (onresult transcript s))) /\
  (forall err s,
     listening_implies_active (meeting s) ->
     listening_implies_active (meeting (onerror err s))) /\
  (forall s,
     listening_implies_active (meeting s) ->
     (listening_implies_active (meeting (toggleMeetingListener s))
      <-> active (meeting s) = true)) /\
  (forall c, reachable_screen timely_click c ->
     listening_implies_active (held c)).
Proof.
  split; [exact meeting_step_invariant|].
  split; [|split; [|split; [|split]]].
  - intros E snap ov s.
    pose proof (handleRun_meeting_steps E snap ov s _ eq_refl) as Hsteps.
    split; [exact Hsteps|]. now apply meeting_steps_invariant.
  - intros transcript s Hinv. unfold onresult.
    destruct (is_empty (trim transcript)); [exact Hinv|].
    exact (meeting_step_invariant _ _ (step_append_log _ _) Hinv).
  - intros err s Hinv. unfold onerror.
    repeat (match goal with
            | |- context [if ?b then _ else _] => destruct b
            end; try exact Hinv);
      exact (meeting_step_invariant _ _ (step_mute _) Hinv).
  - intros s Hinv. exact (toggle_invariant (meeting s) Hinv).
  - intros c Hreach.
    assert (H : forall a b, clos_refl_trans Screen (screen_step timely_click) a b ->
                listening_implies_active (held a) ->
                listening_implies_active (held b)).
    { induction 1 as [a b Hstep| |a b d _ IH1 _ IH2]; auto.
      now apply screen_step_invariant. }
    apply (H _ _ Hreach). unfold listening_implies_active. cbn. discriminate.
Qed.

Lemma listening_implies_active_invariant_witness :
  let E := Sample.env_with
             (Sample.plan_of "meeting"
                (Sample.info_meeting "start" (Some "Roadmap") None))
             (Resolved None) in
  let s := with_input "start a meeting" initial_state in
  let s' := fst (handleRun E s None s) in
  listening_implies_active (meeting s) /\
  meeting s' = {| active := true; mtopic := "Roadmap"; log := [];
                  listening := true |} /\
  listening_implies_active (meeting s') /\
  reachable_screen timely_click
    {| shown := meeting s'; held := Meeting.toggle (meeting s') |} /\
  listening_implies_active (Meeting.toggle (meeting s')).
Proof.
  cbv zeta.
  assert (H0 : listening_implies_active
                 (meeting (with_input "start a meeting" initial_state)))
    by (unfold listening_implies_active; cbn; discriminate).
  destruct listening_implies_active_invariant as [_ [Hrun [_ [_ [_ Hreach]]]]].
  destruct (Hrun
              (Sample.env_with
                 (Sample.plan_of "meeting"
                    (Sample.info_meeting "start" (Some "Roadmap") None))
                 (Resolved None))
              (with_input "start a meeting" initial_state) None
              (with_input "start a meeting" initial_state))
    as [Hsteps Hinv].
  split; [exact H0|]. split; [reflexivity|]. split; [exact (Hinv H0)|].
  match goal with
  | |- ?R /\ _ => assert (Hr : R)
  end.
  { eapply rt_trans; [exact (screen_writes timely_click _ _ _ Hsteps)|].
    eapply rt_trans; [apply rt_step; apply screen_render|].
    apply rt_step.
    match goal with
    | |- screen_step _ ?c _ =>
        exact (screen_toggle timely_click c eq_refl eq_refl)
    end. }
  split; [exact Hr | exact (Hreach _ Hr)].
Defined.

(** C5 as stated fails for the toggle.  A meeting is started and rendered:
    the button is on the screen.  A [stop] run resets the session; a click
    on the button still on the screen, processed before the next render,
    toggles the session just reset: it is listening and not active.  The
    same happens to the initial session itself. *)
Lemma stale_toggle_counterexample :
  let E1 := Sample.env_with
              (Sample.plan_of "meeting"
                 (Sample.info_meeting "start" (Some "Roadmap") None))
              (Resolved None) in
  let E2 := Sample.env_with
              (Sample.plan_of "meeting" (Sample.info_meeting "stop" None None))
              (Resolved (Some "Nothing was said.")) in
  let s1 := run E1 initial_state "start a meeting" in
  let s2 := run E2 s1 "stop the meeting" in
  let s3 := toggleMeetingListener s2 in
  active (meeting s1) = true /\
  meeting s2 = initial_meeting /\
  listening_implies_active (meeting s2) /\
  listening (meeting s3) = true /\ active (meeting s3) = false /\
  ~ listening_implies_active (meeting s3) /\
  ~ listening_implies_active (Meeting.toggle initial_meeting) /\
  reachable_screen any_click {| shown := meeting s1; held := meeting s3 |}.
Proof.
  cbv zeta.
  match goal with
  | |- active (meeting ?s1) = true /\ meeting ?s2 = _ /\ _ /\
       listening (meeting ?s3) = true /\ _ =>
      assert (H1 : meeting s1 = {| active := true; mtopic := "Roadmap";
                                   log := []; listening := true |})
        by (vm_compute; reflexivity);
      assert (H2 : meeting s2 = initial_meeting)
        by (vm_compute; reflexivity);
      assert (H3 : meeting s3 = Meeting.toggle initial_meeting)
        by (vm_compute; reflexivity)
  end.
  rewrite H3, H2, H1. clear H1 H2 H3.
  split; [reflexivity|]. split; [reflexivity|].
  split; [unfold listening_implies_active; cbn; discriminate|].
  split; [reflexivity|]. split; [reflexivity|].
  split; [intros H; specialize (H eq_refl); discriminate H|].
  split; [intros H; specialize (H eq_refl); discriminate H|].
  unfold reachable_screen.
  eapply rt_trans.
  { apply rt_step.
    exact (screen_write any_click initial_screen _
             (step_started "Roadmap" initial_meeting)). }
  eapply rt_trans; [apply rt_step; apply screen_render|].
  eapply rt_trans.
  { apply rt_step.
    match goal with
    | |- screen_step _ ?c _ =>
        exact (screen_write any_click c _ (step_reset (held c)))
    end. }
  apply rt_step.
  match goal with
  | |- screen_step _ ?c _ => exact (screen_toggle any_click c eq_refl I)
  end.
Qed.

(* ================================================================== *)
(** ** The avatar's mouth height *)

Module F64Facts.
Import F64.
Local Open Scope Q_scope.

Lemma round_half_even_cases q :
  round_half_even q = Qfloor q \/ round_half_even q = (Qfloor q + 1)%Z.
Proof.
  unfold round_half_even.
  destruct (Qcompare _ _); [destruct (Z.even _)| |]; auto.
Qed.

Lemma round_half_even_near q :
  inject_Z (round_half_even q) - (1 # 2) <= q /\
  q <= inject_Z (round_half_even q) + (1 # 2).
Proof.
  pose proof (Qfloor_le q) as Hlo. pose proof (Qlt_floor q) as Hhi.
  rewrite inject_Z_plus in Hhi. change (inject_Z 1) with 1 in Hhi.
  unfold round_half_even.
  destruct (Qcompare_spec (q - inject_Z (Qfloor q)) (1 # 2)) as [H|H|H];
    [destruct (Z.even _)| |]; rewrite ?inject_Z_plus;
    change (inject_Z 1) with 1; split; lra.
Qed.

Lemma round_half_even_Z n : round_half_even (inject_Z n) = n.
Proof.
  unfold round_half_even. rewrite Qfloor_Z.
  destruct (Qcompare_spec (inject_Z n - inject_Z n) (1 # 2)) as [H|H|H];
    [exfalso; lra|reflexivity|exfalso; lra].
Qed.

Lemma round_half_even_mono x y :
  x <= y -> (round_half_even x <= round_half_even y)%Z.
Proof.
  intros Hxy. pose proof (Qfloor_resp_le x y Hxy) as Hf.
  destruct (Z.eq_dec (Qfloor x) (Qfloor y)) as [He|Hne].
  - unfold round_half_even. rewrite <- He.
    destruct (Qcompare_spec (x - inject_Z (Qfloor x)) (1 # 2)) as [Hx|Hx|Hx];
      destruct (Qcompare_spec (y - inject_Z (Qfloor x)) (1 # 2)) as [Hy|Hy|Hy];
      try destruct (Z.even (Qfloor x)); try lia; exfalso; lra.
  - destruct (round_half_even_cases x) as [-> | ->];
      destruct (round_half_even_cases y) as [-> | ->]; lia.
Qed.

Lemma pow2_pos e : 0 < 2 ^ e.
Proof. apply Qpower_0_lt. reflexivity. Qed.

Lemma pow2_add a b : 2 ^ (a + b) == 2 ^ a * 2 ^ b.
Proof. apply Qpower_plus. discriminate. Qed.

Lemma pow2_succ a : 2 ^ (a + 1) == 2 * 2 ^ a.
Proof. rewrite pow2_add. change (2 ^ 1) with 2. ring. Qed.

Lemma pow2_le a b : (a <= b)%Z -> 2 ^ a <= 2 ^ b.
Proof. intros H. apply Qpower_le_compat_l; [exact H|discriminate]. Qed.

Lemma pow2_lt_inv a b : 2 ^ a < 2 ^ b -> (a < b)%Z.
Proof. intros H. apply (Qpower_lt_compat_l_inv 2); [exact H|reflexivity]. Qed.

Lemma pow2_Z n : (0 <= n)%Z -> inject_Z (2 ^ n) == 2 ^ n.
Proof. intros H. now rewrite Zpower_Qpower. Qed.

Lemma log2_bounds n :
  (0 < n)%Z ->
  2 ^ Z.log2 n <= inject_Z n /\ inject_Z n < 2 * 2 ^ Z.log2 n.
Proof.
  intros Hn. destruct (Z.log2_spec n Hn) as [Hlo Hhi].
  pose proof (Z.log2_nonneg n) as H0.
  rewrite <- pow2_succ, <- !pow2_Z by lia.
  rewrite <- Zle_Qle, <- Zlt_Qlt. replace (Z.log2 n + 1)%Z with (Z.succ (Z.log2 n)) by lia.
  split; assumption.
Qed.

Lemma ilog2_spec q :
  0 < q -> 2 ^ ilog2 q <= q /\ q < 2 ^ (ilog2 q + 1).
Proof.
  intros Hq. unfold ilog2.
  destruct q as [n d]. cbn [Qnum Qden].
  assert (Hn : (0 < n)%Z) by (unfold Qlt in Hq; cbn in Hq; lia).
  destruct (log2_bounds n Hn) as [Hn1 Hn2].
  destruct (log2_bounds (Zpos d) eq_refl) as [Hd1 Hd2].
  set (ln := Z.log2 n) in *. set (ld := Z.log2 (Z.pos d)) in *.
  assert (Hq' : n # d == inject_Z n / inject_Z (Zpos d)) by apply Qmake_Qdiv.
  assert (HD : 0 < inject_Z (Zpos d)) by reflexivity.
  assert (Hsplit : 2 ^ ln == 2 ^ (ln - ld) * 2 ^ ld)
    by (rewrite <- pow2_add; now replace (ln - ld + ld)%Z with ln by lia).
  pose proof (pow2_pos (ln - ld)) as HP. pose proof (pow2_pos ld) as HA.
  pose proof (pow2_pos (ln - ld - 1)) as HP'.
  assert (Hhalf : 2 ^ (ln - ld) == 2 * 2 ^ (ln - ld - 1))
    by (rewrite <- pow2_succ; now replace (ln - ld - 1 + 1)%Z with (ln - ld)%Z by lia).
  set (N := inject_Z n) in *. set (D := inject_Z (Zpos d)) in *.
  set (P := 2 ^ (ln - ld)) in *. set (A := 2 ^ ld) in *.
  set (P' := 2 ^ (ln - ld - 1)) in *.
  destruct (Qle_bool P (n # d)) eqn:Hb.
  - apply Qle_bool_iff in Hb. split; [exact Hb|].
    rewrite pow2_succ. fold P. rewrite Hq'.
    apply Qlt_shift_div_r; [exact HD|]. nra.
  - assert (Hlt : n # d < P).
    { apply Qnot_le_lt. intros H. apply Qle_bool_iff in H. congruence. }
    replace (ln - ld - 1 + 1)%Z with (ln - ld)%Z by lia. fold P.
    split; [|exact Hlt]. fold P'. rewrite Hq'.
    apply Qle_shift_div_l; [exact HD|]. nra.
Qed.

Lemma ilog2_mono x y : 0 < x -> x <= y -> (ilog2 x <= ilog2 y)%Z.
Proof.
  intros Hx Hxy.
  destruct (ilog2_spec x Hx) as [Hlo _].
  destruct (ilog2_spec y) as [_ Hhi]; [lra|].
  assert (H : 2 ^ ilog2 x < 2 ^ (ilog2 y + 1)) by lra.
  apply pow2_lt_inv in H. lia.
Qed.

Lemma Qabs_pos_eq q : 0 < q -> Qabs q = q.
Proof.
  destruct q as [n d]. unfold Qlt. cbn. intros H.
  rewrite Z.abs_eq by lia. reflexivity.
Qed.

Lemma round_pos q :
  0 < q ->
  round q = inject_Z (round_half_even (q / 2 ^ exponent q)) * 2 ^ exponent q /\
  exponent q = Z.max (ilog2 q - 52) emin.
Proof.
  intros Hq. unfold round, exponent. rewrite (Qabs_pos_eq q Hq).
  destruct (Qeq_bool q 0) eqn:Hb; [|auto].
  apply Qeq_bool_iff in Hb. lra.
Qed.

Lemma round_zero q : q == 0 -> round q = 0.
Proof.
  intros H. unfold round. apply Qeq_bool_iff in H. now rewrite H.
Qed.

Lemma round_nonneg q : 0 <= q -> 0 <= round q.
Proof.
  intros Hq. destruct (Qlt_le_dec 0 q) as [Hpos|Hle].
  - destruct (round_pos q Hpos) as [-> _].
    pose proof (pow2_pos (exponent q)) as He.
    assert (H0 : 0 <= q / 2 ^ exponent q).
    { apply Qle_shift_div_l; [exact He|]. lra. }
    apply (round_half_even_mono (inject_Z 0)) in H0.
    rewrite (round_half_even_Z 0) in H0.
    rewrite Zle_Qle in H0. change (inject_Z 0) with 0 in H0. nra.
  - rewrite round_zero by lra. lra.
Qed.

Lemma round_mono x y : 0 <= x -> x <= y -> round x <= round y.
Proof.
  intros Hx Hxy. destruct (Qlt_le_dec 0 x) as [Hpos|Hle].
  2:{ rewrite (round_zero x) by lra. apply round_nonneg. lra. }
  assert (Hy : 0 < y) by lra.
  destruct (round_pos x Hpos) as [-> Hex].
  destruct (round_pos y Hy) as [-> Hey].
  pose proof (ilog2_mono x y Hpos Hxy) as Hlog.
  set (ex := exponent x) in *. set (ey := exponent y) in *.
  pose proof (pow2_pos ex) as Hpx. pose proof (pow2_pos ey) as Hpy.
  destruct (Z.eq_dec ex ey) as [He|Hne].
  - rewrite <- He.
    assert (H : x / 2 ^ ex <= y / 2 ^ ex).
    { apply Qle_shift_div_l; [exact Hpx|].
      unfold Qdiv. rewrite <- Qmult_assoc, (Qmult_comm (/ _)).
      rewrite Qmult_inv_r by lra. lra. }
    apply round_half_even_mono in H. rewrite Zle_Qle in H. nra.
  - assert (Hlt : (ex + 1 <= ey)%Z) by lia.
    assert (Hey' : ey = (ilog2 y - 52)%Z) by (unfold emin in *; lia).
    destruct (ilog2_spec x Hpos) as [_ Hxhi].
    destruct (ilog2_spec y Hy) as [Hylo _].
    (* the mantissa of y is at least 2^52 *)
    assert (Hmy : inject_Z (2 ^ 52) <= y / 2 ^ ey).
    { apply Qle_shift_div_l; [exact Hpy|].
      rewrite pow2_Z by lia. rewrite <- pow2_add.
      replace (52 + ey)%Z with (ilog2 y) by lia. exact Hylo. }
    apply round_half_even_mono in Hmy. rewrite round_half_even_Z in Hmy.
    rewrite Zle_Qle, pow2_Z in Hmy by lia.
    (* the mantissa of x is below 2^53 *)
    assert (Hmx : x / 2 ^ ex <= inject_Z (2 ^ 53)).
    { apply Qle_shift_div_r; [exact Hpx|].
      rewrite pow2_Z by lia. rewrite <- pow2_add.
      apply Qlt_le_weak. eapply Qlt_le_trans; [exact Hxhi|].
      apply pow2_le. unfold emin in *. lia. }
    apply round_half_even_mono in Hmx. rewrite round_half_even_Z in Hmx.
    rewrite Zle_Qle, pow2_Z in Hmx by lia.
    assert (Hstep : 2 ^ 53 * 2 ^ ex <= 2 ^ 52 * 2 ^ ey).
    { rewrite <- !pow2_add. apply pow2_le. lia. }
    set (mx := inject_Z (round_half_even (x / 2 ^ ex))) in *.
    set (my := inject_Z (round_half_even (y / 2 ^ ey))) in *.
    apply Qle_trans with (2 ^ 53 * 2 ^ ex); [|apply Qle_trans with (2 ^ 52 * 2 ^ ey)];
      [|exact Hstep|].
    + apply Qmult_le_compat_r; [exact Hmx|lra].
    + apply Qmult_le_compat_r; [exact Hmy|lra].
Qed.

Lemma round_error x :
  2 ^ (-1022) <= x ->
  x * (1 - u53) <= round x /\ round x <= x * (1 + u53).
Proof.
  intros Hx. pose proof (pow2_pos (-1022)) as Hmin.
  assert (Hpos : 0 < x) by lra.
  destruct (round_pos x Hpos) as [-> He].
  destruct (ilog2_spec x Hpos) as [Hlo Hhi].
  assert (Hlog : (-1022 <= ilog2 x)%Z).
  { assert (H : 2 ^ (-1022) < 2 ^ (ilog2 x + 1)) by lra.
    apply pow2_lt_inv in H. lia. }
  assert (He' : exponent x = (ilog2 x - 52)%Z) by (unfold emin in He; lia).
  rewrite He'. set (e := (ilog2 x - 52)%Z) in *.
  pose proof (pow2_pos e) as HP.
  assert (Hx52 : 4503599627370496 * 2 ^ e <= x).
  { change 4503599627370496 with (2 ^ 52). rewrite <- pow2_add.
    now replace (52 + e)%Z with (ilog2 x) by lia. }
  destruct (round_half_even_near (x / 2 ^ e)) as [Hn1 Hn2].
  set (R := inject_Z (round_half_even (x / 2 ^ e))) in *.
  assert (Hm : x == (x / 2 ^ e) * 2 ^ e) by (field; lra).
  set (m := x / 2 ^ e) in *. set (P := 2 ^ e) in *.
  assert (H1 : (R - (1 # 2)) * P <= m * P)
    by (apply Qmult_le_compat_r; lra).
  assert (H2 : m * P <= (R + (1 # 2)) * P)
    by (apply Qmult_le_compat_r; lra).
  unfold u53. split; lra.
Qed.

Lemma round_eq x y : 0 <= x -> x == y -> round x == round y.
Proof.
  intros Hx Hxy. apply Qle_antisym; apply round_mono; lra.
Qed.

(** One more rounded multiplication by a positive constant. *)
Lemma mul_error lo hi v c :
  0 < c -> 0 <= lo -> lo <= v -> v <= hi -> 2 ^ (-1022) <= v * c ->
  lo * c * (1 - u53) <= round (v * c) /\ round (v * c) <= hi * c * (1 + u53).
Proof.
  intros Hc Hlo Hv1 Hv2 Hmin.
  destruct (round_error (v * c) Hmin) as [H1 H2].
  assert (Ha : lo * c <= v * c) by (apply Qmult_le_compat_r; lra).
  assert (Hb : v * c <= hi * c) by (apply Qmult_le_compat_r; lra).
  assert (Hu1 : 0 <= 1 - u53) by (unfold u53; lra).
  assert (Hu2 : 0 <= 1 + u53) by (unfold u53; lra).
  split.
  - apply Qle_trans with (v * c * (1 - u53)); [|exact H1].
    apply Qmult_le_compat_r; assumption.
  - apply Qle_trans with (v * c * (1 + u53)); [exact H2|].
    apply Qmult_le_compat_r; assumption.
Qed.

End F64Facts.

Module BotAvatarFacts.
Import F64 F64Facts BotAvatar.
Local Open Scope Q_scope.

(** The computation in double precision, at some averages. *)
Example scaled_values :
  scaled false 30 == 5563270127928259 # 562949953421312 /\
  scaled true 30 == 6490481815916303 # 1125899906842624 /\
  scaled false 10 == 3708846751952173 # 1125899906842624 /\
  scaled false 73 == 1692161330578179 # 70368744177664 /\
  scaled true 72 == 1947144544774891 # 140737488355328 /\
  scaled true 1 == 865397575455507 # 4503599627370496.
Proof. repeat split; vm_compute; reflexivity. Qed.

Lemma maxHeight_bounds small : 14 <= maxHeight small <= 24.
Proof. destruct small; cbn; split; lra. Qed.

Lemma div_nonneg a b : 0 <= a -> 0 < b -> 0 <= a / b.
Proof. intros Ha Hb. apply Qle_shift_div_l; lra. Qed.

Lemma scaled_nonneg small a : 0 <= a -> 0 <= scaled small a.
Proof.
  intros Ha. unfold scaled, mul, div. apply round_nonneg.
  pose proof (maxHeight_bounds small) as HM.
  assert (H1 : 0 <= round (a / 255))
    by (apply round_nonneg, div_nonneg; [exact Ha|reflexivity]).
  assert (H2 : 0 <= round (round (a / 255) * maxHeight small)).
  { apply round_nonneg. apply Qmult_le_0_compat; lra. }
  apply Qmult_le_0_compat; [exact H2|discriminate].
Qed.

Lemma scaled_mono small a b :
  0 <= a -> a <= b -> scaled small a <= scaled small b.
Proof.
  intros Ha Hab. unfold scaled, mul, div.
  pose proof (maxHeight_bounds small) as HM.
  assert (H0 : 0 <= a / 255) by (apply div_nonneg; [exact Ha|reflexivity]).
  assert (H1 : round (a / 255) <= round (b / 255)).
  { apply round_mono; [exact H0|].
    unfold Qdiv. apply Qmult_le_compat_r; [exact Hab|discriminate]. }
  pose proof (round_nonneg _ H0) as Hd.
  assert (H2 : round (round (a / 255) * maxHeight small)
               <= round (round (b / 255) * maxHeight small)).
  { apply round_mono; [apply Qmult_le_0_compat; lra|].
    apply Qmult_le_compat_r; lra. }
  apply round_mono.
  - apply Qmult_le_0_compat; [|discriminate].
    apply round_nonneg, Qmult_le_0_compat; lra.
  - apply Qmult_le_compat_r; [exact H2|discriminate].
Qed.

Lemma mouth_height_cases small a :
  (scaled small a <= 2 /\ mouth_height small a == 2) \/
  (2 <= scaled small a <= maxHeight small /\
   mouth_height small a == scaled small a) \/
  (maxHeight small <= scaled small a /\
   mouth_height small a == maxHeight small).
Proof.
  unfold mouth_height.
  pose proof (maxHeight_bounds small) as HM.
  destruct (Q.min_spec (maxHeight small) (scaled small a)) as [[Hlt Hmin]|[Hle Hmin]];
    destruct (Q.max_spec 2 (Qmin (maxHeight small) (scaled small a)))
      as [[Hlt' Hm]|[Hle' Hm]];
    rewrite Hm; rewrite Hmin in *.
  - right; right. split; [lra|reflexivity].
  - right; right. split; [lra|lra].
  - right; left. split; [lra|reflexivity].
  - left. split; [lra|reflexivity].
Qed.

Lemma mouth_height_mono small a b :
  0 <= a -> a <= b -> mouth_height small a <= mouth_height small b.
Proof.
  intros Ha Hab. pose proof (scaled_mono small a b Ha Hab) as Hs.
  pose proof (maxHeight_bounds small) as HM.
  destruct (mouth_height_cases small a) as [[A1 A2]|[[A1 A2]|[A1 A2]]];
    destruct (mouth_height_cases small b) as [[B1 B2]|[[B1 B2]|[B1 B2]]];
    lra.
Qed.

Lemma tiny : 2 ^ (-1022) <= 1 # 1024.
Proof. vm_compute. discriminate. Qed.

Lemma scaled_error small a :
  1 <= a -> a <= 255 ->
  gain small * a * (1 - u51) <= scaled small a /\
  scaled small a <= gain small * a * (1 + u51).
Proof.
  intros Ha1 Ha2. pose proof tiny as Ht. set (t := 2 ^ (-1022)) in *.
  unfold scaled, mul, div, gain, Qdiv. change (/ 255) with (1 # 255).
  destruct (mul_error a a a (1 # 255)) as [D1 D2];
    [reflexivity|lra|lra|lra|fold t; lra|].
  set (d := round (a * (1 # 255))) in *.
  assert (HM : maxHeight small = 14 \/ maxHeight small = 24)
    by (destruct small; auto).
  assert (Hc : 0 < maxHeight small) by (destruct HM as [-> | ->]; reflexivity).
  destruct (mul_error (a * (1 # 255) * (1 - u53)) (a * (1 # 255) * (1 + u53))
              d (maxHeight small)) as [Y1 Y2];
    [exact Hc|unfold u53; lra|exact D1|exact D2| |].
  { fold t. unfold u53 in *. destruct HM as [HM|HM]; rewrite HM in *; lra. }
  set (y := round (d * maxHeight small)) in *.
  destruct (mul_error
              (a * (1 # 255) * (1 - u53) * maxHeight small * (1 - u53))
              (a * (1 # 255) * (1 + u53) * maxHeight small * (1 + u53)) y 3.5)
    as [Z1 Z2]; [reflexivity| |exact Y1|exact Y2| |].
  { unfold u53 in *. destruct HM as [HM|HM]; rewrite HM in *; lra. }
  { fold t. unfold u53 in *. destruct HM as [HM|HM]; rewrite HM in *; lra. }
  unfold u51, u53 in *.
  destruct HM as [HM|HM]; rewrite HM in *; split; lra.
Qed.

Lemma scaled_one small : scaled small 1 < 2.
Proof. destruct small; vm_compute; reflexivity. Qed.

Lemma fold_add_between (lo hi : N) (l : list N) (acc : N) :
  Forall (fun x => (lo <= x <= hi)%N) l ->
  (acc + lo * N.of_nat (length l) <= fold_left N.add l acc
   <= acc + hi * N.of_nat (length l))%N.
Proof.
  revert acc. induction l as [|x r IH]; intros acc Hall; simpl.
  - lia.
  - inversion Hall as [|? ? Hx Hr]; subst.
    specialize (IH (acc + x)%N Hr). lia.
Qed.

(** The average of a non-empty frame lies between the bounds of its
    bytes. *)
Lemma frame_average_between (lo hi : N) (dataArray : list N) :
  dataArray <> [] ->
  Forall (fun x => (lo <= x <= hi)%N) dataArray ->
  round (inject_Z (Z.of_N lo)) <= frame_average dataArray /\
  frame_average dataArray <= round (inject_Z (Z.of_N hi)).
Proof.
  intros Hne Hall. unfold frame_average, div.
  pose proof (fold_add_between lo hi dataArray 0%N Hall) as Hsum.
  set (sum := fold_left N.add dataArray 0%N) in *.
  assert (Hlen : (0 < Z.of_nat (length dataArray))%Z)
    by (destruct dataArray; [congruence|simpl length; lia]).
  assert (Hq : 0 < inject_Z (Z.of_nat (length dataArray)))
    by (unfold Qlt; simpl; lia).
  assert (H0 : 0 <= inject_Z (Z.of_N lo)) by (unfold Qle; simpl; lia).
  assert (H1 : inject_Z (Z.of_N lo)
               <= inject_Z (Z.of_N sum) / inject_Z (Z.of_nat (length dataArray))).
  { apply Qle_shift_div_l; [exact Hq|].
    rewrite <- inject_Z_mult, <- Zle_Qle. lia. }
  assert (H2 : inject_Z (Z.of_N sum) / inject_Z (Z.of_nat (length dataArray))
               <= inject_Z (Z.of_N hi)).
  { apply Qle_shift_div_r; [exact Hq|].
    rewrite <- inject_Z_mult, <- Zle_Qle. lia. }
  split; apply round_mono; lra.
Qed.

(** The average of a non-empty frame of bytes lies in [0, 255]. *)
Lemma frame_average_range (dataArray : list N) :
  dataArray <> [] ->
  Forall (fun x => (x <= 255)%N) dataArray ->
  0 <= frame_average dataArray <= 255.
Proof.
  intros Hne Hall.
  assert (Hb : Forall (fun x => (0 <= x <= 255)%N) dataArray)
    by (revert Hall; apply Forall_impl; intros; lia).
  destruct (frame_average_between 0 255 dataArray Hne Hb) as [Hlo Hhi].
  assert (H0 : round (inject_Z (Z.of_N 0)) == 0) by reflexivity.
  assert (H255 : round (inject_Z (Z.of_N 255)) == 255)
    by (vm_compute; reflexivity).
  lra.
Qed.

(** C9 (amended). The mouth height is a monotone clamp of the average
    amplitude: for averages in [0, 255] it lies between the floor 2 and
    the ceiling (24, or 14 in small mode) and it is nondecreasing in the
    average.  Strictly between the bounds it is the value of
    [(average / 255) * maxHeight * 3.5] in double precision, within a
    relative 2^-51 of the linear map of gain [3.5 * maxHeight / 255]; it
    is the floor, resp. the ceiling, where the linear map is below, resp.
    above, the bound by that margin. *)
Theorem mouth_height_clamp small a b :
  0 <= a <= 255 -> 0 <= b <= 255 ->
  (2 <= mouth_height small a <= maxHeight small) /\
  (maxHeight small == if small then 14 else 24) /\
  (2 < mouth_height small a < maxHeight small ->
     mouth_height small a == scaled small a /\
     gain small * a * (1 - u51) <= mouth_height small a /\
     mouth_height small a <= gain small * a * (1 + u51)) /\
  (gain small * a * (1 + u51) <= 2 -> mouth_height small a == 2) /\
  (maxHeight small <= gain small * a * (1 - u51) ->
     mouth_height small a == maxHeight small) /\
  (a <= b -> mouth_height small a <= mouth_height small b).
Proof.
  intros [Ha0 Ha255] [Hb0 Hb255].
  pose proof (maxHeight_bounds small) as HM.
  pose proof (scaled_one small) as H1.
  assert (Hsmall : a < 1 -> scaled small a < 2).
  { intros Hlt. apply Qle_lt_trans with (scaled small 1); [|exact H1].
    apply scaled_mono; lra. }
  assert (Hgain : gain small == maxHeight small * (7 # 510))
    by (unfold gain; destruct small; reflexivity).
  split; [|split; [|split; [|split; [|split]]]].
  - destruct (mouth_height_cases small a) as [[A1 A2]|[[A1 A2]|[A1 A2]]]; lra.
  - destruct small; reflexivity.
  - intros [Hlo Hhi].
    destruct (mouth_height_cases small a) as [[A1 A2]|[[A1 A2]|[A1 A2]]];
      [lra| |lra].
    split; [exact A2|].
    destruct (Qlt_le_dec a 1) as [Hlt|Hge]; [specialize (Hsmall Hlt); lra|].
    destruct (scaled_error small a Hge Ha255) as [E1 E2]. lra.
  - intros Hg.
    destruct (mouth_height_cases small a) as [[A1 A2]|[[A1 A2]|[A1 A2]]];
      [exact A2| |].
    + destruct (Qlt_le_dec a 1) as [Hlt|Hge]; [specialize (Hsmall Hlt); lra|].
      destruct (scaled_error small a Hge Ha255) as [E1 E2]. lra.
    + destruct (Qlt_le_dec a 1) as [Hlt|Hge]; [specialize (Hsmall Hlt); lra|].
      destruct (scaled_error small a Hge Ha255) as [E1 E2]. lra.
  - intros Hg.
    assert (Hge : 1 <= a).
    { destruct (Qlt_le_dec a 1) as [Hlt|Hge]; [|exact Hge]. exfalso.
      rewrite Hgain in Hg. unfold u51 in Hg.
      destruct small; cbn [maxHeight] in *; lra. }
    destruct (scaled_error small a Hge Ha255) as [E1 E2].
    destruct (mouth_height_cases small a) as [[A1 A2]|[[A1 A2]|[A1 A2]]];
      lra.
  - intros Hab. now apply mouth_height_mono.
Qed.

Lemma mouth_height_clamp_witness :
  0 <= 30 <= 255 /\ 0 <= 200 <= 255 /\
  2 <= mouth_height false 30 <= 24 /\
  mouth_height false 30 == 5563270127928259 # 562949953421312 /\
  gain false * 30 * (1 - u51) <= mouth_height false 30 /\
  mouth_height false 30 <= gain false * 30 * (1 + u51) /\
  mouth_height false 30 <= mouth_height false 200.
Proof.
  assert (H30 : 0 <= 30 <= 255) by (split; discriminate).
  assert (H200 : 0 <= 200 <= 255) by (split; discriminate).
  destruct (mouth_height_clamp false 30 200 H30 H200)
    as [Hbounds [_ [Hlin [_ [_ Hmono]]]]].
  assert (Hv : mouth_height false 30 == 5563270127928259 # 562949953421312)
    by (vm_compute; reflexivity).
  assert (Hstrict : 2 < mouth_height false 30 < maxHeight false)
    by (rewrite Hv; split; reflexivity).
  destruct (Hlin Hstrict) as [_ [Hlo Hhi]].
  split; [exact H30|]. split; [exact H200|]. split; [exact Hbounds|].
  split; [exact Hv|]. split; [exact Hlo|]. split; [exact Hhi|].
  apply Hmono. discriminate.
Defined.

(** C9 as stated fails: between the bounds the height is not a linear
    function of the average.  At the average 30 the exact product with the
    gain is 168/17, which is not a double; and no gain at all fits the
    heights at the averages 10 and 30. *)
Lemma mouth_height_not_linear_counterexample :
  2 <= gain false * 30 <= maxHeight false /\
  gain false * 30 == 168 # 17 /\
  mouth_height false 30 == 5563270127928259 # 562949953421312 /\
  ~ mouth_height false 30 == gain false * 30 /\
  2 < mouth_height false 10 < maxHeight false /\
  2 < mouth_height false 30 < maxHeight false /\
  ~ (exists g, mouth_height false 10 == g * 10 /\
               mouth_height false 30 == g * 30).
Proof.
  assert (H30 : mouth_height false 30 == 5563270127928259 # 562949953421312)
    by (vm_compute; reflexivity).
  assert (H10 : mouth_height false 10 == 3708846751952173 # 1125899906842624)
    by (vm_compute; reflexivity).
  assert (Hg : gain false * 30 == 168 # 17) by reflexivity.
  split; [rewrite Hg; split; discriminate|].
  split; [exact Hg|]. split; [exact H30|].
  split; [rewrite H30, Hg; discriminate|].
  split; [rewrite H10; split; reflexivity|].
  split; [rewrite H30; split; reflexivity|].
  intros [g [G10 G30]]. rewrite H10 in G10. rewrite H30 in G30. lra.
Qed.

End BotAvatarFacts.

(* ================================================================== *)
(** * Further properties of the dispatch engine *)

(** ** Ignored submissions *)

Lemma trim_start_blank s :
  Forall (fun c => is_space c = true) (list_ascii_of_string s) ->
  trim_start s = EmptyString.
Proof.
  induction s as [|c r IH]; simpl; intros H; [reflexivity|].
  inversion H as [|? ? Hc Hr]; subst. rewrite Hc. now apply IH.
Qed.

Lemma trim_blank_string s :
  Forall (fun c => is_space c = true) (list_ascii_of_string s) ->
  trim s = EmptyString.
Proof. intros H. unfold trim. now rewrite (trim_start_blank s H). Qed.

(** X1. A submission whose query consists of white space only (the empty
    query included), or that arrives while a run is in flight, is ignored:
    the component state is untouched and no collaborator is called. *)
Theorem blank_or_busy_submission_ignored E snap ov s :
  Forall (fun c => is_space c = true)
         (list_ascii_of_string (or_else ov (input snap)))
  \/ loading snap = true ->
  handleRun E snap ov s = (s, []).
Proof.
  intros H. apply handleRun_rejected. unfold accepted.
  apply negb_false_iff. destruct H as [H|H].
  - now rewrite (trim_blank_string _ H).
  - rewrite H. apply orb_true_r.
Qed.

Lemma blank_or_busy_submission_ignored_witness :
  let E := Sample.env_with (Sample.plan_of "code" empty_info) (Resolved None) in
  let snap := with_input ("  " ++ nl ++ " ") initial_state in
  Forall (fun c => is_space c = true)
         (list_ascii_of_string (or_else None (input snap))) /\
  handleRun E snap None snap = (snap, []).
Proof.
  cbv zeta.
  assert (H : Forall (fun c => is_space c = true)
                (list_ascii_of_string
                   (or_else None
                      (input (with_input ("  " ++ nl ++ " ") initial_state)))))
    by (repeat constructor).
  split; [exact H|].
  exact (blank_or_busy_submission_ignored
           (Sample.env_with (Sample.plan_of "code" empty_info) (Resolved None))
           (with_input ("  " ++ nl ++ " ") initial_state) None
           (with_input ("  " ++ nl ++ " ") initial_state) (or_introl H)).
Defined.

(** ** The planner client *)

(** X2. [planRequest] throws exactly when the API key is missing.  With a
    key it always yields a plan: the parsed response when the backend
    answered a non-empty text that parses, and otherwise (failed request,
    empty text, parse error) the fallback plan with agent ['unknown']. *)
Theorem planRequest_outcomes E q :
  (truthy (API_KEY E) = false ->
     planned E q = Thrown "API Key not found in environment") /\
  (truthy (API_KEY E) = true ->
     exists p, planned E q = Resolved p /\
       ((exists t, generateContent E (planner_request q) = Resolved (Some t) /\
                   t <> EmptyString /\ JSON_parse E t = Resolved p)
        \/ (p = planner_fallback /\
            (generateContent E (planner_request q) = Resolved None \/
             generateContent E (planner_request q) = Resolved (Some EmptyString) \/
             (exists e, generateContent E (planner_request q) = Thrown e) \/
             (exists t e, generateContent E (planner_request q) = Resolved (Some t)
                          /\ JSON_parse E t = Thrown e))))).
Proof.
  unfold planned, planRequest, getAiClient, models_generateContent, try_catch,
    bind, emit, await, ret, throw, planner_request.
  split; intros Hkey; rewrite Hkey; cbn; [reflexivity|].
  destruct (generateContent E _) as [[t|]|e] eqn:Hgen; cbn.
  - destruct t as [|c r]; cbn.
    + eexists; split; [reflexivity|]. right. split; [reflexivity|]. auto.
    + destruct (JSON_parse E (String c r)) as [p|e] eqn:Hparse; cbn.
      * exists p. split; [reflexivity|]. left. exists (String c r).
        repeat split; [discriminate|assumption].
      * eexists; split; [reflexivity|]. right. split; [reflexivity|].
        right; right; right. exists (String c r), e. auto.
  - eexists; split; [reflexivity|]. right. split; [reflexivity|]. auto.
  - eexists; split; [reflexivity|]. right. split; [reflexivity|].
    right; right; left. now exists e.
Qed.

Lemma planRequest_outcomes_witness :
  let E := Sample.env_with (Sample.plan_of "papers" (Sample.info_topic "LLM"))
             (Resolved None) in
  let q := "find papers on LLM" in
  truthy (API_KEY E) = true /\
  exists p, planned E q = Resolved p /\
    ((exists t, generateContent E (planner_request q) = Resolved (Some t) /\
                t <> EmptyString /\ JSON_parse E t = Resolved p)
     \/ (p = planner_fallback /\
         (generateContent E (planner_request q) = Resolved None \/
          generateContent E (planner_request q) = Resolved (Some EmptyString) \/
          (exists e, generateContent E (planner_request q) = Thrown e) \/
          (exists t e, generateContent E (planner_request q) = Resolved (Some t)
                       /\ JSON_parse E t = Thrown e)))).
Proof.
  cbv zeta. split; [reflexivity|].
  exact (proj2 (planRequest_outcomes
                  (Sample.env_with
                     (Sample.plan_of "papers" (Sample.info_topic "LLM"))
                     (Resolved None)) "find papers on LLM") eq_refl).
Defined.

(** X3. Without an API key the planner throws and the outer [catch] takes
    over: the run appends the placeholder item (agent ['unknown'], no
    result) with status [error] and the message "Planning failed
    unexpectedly.", leaves notes and meeting alone, requests no speech and
    ends idle with [loading] cleared. *)
Theorem run_without_api_key E s q :
  accepted (with_input q s) None = true ->
  truthy (API_KEY E) = false ->
  run E s q =
    {| input := EmptyString;
       history := history s ++
         [ {| id := N_toString (clock_id E); timestamp := clock_timestamp E;
              userQuery := q;
              plannerOutput := {| agent := "unknown"; info := empty_info;
                                  reasoning := None |};
              result := RNull; status := error;
              errorMessage := Some "Planning failed unexpectedly." |} ];
       notes := notes s; meeting := meeting s; loading := false;
       loadingPhase := idle; currentPlannerData := None |}
  /\ run_calls E s q = [CallPlanRequest q].
Proof.
  intros Hacc Hkey.
  unfold run, run_calls, handleRun, handleRun_body.
  pose proof Hacc as H'. unfold accepted in H'. apply negb_true_iff in H'.
  cbn [or_else input with_input] in H'. cbn [or_else input with_input].
  rewrite H'. clear H'.
  unfold plan_and_execute, planRequest, getAiClient, try_finally, try_catch,
    bind. rewrite Hkey. cbn. split; reflexivity.
Qed.

Lemma run_without_api_key_witness :
  let E := {| API_KEY := None;
              generateContent := fun _ => Resolved None;
              JSON_parse := fun _ => Thrown "unexpected token";
              generateCode := fun _ _ => Thrown "no client";
              searchArxiv := fun _ => Resolved [];
              generateNews := fun _ => Thrown "no client";
              translateText := fun _ _ => Thrown "no client";
              clock_id := 7%N; clock_timestamp := 7%N |} in
  accepted (with_input "hello" initial_state) None = true /\
  truthy (API_KEY E) = false /\
  map status (history (run E initial_state "hello")) = [error] /\
  run_calls E initial_state "hello" = [CallPlanRequest "hello"].
Proof.
  cbv zeta. split; [reflexivity|]. split; [reflexivity|].
  destruct (run_without_api_key
              {| API_KEY := None;
                 generateContent := fun _ => Resolved None;
                 JSON_parse := fun _ => Thrown "unexpected token";
                 generateCode := fun _ _ => Thrown "no client";
                 searchArxiv := fun _ => Resolved [];
                 generateNews := fun _ => Thrown "no client";
                 translateText := fun _ _ => Thrown "no client";
                 clock_id := 7%N; clock_timestamp := 7%N |}
              initial_state "hello" eq_refl eq_refl) as [Hrun Hcalls].
  split; [rewrite Hrun; reflexivity | exact Hcalls].
Defined.

(** X4. When a collaborator of the code, papers, news or translate handler
    throws, the item keeps the initial result "Done.", has status [error]
    and carries the thrown message ("Execution failed" when the message is
    empty); the generic apology is sent to speech synthesis and notes and
    meeting are unchanged. *)
Theorem collaborator_throw_run E s q p message :
  accepted (with_input q s) None = true ->
  planned E q = Resolved p ->
  (agent p = "code" /\
   generateCode E (or_else (topic (info p)) q) (content (info p))
     = Thrown message)
  \/ (agent p = "papers" /\
      searchArxiv E (or_else (topic (info p)) "General AI") = Thrown message)
  \/ (agent p = "news" /\
      generateNews E (or_else (topic (info p)) "Latest Tech") = Thrown message)
  \/ (agent p = "translate" /\
      translateText E (or_else (content (info p)) q)
        (or_else (language (info p)) "English") = Thrown message) ->
  let s' := run E s q in
  notes s' = notes s /\ meeting s' = meeting s /\
  speech_calls (run_calls E s q) = ["Something went wrong during execution."] /\
  exists it,
    history s' = history s ++ [it] /\ plannerOutput it = p /\
    result it = RText "Done." /\ status it = error /\
    errorMessage it
      = Some (if is_empty message then "Execution failed" else message).
Proof.
  intros Hacc Hplan Hthrow s'. subst s'.
  assert (Hstate : forall st, run E s q = st ->
            notes st = notes s /\ meeting st = meeting s /\
            exists it,
              history st = history s ++ [it] /\ plannerOutput it = p /\
              result it = RText "Done." /\ status it = error /\
              errorMessage it
                = Some (if is_empty message then "Execution failed"
                        else message)).
  { intros st. enter_run Hacc. rewrite Hplan. enter_switch.
    destruct Hthrow as [[Ha Ht]|[[Ha Ht]|[[Ha Ht]|[Ha Ht]]]];
      rewrite Ha; cbn; rewrite Ht; cbn; intros <-; cbn;
      (repeat split; try reflexivity); eexists; repeat split. }
  assert (Hcalls : speech_calls (run_calls E s q)
                   = ["Something went wrong during execution."]).
  { enter_run Hacc. rewrite Hplan. enter_switch.
    destruct Hthrow as [[Ha Ht]|[[Ha Ht]|[[Ha Ht]|[Ha Ht]]]];
      rewrite Ha; cbn -[speech_calls]; rewrite Ht; cbn -[speech_calls];
      rewrite !speech_calls_app, Hspeech; reflexivity. }
  destruct (Hstate _ eq_refl) as (Hn & Hm & Hit).
  repeat split; assumption.
Qed.

Lemma collaborator_throw_run_witness :
  let p := Sample.plan_of "news" (Sample.info_topic "SpaceX") in
  let E := Sample.env_with p (Resolved None) in
  let q := "Get me the latest news on SpaceX" in
  accepted (with_input q initial_state) None = true /\
  planned E q = Resolved p /\
  generateNews E (or_else (topic (info p)) "Latest Tech") = Thrown "offline" /\
  exists it,
    history (run E initial_state q) = history initial_state ++ [it] /\
    plannerOutput it = p /\ result it = RText "Done." /\ status it = error /\
    errorMessage it = Some "offline".
Proof.
  cbv zeta. split; [reflexivity|]. split; [reflexivity|].
  split; [reflexivity|].
  destruct (collaborator_throw_run
              (Sample.env_with
                 (Sample.plan_of "news" (Sample.info_topic "SpaceX"))
                 (Resolved None))
              initial_state "Get me the latest news on SpaceX"
              (Sample.plan_of "news" (Sample.info_topic "SpaceX")) "offline"
              eq_refl eq_refl
              (or_intror (or_intror (or_introl (conj eq_refl eq_refl)))))
    as [_ [_ [_ Hit]]].
  exact Hit.
Defined.

(** ** What a handler may write *)

(** Every branch of the switch for a plan that is known. *)
Ltac planned_branches Hacc Hplan p :=
  enter_run Hacc; rewrite Hplan; enter_switch; case_agent p; unfold bind;
  settle.

Ltac agent_is :=
  repeat match goal with
         | H : String.eqb _ _ = true |- _ => apply String.eqb_eq in H
         | H : String.eqb _ _ = false |- _ => apply String.eqb_neq in H
         end.

(** X5. Only the notes_add and notes_clear handlers write the NoteStore,
    and only the meeting handler writes the MeetingSession: after a run
    planned for any other agent (one outside the closed set included), and
    after a run whose planning failed, they are as before. *)
Theorem handlers_write_only_their_part E s q :
  accepted (with_input q s) None = true ->
  (forall p, planned E q = Resolved p ->
     (agent p <> "notes_add" -> agent p <> "notes_clear" ->
        notes (run E s q) = notes s) /\
     (agent p <> "meeting" -> meeting (run E s q) = meeting s)) /\
  (forall e, planned E q = Thrown e ->
     notes (run E s q) = notes s /\ meeting (run E s q) = meeting s).
Proof.
  intros Hacc. split.
  - intros p Hplan.
    assert (H : forall st, run E s q = st ->
              (agent p <> "notes_add" -> agent p <> "notes_clear" ->
                 notes st = notes s) /\
              (agent p <> "meeting" -> meeting st = meeting s)).
    { intros st. planned_branches Hacc Hplan p.
      all: intros <-; cbn; agent_is; split; intros; congruence. }
    exact (H _ eq_refl).
  - intros e Hplan.
    assert (H : forall st, run E s q = st ->
              notes st = notes s /\ meeting st = meeting s).
    { intros st. enter_run Hacc. rewrite Hplan. cbn. intros <-.
      split; reflexivity. }
    exact (H _ eq_refl).
Qed.

Lemma handlers_write_only_their_part_witness :
  let p := Sample.plan_of "translate" (Sample.info_content "hello") in
  let E := Sample.env_with p (Resolved None) in
  let s := Sample.state_with Sample.two_topics Sample.live_meeting in
  let q := "translate hello to French" in
  accepted (with_input q s) None = true /\
  planned E q = Resolved p /\
  notes (run E s q) = notes s /\ meeting (run E s q) = meeting s.
Proof.
  cbv zeta. split; [reflexivity|]. split; [reflexivity|].
  destruct (handlers_write_only_their_part
              (Sample.env_with
                 (Sample.plan_of "translate" (Sample.info_content "hello"))
                 (Resolved None))
              (Sample.state_with Sample.two_topics Sample.live_meeting)
              "translate hello to French" eq_refl) as [H _].
  destruct (H (Sample.plan_of "translate" (Sample.info_content "hello"))
              eq_refl) as [Hn Hm].
  split; [apply Hn; discriminate | apply Hm; discriminate].
Defined.

(** X6. The summarizer is called by no run other than a meeting [stop]
    on an active session. *)
Theorem summarizer_only_on_stop E s q :
  accepted (with_input q s) None = true ->
  (forall p, planned E q = Resolved p ->
     ~ (agent p = "meeting" /\ meetingAction (info p) = Some "stop" /\
        active (meeting s) = true) ->
     summarize_calls (run_calls E s q) = []) /\
  (forall e, planned E q = Thrown e ->
     summarize_calls (run_calls E s q) = []).
Proof.
  intros Hacc. split.
  - intros p Hplan Hnot.
    assert (H : forall cs', run_calls E s q = cs' -> summarize_calls cs' = []).
    { intros cs'. planned_branches Hacc Hplan p.
      all: cbn.
      all: try (intros <-; rewrite ?summarize_calls_app, Hsum; reflexivity).
      all: exfalso; apply Hnot; agent_is;
        match goal with H : negb _ = false |- _ => apply negb_false_iff in H end;
        subst; cbn in *; auto. }
    exact (H _ eq_refl).
  - intros e Hplan.
    assert (H : forall cs', run_calls E s q = cs' -> summarize_calls cs' = []).
    { intros cs'. enter_run Hacc. rewrite Hplan. cbn. intros <-. exact Hsum. }
    exact (H _ eq_refl).
Qed.

Lemma summarizer_only_on_stop_witness :
  let p := Sample.plan_of "meeting"
             (Sample.info_meeting "add" None (Some "note this")) in
  let E := Sample.env_with p (Resolved None) in
  let s := Sample.state_with [] Sample.live_meeting in
  let q := "note this" in
  accepted (with_input q s) None = true /\
  planned E q = Resolved p /\
  summarize_calls (run_calls E s q) = [].
Proof.
  cbv zeta. split; [reflexivity|]. split; [reflexivity|].
  destruct (summarizer_only_on_stop
              (Sample.env_with
                 (Sample.plan_of "meeting"
                    (Sample.info_meeting "add" None (Some "note this")))
                 (Resolved None))
              (Sample.state_with [] Sample.live_meeting) "note this" eq_refl)
    as [H _].
  apply (H (Sample.plan_of "meeting"
              (Sample.info_meeting "add" None (Some "note this"))) eq_refl).
  intros [_ [Hstop _]]. discriminate Hstop.
Defined.

(** ** Speech and the loading phase *)

(** Pass the guard of an accepted call whose state and calls are both
    wanted, and run up to the planner on the one final world. *)
Ltac enter_pair Hacc :=
  unfold handleRun, handleRun_body;
  let H' := fresh in
  pose proof Hacc as H'; unfold accepted in H'; apply negb_true_iff in H';
  cbn [or_else input with_input] in H'; cbn [or_else input with_input];
  rewrite H'; clear H'; cbv zeta;
  match goal with
  | |- (app ?W, calls ?W) = (?st, ?cs) -> ?G =>
      let Hw := fresh "Hw" in
      enough (Hw : forall w, W = w -> app w = st -> calls w = cs -> G);
      [ let Hpair := fresh in
        let Hst := fresh in
        let Hcs := fresh in
        intros Hpair; injection Hpair as Hst Hcs;
        exact (Hw _ eq_refl Hst Hcs)
      | let w := fresh "w" in intros w ]
  end;
  unfold plan_and_execute, try_finally, try_catch;
  cbn -[planRequest]; unfold bind at 1; use_planner.

Lemma negb_is_empty_true s : negb (is_empty s) = true -> s <> EmptyString.
Proof. destruct s; simpl; [discriminate|discriminate]. Qed.

(** X7. [handleRun] itself sends at most one text to speech synthesis,
    and never an empty one: a run requests no speech and ends with the
    loading phase back at [idle], or it requests one non-empty text and
    leaves the phase at [executing], for the playback to take over.  A
    news run whose client resolves has one request more, made before by
    [generateNews] itself for the script of the package, which may be
    empty. *)
Theorem speech_and_phase E s q :
  accepted (with_input q s) None = true ->
  (speech_calls (run_calls E s q) = [] /\ loadingPhase (run E s q) = idle)
  \/ (exists t, t <> EmptyString /\ speech_calls (run_calls E s q) = [t] /\
                loadingPhase (run E s q) = ph_executing)
  \/ (exists p n,
        planned E q = Resolved p /\ agent p = "news" /\
        generateNews E (or_else (topic (info p)) "Latest Tech") = Resolved n /\
        speech_calls (run_calls E s q)
          = [script n; "Here is the latest news update."] /\
        loadingPhase (run E s q) = ph_executing).
Proof.
  intros Hacc.
  assert (H : forall st cs,
            handleRun E (with_input q s) None (with_input q s) = (st, cs) ->
            (speech_calls cs = [] /\ loadingPhase st = idle)
            \/ (exists t, t <> EmptyString /\ speech_calls cs = [t] /\
                          loadingPhase st = ph_executing)
            \/ (exists p n,
                  planned E q = Resolved p /\ agent p = "news" /\
                  generateNews E (or_else (topic (info p)) "Latest Tech")
                    = Resolved n /\
                  speech_calls cs
                    = [script n; "Here is the latest news update."] /\
                  loadingPhase st = ph_executing)).
  { intros st cs. enter_pair Hacc.
    match goal with
    | |- context [planned ?E ?q] => destruct (planned E q) as [p|?e] eqn:?
    end; [enter_switch; case_agent p; unfold bind; settle|].
    all: cbn; intros <-; cbn; intros <- <-.
    all: rewrite ?speech_calls_app, ?Hspeech, ?Hspeech0; cbn.
    all: first
           [ left; split; reflexivity
           | right; left; eexists; split; [|split; reflexivity];
             first [discriminate | apply negb_is_empty_true; assumption]
           | right; right; exists p; eexists; agent_is;
             split; [reflexivity|]; split; [assumption|];
             split; [eassumption|]; split; reflexivity ]. }
  exact (H _ _ (surjective_pairing _)).
Qed.

Lemma speech_and_phase_witness :
  let p := Sample.plan_of "news" (Sample.info_topic "SpaceX") in
  let n := {| headline := "Latest News: SpaceX"; script := EmptyString;
              audioData := None; sources := [] |} in
  let E := {| API_KEY := Some "key";
              generateContent := fun _ => Resolved (Some "{}");
              JSON_parse := fun _ => Resolved p;
              generateCode := fun _ _ => Thrown "unused";
              searchArxiv := fun _ => Thrown "unused";
              generateNews := fun _ => Resolved n;
              translateText := fun _ _ => Thrown "unused";
              clock_id := 7%N; clock_timestamp := 7%N |} in
  let q := "news on SpaceX" in
  accepted (with_input q initial_state) None = true /\
  speech_calls (run_calls E initial_state q)
    = [EmptyString; "Here is the latest news update."] /\
  ((speech_calls (run_calls E initial_state q) = [] /\
    loadingPhase (run E initial_state q) = idle)
   \/ (exists t, t <> EmptyString /\
                 speech_calls (run_calls E initial_state q) = [t] /\
                 loadingPhase (run E initial_state q) = ph_executing)
   \/ (exists p' n',
         planned E q = Resolved p' /\ agent p' = "news" /\
         generateNews E (or_else (topic (info p')) "Latest Tech")
           = Resolved n' /\
         speech_calls (run_calls E initial_state q)
           = [script n'; "Here is the latest news update."] /\
         loadingPhase (run E initial_state q) = ph_executing)).
Proof.
  cbv zeta. split; [reflexivity|]. split; [reflexivity|].
  exact (speech_and_phase
           {| API_KEY := Some "key";
              generateContent := fun _ => Resolved (Some "{}");
              JSON_parse :=
                fun _ => Resolved (Sample.plan_of "news"
                                     (Sample.info_topic "SpaceX"));
              generateCode := fun _ _ => Thrown "unused";
              searchArxiv := fun _ => Thrown "unused";
              generateNews :=
                fun _ => Resolved {| headline := "Latest News: SpaceX";
                                     script := EmptyString;
                                     audioData := None; sources := [] |};
              translateText := fun _ _ => Thrown "unused";
              clock_id := 7%N; clock_timestamp := 7%N |}
           initial_state "news on SpaceX" eq_refl).
Defined.

(** ** Runs one after the other *)

Lemma accepted_typed q s :
  accepted (with_input q s) None = true <->
  is_empty (trim q) = false /\ loading s = false.
Proof.
  unfold accepted. cbn [or_else input with_input].
  rewrite negb_true_iff, orb_false_iff. reflexivity.
Qed.

(** The state after a notes_add run with content. *)
Lemma run_notes_add_state E s q p c :
  accepted (with_input q s) None = true ->
  planned E q = Resolved p ->
  agent p = "notes_add" -> content (info p) = Some c -> c <> EmptyString ->
  let k := toLowerCase (or_else (topic (info p)) "general") in
  (JsObject.get k (notes s) = None -> JsObject.inherited k = false) ->
  notes (run E s q) = JsObject.set k (notes_at k (notes s) ++ [c]) (notes s) /\
  meeting (run E s q) = meeting s /\ loading (run E s q) = false.
Proof.
  intros Hacc Hplan Hagent Hc Hne k Hk.
  pose proof (add_note_own_or_fresh k c (notes s) Hk) as Hadd.
  eassert (Hrun : run E s q = _).
  { enter_run Hacc. rewrite Hplan. enter_switch.
    apply is_empty_false in Hne.
    rewrite Hagent. cbn -[add_note]. rewrite Hc. cbn -[add_note].
    rewrite Hne. cbn -[add_note]. fold k. unfold setNotes, bind.
    cbn -[add_note]. rewrite Hadd. cbn. reflexivity. }
  rewrite Hrun. repeat split.
Qed.

(** The state and the item after a notes_read run for one topic. *)
Lemma run_notes_read_state E s q p :
  accepted (with_input q s) None = true ->
  planned E q = Resolved p ->
  agent p = "notes_read" ->
  let t := toLowerCase (or_else (topic (info p)) EmptyString) in
  t <> "all" -> t <> EmptyString ->
  notes (run E s q) = notes s /\ meeting (run E s q) = meeting s /\
  loading (run E s q) = false /\
  exists it, history (run E s q) = history s ++ [it] /\
             plannerOutput it = p /\ status it = success /\
             result it = read_topic t (notes s).
Proof.
  intros Hacc Hplan Hagent t Hall Hne.
  apply String.eqb_neq in Hall. apply is_empty_false in Hne.
  eassert (Hrun : run E s q = _).
  { enter_run Hacc. rewrite Hplan. enter_switch. rewrite Hagent.
    cbn -[read_topic]. fold t. rewrite Hall, Hne. cbn -[read_topic].
    reflexivity. }
  rewrite Hrun. cbn -[read_topic]. repeat split. eexists. repeat split.
Qed.

(** The state after a notes_clear run for one topic. *)
Lemma run_notes_clear_state E s q p t :
  accepted (with_input q s) None = true ->
  planned E q = Resolved p ->
  agent p = "notes_clear" -> topic (info p) = Some t -> t <> EmptyString ->
  notes (run E s q) = JsObject.delete (toLowerCase t) (notes s) /\
  meeting (run E s q) = meeting s /\ loading (run E s q) = false.
Proof.
  intros Hacc Hplan Hagent Ht Hne.
  eassert (Hrun : run E s q = _).
  { enter_run Hacc. rewrite Hplan. enter_switch.
    apply is_empty_false in Hne.
    rewrite Hagent. cbn. rewrite Ht. cbn. rewrite Hne. cbn.
    rewrite toLowerCase_empty, Hne. cbn. reflexivity. }
  rewrite Hrun. repeat split.
Qed.

Lemma toLowerCase_nonempty s :
  s <> EmptyString -> toLowerCase s <> EmptyString.
Proof.
  intros H. apply is_empty_false. rewrite toLowerCase_empty.
  now apply is_empty_false.
Qed.

Lemma or_else_nonempty o d : d <> EmptyString -> or_else o d <> EmptyString.
Proof.
  intros Hd. destruct o as [[|c r]|]; simpl; [assumption|discriminate|assumption].
Qed.

(** X8. Round trip of the notes: after a note is added under a topic that
    is not a name inherited from [Object.prototype], a read of the same
    topic (compared lower-cased, "general" when the add gave none) returns
    the topic's former notes followed by the new note. *)
Theorem notes_add_then_read E1 E2 s q1 q2 p1 p2 c :
  accepted (with_input q1 s) None = true ->
  is_empty (trim q2) = false ->
  planned E1 q1 = Resolved p1 ->
  agent p1 = "notes_add" -> content (info p1) = Some c -> c <> EmptyString ->
  planned E2 q2 = Resolved p2 ->
  agent p2 = "notes_read" ->
  let k := toLowerCase (or_else (topic (info p1)) "general") in
  toLowerCase (or_else (topic (info p2)) EmptyString) = k ->
  k <> "all" ->
  JsObject.inherited k = false ->
  let s2 := run E2 (run E1 s q1) q2 in
  exists it1 it2,
    history s2 = history s ++ [it1; it2] /\
    status it2 = success /\
    result it2 = RLines (notes_at k (notes s) ++ [c]).
Proof.
  intros Hacc1 Hq2 Hplan1 Hagent1 Hc Hne Hplan2 Hagent2 k Hk Hall Hproto s2.
  subst s2.
  destruct (run_notes_add_state E1 s q1 p1 c Hacc1 Hplan1 Hagent1 Hc Hne
              (fun _ => Hproto))
    as (Hnotes1 & _ & Hload1). fold k in Hnotes1.
  destruct (handleRun_outcome E1 (with_input q1 s) None (with_input q1 s) _
              Hacc1 eq_refl) as (it1 & Hh1 & _).
  fold (run E1 s q1) in Hh1. cbn in Hh1.
  assert (Hacc2 : accepted (with_input q2 (run E1 s q1)) None = true)
    by (apply accepted_typed; split; assumption).
  assert (Hkne : k <> EmptyString)
    by (apply toLowerCase_nonempty, or_else_nonempty; discriminate).
  destruct (run_notes_read_state E2 (run E1 s q1) q2 p2 Hacc2 Hplan2 Hagent2)
    as (_ & _ & _ & it2 & Hh2 & _ & Hst2 & Hres2).
  { rewrite Hk. exact Hall. }
  { rewrite Hk. exact Hkne. }
  exists it1, it2. split; [|split; [exact Hst2|]].
  - rewrite Hh2, Hh1, <- app_assoc. reflexivity.
  - rewrite Hres2, Hk, Hnotes1.
    rewrite read_topic_own_or_fresh by (intros _; exact Hproto). f_equal.
    unfold notes_at at 1. now rewrite JsObjectFacts.get_set_same.
Qed.

Lemma notes_add_then_read_witness :
  let p1 := Sample.plan_of "notes_add"
              {| topic := Some "Work"; content := Some "ship it";
                 meetingAction := None; language := None |} in
  let p2 := Sample.plan_of "notes_read" (Sample.info_topic "WORK") in
  let E1 := Sample.env_with p1 (Resolved None) in
  let E2 := Sample.env_with p2 (Resolved None) in
  let s2 := run E2 (run E1 initial_state "note for work: ship it")
              "read my work notes" in
  accepted (with_input "note for work: ship it" initial_state) None = true /\
  exists it1 it2,
    history s2 = history initial_state ++ [it1; it2] /\
    status it2 = success /\
    result it2 = RLines (notes_at "work" (notes initial_state) ++ ["ship it"]).
Proof.
  cbv zeta. split; [reflexivity|].
  exact (notes_add_then_read
           (Sample.env_with
              (Sample.plan_of "notes_add"
                 {| topic := Some "Work"; content := Some "ship it";
                    meetingAction := None; language := None |})
              (Resolved None))
           (Sample.env_with
              (Sample.plan_of "notes_read" (Sample.info_topic "WORK"))
              (Resolved None))
           initial_state "note for work: ship it" "read my work notes"
           (Sample.plan_of "notes_add"
              {| topic := Some "Work"; content := Some "ship it";
                 meetingAction := None; language := None |})
           (Sample.plan_of "notes_read" (Sample.info_topic "WORK"))
           "ship it" eq_refl eq_refl eq_refl eq_refl eq_refl
           ltac:(discriminate) eq_refl eq_refl eq_refl ltac:(discriminate)
           eq_refl).
Defined.

(** X9. After the notes of a topic are cleared, a read of that topic
    returns the empty sequence, which the card shows as "No notes found
    for this topic."  (The topic is not a name inherited from
    [Object.prototype].) *)
Theorem notes_clear_then_read E1 E2 s q1 q2 p1 p2 t :
  accepted (with_input q1 s) None = true ->
  is_empty (trim q2) = false ->
  planned E1 q1 = Resolved p1 ->
  agent p1 = "notes_clear" -> topic (info p1) = Some t -> t <> EmptyString ->
  planned E2 q2 = Resolved p2 ->
  agent p2 = "notes_read" ->
  toLowerCase (or_else (topic (info p2)) EmptyString) = toLowerCase t ->
  toLowerCase t <> "all" ->
  JsObject.inherited (toLowerCase t) = false ->
  let s2 := run E2 (run E1 s q1) q2 in
  exists it1 it2,
    history s2 = history s ++ [it1; it2] /\
    result it2 = RLines [] /\
    ResponseCard.renderContent it2 = ResponseCard.NoNotes.
Proof.
  intros Hacc1 Hq2 Hplan1 Hagent1 Ht Hne Hplan2 Hagent2 Hk Hall Hproto s2.
  subst s2.
  destruct (run_notes_clear_state E1 s q1 p1 t Hacc1 Hplan1 Hagent1 Ht Hne)
    as (Hnotes1 & _ & Hload1).
  destruct (handleRun_outcome E1 (with_input q1 s) None (with_input q1 s) _
              Hacc1 eq_refl) as (it1 & Hh1 & _).
  fold (run E1 s q1) in Hh1. cbn in Hh1.
  assert (Hacc2 : accepted (with_input q2 (run E1 s q1)) None = true)
    by (apply accepted_typed; split; assumption).
  destruct (run_notes_read_state E2 (run E1 s q1) q2 p2 Hacc2 Hplan2 Hagent2)
    as (_ & _ & _ & it2 & Hh2 & Hp2 & Hst2 & Hres2).
  { rewrite Hk. exact Hall. }
  { rewrite Hk. now apply toLowerCase_nonempty. }
  assert (Hempty : result it2 = RLines []).
  { rewrite Hres2, Hk, Hnotes1.
    rewrite read_topic_own_or_fresh by (intros _; exact Hproto).
    unfold notes_at. now rewrite JsObjectFacts.get_delete_same. }
  exists it1, it2. split; [|split; [exact Hempty|]].
  - rewrite Hh2, Hh1, <- app_assoc. reflexivity.
  - unfold ResponseCard.renderContent. rewrite Hst2, Hp2, Hagent2, Hempty.
    reflexivity.
Qed.

Lemma notes_clear_then_read_witness :
  let p1 := Sample.plan_of "notes_clear" (Sample.info_topic "Work") in
  let p2 := Sample.plan_of "notes_read" (Sample.info_topic "work") in
  let E1 := Sample.env_with p1 (Resolved None) in
  let E2 := Sample.env_with p2 (Resolved None) in
  let s := Sample.state_with Sample.two_topics initial_meeting in
  let s2 := run E2 (run E1 s "forget work") "read work" in
  accepted (with_input "forget work" s) None = true /\
  exists it1 it2,
    history s2 = history s ++ [it1; it2] /\
    result it2 = RLines [] /\
    ResponseCard.renderContent it2 = ResponseCard.NoNotes.
Proof.
  cbv zeta. split; [reflexivity|].
  exact (notes_clear_then_read
           (Sample.env_with
              (Sample.plan_of "notes_clear" (Sample.info_topic "Work"))
              (Resolved None))
           (Sample.env_with
              (Sample.plan_of "notes_read" (Sample.info_topic "work"))
              (Resolved None))
           (Sample.state_with Sample.two_topics initial_meeting)
           "forget work" "read work"
           (Sample.plan_of "notes_clear" (Sample.info_topic "Work"))
           (Sample.plan_of "notes_read" (Sample.info_topic "work"))
           "Work" eq_refl eq_refl eq_refl eq_refl eq_refl
           ltac:(discriminate) eq_refl eq_refl eq_refl ltac:(discriminate)
           eq_refl).
Defined.

(** ** The meeting log *)

(** X10. A meeting [add] on an active session appends the content as the
    last log line and changes nothing else of the session; without content
    it changes nothing and answers "Nothing to add." with status
    [success]. *)
Theorem meeting_add_on_active E s q p :
  accepted (with_input q s) None = true ->
  planned E q = Resolved p ->
  agent p = "meeting" -> meetingAction (info p) = Some "add" ->
  active (meeting s) = true ->
  let s' := run E s q in
  (forall c, content (info p) = Some c -> c <> EmptyString ->
     meeting s' = {| active := true; mtopic := mtopic (meeting s);
                     log := log (meeting s) ++ [c];
                     listening := listening (meeting s) |} /\
     exists it, history s' = history s ++ [it] /\ status it = success /\
                result it = RText "Added to meeting log.") /\
  (truthy (content (info p)) = false ->
     meeting s' = meeting s /\
     exists it, history s' = history s ++ [it] /\ status it = success /\
                result it = RText "Nothing to add.").
Proof.
  intros Hacc Hplan Hagent Hact Hlive s'. subst s'. split.
  - intros c Hc Hne. apply is_empty_false in Hne.
    eassert (Hrun : run E s q = _).
    { enter_run Hacc. rewrite Hplan. enter_switch. rewrite Hagent. cbn.
      unfold meeting_case. rewrite Hact. cbn. rewrite Hlive. cbn.
      rewrite Hc. cbn. rewrite Hne. cbn. reflexivity. }
    rewrite Hrun. cbn. unfold Meeting.append_log. rewrite Hlive.
    split; [reflexivity|].
    eexists. repeat split.
  - intros Hc.
    eassert (Hrun : run E s q = _).
    { enter_run Hacc. rewrite Hplan. enter_switch. rewrite Hagent. cbn.
      unfold meeting_case. rewrite Hact. cbn. rewrite Hlive. cbn.
      rewrite Hc. cbn. reflexivity. }
    rewrite Hrun. cbn. split; [reflexivity|]. eexists. repeat split.
Qed.

Lemma meeting_add_on_active_witness :
  let p := Sample.plan_of "meeting" (Sample.info_meeting "add" None None) in
  let E := Sample.env_with p (Resolved None) in
  let s := Sample.state_with [] Sample.live_meeting in
  let q := "add that" in
  accepted (with_input q s) None = true /\
  planned E q = Resolved p /\
  active (meeting s) = true /\
  meeting (run E s q) = meeting s /\
  exists it, history (run E s q) = history s ++ [it] /\ status it = success /\
             result it = RText "Nothing to add.".
Proof.
  cbv zeta. split; [reflexivity|]. split; [reflexivity|].
  split; [reflexivity|].
  exact (proj2 (meeting_add_on_active
                  (Sample.env_with
                     (Sample.plan_of "meeting"
                        (Sample.info_meeting "add" None None))
                     (Resolved None))
                  (Sample.state_with [] Sample.live_meeting) "add that"
                  (Sample.plan_of "meeting"
                     (Sample.info_meeting "add" None None))
                  eq_refl eq_refl eq_refl eq_refl eq_refl) eq_refl).
Defined.

Lemma run_meeting_start_state E s q p :
  accepted (with_input q s) None = true ->
  planned E q = Resolved p ->
  agent p = "meeting" -> meetingAction (info p) = Some "start" ->
  meeting (run E s q)
    = Meeting.started (or_else (topic (info p)) "General Meeting") (meeting s)
  /\ loading (run E s q) = false.
Proof.
  intros Hacc Hplan Hagent Hact.
  eassert (Hrun : run E s q = _).
  { enter_run Hacc. rewrite Hplan. enter_switch. rewrite Hagent. cbn.
    unfold meeting_case. rewrite Hact. cbn. reflexivity. }
  rewrite Hrun. split; reflexivity.
Qed.

Lemma run_meeting_add_state E s q p c :
  accepted (with_input q s) None = true ->
  planned E q = Resolved p ->
  agent p = "meeting" -> meetingAction (info p) = Some "add" ->
  active (meeting s) = true ->
  content (info p) = Some c -> c <> EmptyString ->
  meeting (run E s q) = Meeting.append_log c (meeting s)
  /\ loading (run E s q) = false.
Proof.
  intros Hacc Hplan Hagent Hact Hlive Hc Hne. apply is_empty_false in Hne.
  eassert (Hrun : run E s q = _).
  { enter_run Hacc. rewrite Hplan. enter_switch. rewrite Hagent. cbn.
    unfold meeting_case. rewrite Hact. cbn. rewrite Hlive. cbn.
    rewrite Hc. cbn. rewrite Hne. cbn. reflexivity. }
  rewrite Hrun. split; reflexivity.
Qed.

Lemma run_meeting_stop_state E s q p text :
  accepted (with_input q s) None = true ->
  planned E q = Resolved p ->
  agent p = "meeting" -> meetingAction (info p) = Some "stop" ->
  active (meeting s) = true ->
  summarized E (mtopic (meeting s)) (log (meeting s)) = Resolved text ->
  meeting (run E s q) = initial_meeting /\
  exists it, history (run E s q) = history s ++ [it] /\
             result it = RText text /\ status it = success.
Proof.
  intros Hacc Hplan Hagent Hact Hlive Ho.
  eassert (Hrun : run E s q = _).
  { run_to_summarizer Hacc Hplan Hagent Hact Hlive.
    rewrite Ho. cbn. reflexivity. }
  rewrite Hrun. cbn. split; [reflexivity|]. eexists. repeat split.
Qed.

(** X11. A whole meeting: after a [start], two [add] runs with contents
    [c1] and [c2], then a [stop] whose summarizer answers, the summarizer
    has been called once, with the topic given at the start ("General
    Meeting" when none was given) and exactly the log [c1; c2]; the answer
    is the result and the session is back to the initial one. *)
Theorem meeting_lifecycle E1 E2 E3 E4 s q1 q2 q3 q4 p1 p2 p3 p4 c1 c2 text :
  accepted (with_input q1 s) None = true ->
  is_empty (trim q2) = false -> is_empty (trim q3) = false ->
  is_empty (trim q4) = false ->
  planned E1 q1 = Resolved p1 -> agent p1 = "meeting" ->
  meetingAction (info p1) = Some "start" ->
  planned E2 q2 = Resolved p2 -> agent p2 = "meeting" ->
  meetingAction (info p2) = Some "add" ->
  content (info p2) = Some c1 -> c1 <> EmptyString ->
  planned E3 q3 = Resolved p3 -> agent p3 = "meeting" ->
  meetingAction (info p3) = Some "add" ->
  content (info p3) = Some c2 -> c2 <> EmptyString ->
  planned E4 q4 = Resolved p4 -> agent p4 = "meeting" ->
  meetingAction (info p4) = Some "stop" ->
  let t := or_else (topic (info p1)) "General Meeting" in
  summarized E4 t [c1; c2] = Resolved text ->
  let s3 := run E3 (run E2 (run E1 s q1) q2) q3 in
  meeting s3 = {| active := true; mtopic := t; log := [c1; c2];
                  listening := true |} /\
  summarize_calls (run_calls E4 s3 q4) = [(t, [c1; c2])] /\
  meeting (run E4 s3 q4) = initial_meeting /\
  exists it, history (run E4 s3 q4) = history s3 ++ [it] /\
             result it = RText text /\ status it = success.
Proof.
  intros Hacc1 Hq2 Hq3 Hq4 Hplan1 Ha1 Hact1 Hplan2 Ha2 Hact2 Hc1 Hne1
    Hplan3 Ha3 Hact3 Hc2 Hne2 Hplan4 Ha4 Hact4 t Hsum s3. subst s3.
  destruct (run_meeting_start_state E1 s q1 p1 Hacc1 Hplan1 Ha1 Hact1)
    as [Hm1 Hl1]. fold t in Hm1.
  assert (Hacc2 : accepted (with_input q2 (run E1 s q1)) None = true)
    by (apply accepted_typed; split; assumption).
  destruct (run_meeting_add_state E2 _ q2 p2 c1 Hacc2 Hplan2 Ha2 Hact2)
    as [Hm2 Hl2]; [now rewrite Hm1|assumption|assumption|].
  assert (Hacc3 : accepted (with_input q3 (run E2 (run E1 s q1) q2)) None
                  = true)
    by (apply accepted_typed; split; assumption).
  destruct (run_meeting_add_state E3 _ q3 p3 c2 Hacc3 Hplan3 Ha3 Hact3)
    as [Hm3 Hl3]; [now rewrite Hm2, Hm1|assumption|assumption|].
  assert (Hs3 : meeting (run E3 (run E2 (run E1 s q1) q2) q3)
                = {| active := true; mtopic := t; log := [c1; c2];
                     listening := true |})
    by (rewrite Hm3, Hm2, Hm1; reflexivity).
  assert (Hacc4 : accepted
                    (with_input q4 (run E3 (run E2 (run E1 s q1) q2) q3))
                    None = true)
    by (apply accepted_typed; split; assumption).
  split; [exact Hs3|]. split; [|].
  - unfold run_calls.
    rewrite (meeting_stop_reads_snapshot E4 _ None _ p4 Hacc4);
      try assumption.
    + cbn [meeting with_input]. now rewrite Hs3.
    + cbn [meeting with_input]. now rewrite Hs3.
  - apply (run_meeting_stop_state E4 _ q4 p4 text Hacc4 Hplan4 Ha4 Hact4).
    + now rewrite Hs3.
    + now rewrite Hs3.
Qed.

Lemma meeting_lifecycle_witness :
  let p1 := Sample.plan_of "meeting"
              (Sample.info_meeting "start" (Some "Roadmap") None) in
  let p2 := Sample.plan_of "meeting"
              (Sample.info_meeting "add" None (Some "ship in May")) in
  let p3 := Sample.plan_of "meeting"
              (Sample.info_meeting "add" None (Some "hire two")) in
  let p4 := Sample.plan_of "meeting" (Sample.info_meeting "stop" None None) in
  let E1 := Sample.env_with p1 (Resolved None) in
  let E2 := Sample.env_with p2 (Resolved None) in
  let E3 := Sample.env_with p3 (Resolved None) in
  let E4 := Sample.env_with p4 (Resolved (Some "Ship in May; hire two.")) in
  let s3 := run E3 (run E2 (run E1 initial_state "start roadmap meeting")
                      "log: ship in May") "log: hire two" in
  accepted (with_input "start roadmap meeting" initial_state) None = true /\
  summarized E4 "Roadmap" ["ship in May"; "hire two"]
    = Resolved "Ship in May; hire two." /\
  summarize_calls (run_calls E4 s3 "stop") =
    [("Roadmap", ["ship in May"; "hire two"])] /\
  meeting (run E4 s3 "stop") = initial_meeting.
Proof.
  cbv zeta. split; [reflexivity|]. split; [reflexivity|].
  destruct (meeting_lifecycle
              (Sample.env_with
                 (Sample.plan_of "meeting"
                    (Sample.info_meeting "start" (Some "Roadmap") None))
                 (Resolved None))
              (Sample.env_with
                 (Sample.plan_of "meeting"
                    (Sample.info_meeting "add" None (Some "ship in May")))
                 (Resolved None))
              (Sample.env_with
                 (Sample.plan_of "meeting"
                    (Sample.info_meeting "add" None (Some "hire two")))
                 (Resolved None))
              (Sample.env_with
                 (Sample.plan_of "meeting"
                    (Sample.info_meeting "stop" None None))
                 (Resolved (Some "Ship in May; hire two.")))
              initial_state "start roadmap meeting" "log: ship in May"
              "log: hire two" "stop"
              (Sample.plan_of "meeting"
                 (Sample.info_meeting "start" (Some "Roadmap") None))
              (Sample.plan_of "meeting"
                 (Sample.info_meeting "add" None (Some "ship in May")))
              (Sample.plan_of "meeting"
                 (Sample.info_meeting "add" None (Some "hire two")))
              (Sample.plan_of "meeting" (Sample.info_meeting "stop" None None))
              "ship in May" "hire two" "Ship in May; hire two."
              eq_refl eq_refl eq_refl eq_refl
              eq_refl eq_refl eq_refl
              eq_refl eq_refl eq_refl eq_refl ltac:(discriminate)
              eq_refl eq_refl eq_refl eq_refl ltac:(discriminate)
              eq_refl eq_refl eq_refl eq_refl)
    as [_ [Hcalls [Hreset _]]].
  split; [exact Hcalls | exact Hreset].
Defined.

(** ** Invariants of the component state *)

Lemma lower_ascii_idempotent c : lower_ascii (lower_ascii c) = lower_ascii c.
Proof.
  destruct c as [[] [] [] [] [] [] [] []]; reflexivity.
Qed.

Lemma toLowerCase_idempotent s : toLowerCase (toLowerCase s) = toLowerCase s.
Proof.
  induction s as [|c r IH]; simpl; [reflexivity|].
  now rewrite lower_ascii_idempotent, IH.
Qed.

Lemma truthy_or_else o : truthy o = true -> or_else o EmptyString <> EmptyString.
Proof.
  destruct o as [[|c r]|]; simpl; intros H; try discriminate.
Qed.

Section StoreForall.
Variable P : string * list string -> Prop.

Lemma Forall_replace k v (o : NoteStore) :
  Forall P o -> P (k, v) -> Forall P (JsObject.replace k v o).
Proof.
  intros Ho Hv. induction o as [|[k' v'] r IH]; simpl; [constructor|].
  inversion Ho as [|? ? Hx Hr]; subst.
  destruct (String.eqb k k') eqn:Hk; constructor; auto.
  apply String.eqb_eq in Hk. now subst.
Qed.

Lemma Forall_insert_index n k v (o : NoteStore) :
  Forall P o -> P (k, v) -> Forall P (JsObject.insert_index n k v o).
Proof.
  intros Ho Hv. induction o as [|[k' v'] r IH]; simpl; [repeat constructor; auto|].
  inversion Ho as [|? ? Hx Hr]; subst.
  destruct (JsObject.array_index k') as [n'|];
    [destruct (n <? n')%N|]; repeat constructor; auto.
Qed.

Lemma Forall_delete k (o : NoteStore) :
  Forall P o -> Forall P (JsObject.delete k o).
Proof.
  intros Ho. induction o as [|[k' v'] r IH]; simpl; [constructor|].
  inversion Ho as [|? ? Hx Hr]; subst.
  destruct (String.eqb k k'); [|constructor]; auto.
Qed.

End StoreForall.

Lemma get_In (k : string) (o : NoteStore) l :
  JsObject.get k o = Some l -> In (k, l) o.
Proof.
  induction o as [|[k' v'] r IH]; simpl; [discriminate|].
  destruct (String.eqb k k') eqn:Hk.
  - apply String.eqb_eq in Hk. intros H. injection H as <-. subst. now left.
  - intros H. right. auto.
Qed.

Lemma notes_wf_set k c (n : NoteStore) :
  notes_wf n -> toLowerCase k = k -> c <> EmptyString ->
  notes_wf (JsObject.set k (notes_at k n ++ [c]) n).
Proof.
  unfold notes_wf. intros Hwf Hk Hc.
  assert (Hnew : Forall (fun note => note <> EmptyString) (notes_at k n ++ [c])).
  { apply Forall_app. split; [|repeat constructor; assumption].
    unfold notes_at. destruct (JsObject.get k n) as [l|] eqn:Hg; [|constructor].
    apply get_In in Hg. rewrite Forall_forall in Hwf.
    exact (proj2 (proj2 (Hwf _ Hg))). }
  assert (Hne : notes_at k n ++ [c] <> [])
    by (destruct (notes_at k n); discriminate).
  unfold JsObject.set. destruct (JsObject.get k n) as [l|] eqn:Hg.
  - apply Forall_replace; [assumption|]. simpl. auto.
  - destruct (JsObject.array_index k).
    + apply Forall_insert_index; [assumption|]. simpl. auto.
    + apply Forall_app. split; [assumption|]. repeat constructor; simpl; auto.
Qed.

(** The writes of one [handleRun] to the NoteStore. *)
Lemma handleRun_notes_cases E snap ov s st :
  fst (handleRun E snap ov s) = st ->
  notes st = notes s
  \/ (exists k c, toLowerCase k = k /\ c <> EmptyString /\
        notes st = JsObject.set k (notes_at k (notes s) ++ [c]) (notes s))
  \/ (exists k, notes st = JsObject.delete k (notes s))
  \/ notes st = JsObject.empty.
Proof.
  destruct (accepted snap ov) eqn:Hacc.
  - every_branch Hacc p.
    all: intros <-; cbn -[toLowerCase or_else truthy add_note].
    all: try (left; reflexivity).
    all: try (right; right; right; reflexivity).
    all: try (right; right; left; eexists; reflexivity).
    all: match goal with
         | H : add_note ?k ?c _ = Some _ |- _ =>
             right; left; exists k, c;
             split; [apply toLowerCase_idempotent|];
             split; [apply truthy_or_else; assumption
                    |apply add_note_Some; exact H]
         end.
  - rewrite handleRun_rejected by assumption. intros <-. now left.
Qed.

Lemma app_step_notes_wf s s' :
  app_step s s' -> notes_wf (notes s) -> notes_wf (notes s').
Proof.
  intros Hstep Hwf. destruct Hstep as [E q s| | | |]; cbn.
  - destruct (handleRun_notes_cases E _ None _ _ (eq_refl : _ = run E s q))
      as [H|[(k & c & Hk & Hc & H)|[[k H]|H]]]; rewrite H; cbn.
    + exact Hwf.
    + now apply notes_wf_set.
    + now apply Forall_delete.
    + constructor.
  - exact Hwf.
  - unfold onresult. destruct (is_empty _); exact Hwf.
  - unfold onerror.
    repeat (match goal with
            | |- context [if ?b then _ else _] => destruct b
            end; try exact Hwf).
  - unfold Audio.playGlobalAudio.
    repeat (match goal with
            | |- context [match ?o with _ => _ end] => destruct o
            end; try exact Hwf).
Qed.

Lemma notes_wf_flat_empty (n : NoteStore) :
  notes_wf n -> (flat (JsObject.values n) = [] <-> n = []).
Proof.
  intros Hwf. split; [|intros ->; reflexivity].
  destruct n as [|[k v] r]; [reflexivity|].
  inversion Hwf as [|? ? [_ [Hv _]] _]; subst. simpl in *.
  destruct v; [congruence|discriminate].
Qed.

(** X12. In every state reached from the initial one, the topics of the
    NoteStore are lower-cased and no topic has an empty sequence or an
    empty note; hence reading "all" meets the placeholder exactly when the
    store has no topic at all. *)
Theorem reachable_notes_well_formed s :
  app_steps initial_state s ->
  notes_wf (notes s) /\
  (flat (JsObject.values (notes s)) = [] <-> notes s = []).
Proof.
  intros Hreach.
  assert (Hwf : notes_wf (notes s)).
  { assert (H : forall a b, app_steps a b -> notes_wf (notes a) ->
                            notes_wf (notes b)).
    { induction 1 as [a b Hstep| |a b c _ IH1 _ IH2]; auto.
      now apply app_step_notes_wf. }
    apply (H _ _ Hreach). constructor. }
  split; [exact Hwf | now apply notes_wf_flat_empty].
Qed.

Lemma reachable_notes_well_formed_witness :
  let E := Sample.env_with
             (Sample.plan_of "notes_add"
                {| topic := Some "Work"; content := Some "ship it";
                   meetingAction := None; language := None |})
             (Resolved None) in
  let s := run E initial_state "note for work: ship it" in
  app_steps initial_state s /\
  notes s = [("work", ["ship it"])] /\
  notes_wf (notes s).
Proof.
  cbv zeta.
  assert (Hreach : app_steps initial_state
            (run (Sample.env_with
                    (Sample.plan_of "notes_add"
                       {| topic := Some "Work"; content := Some "ship it";
                          meetingAction := None; language := None |})
                    (Resolved None))
                 initial_state "note for work: ship it"))
    by (apply rt_step; apply app_run).
  split; [exact Hreach|]. split; [reflexivity|].
  exact (proj1 (reachable_notes_well_formed _ Hreach)).
Defined.

Lemma run_history E s q :
  exists l, history (run E s q) = history s ++ l /\ Forall terminal l /\
            (loading s = false -> loading (run E s q) = false).
Proof.
  destruct (accepted (with_input q s) None) eqn:Hacc.
  - destruct (handleRun_outcome E (with_input q s) None (with_input q s) _
                Hacc eq_refl) as (it & Hh & _ & Hl & Hst).
    fold (run E s q) in Hh, Hl. cbn in Hh.
    exists [it]. split; [exact Hh|]. split; [|auto].
    constructor; [|constructor]. unfold terminal. tauto.
  - unfold run. rewrite handleRun_rejected by assumption. cbn.
    exists []. rewrite app_nil_r. repeat split; auto.
Qed.

Lemma app_step_history s s' :
  app_step s s' ->
  exists l, history s' = history s ++ l /\ Forall terminal l /\
            (loading s = false -> loading s' = false).
Proof.
  intros Hstep. destruct Hstep as [E q s| | | |].
  - apply run_history.
  - exists []. rewrite app_nil_r. repeat split; auto.
  - exists []. rewrite app_nil_r. unfold onresult.
    destruct (is_empty _); repeat split; auto.
  - exists []. rewrite app_nil_r. unfold onerror.
    repeat (match goal with
            | |- context [if ?b then _ else _] => destruct b
            end); repeat split; auto.
  - exists []. rewrite app_nil_r. unfold Audio.playGlobalAudio.
    repeat (match goal with
            | |- context [match ?o with _ => _ end] => destruct o
            end); repeat split; auto.
Qed.

(** X13. The history is append-only: whatever happens to the component,
    the items already there stay, in place and unchanged, and every item
    added has status [success] or [error].  In every state reached from the
    initial one [loading] is cleared and no item is left at [planning] or
    [executing]. *)
Theorem history_append_only :
  (forall s s', app_steps s s' ->
     exists l, history s' = history s ++ l /\ Forall terminal l) /\
  (forall s, app_steps initial_state s ->
     loading s = false /\ Forall terminal (history s)).
Proof.
  assert (H : forall s s', app_steps s s' ->
            exists l, history s' = history s ++ l /\ Forall terminal l /\
                      (loading s = false -> loading s' = false)).
  { induction 1 as [a b Hstep|a|a b c _ IH1 _ IH2].
    - now apply app_step_history.
    - exists []. rewrite app_nil_r. repeat split; auto.
    - destruct IH1 as (l1 & H1 & T1 & L1). destruct IH2 as (l2 & H2 & T2 & L2).
      exists (l1 ++ l2). rewrite H2, H1, app_assoc.
      repeat split; auto. apply Forall_app. auto. }
  split.
  - intros s s' Hs. destruct (H s s' Hs) as (l & Hl & Ht & _). eauto.
  - intros s Hs. destruct (H _ s Hs) as (l & Hl & Ht & Hload).
    split; [now apply Hload|]. rewrite Hl. exact Ht.
Qed.

Lemma history_append_only_witness :
  let E := Sample.env_with (Sample.plan_of "unknown" empty_info)
             (Resolved None) in
  let s := toggleMeetingListener
             (run E (Sample.state_with [] Sample.live_meeting) "hm") in
  app_steps (Sample.state_with [] Sample.live_meeting) s /\
  exists l, history s = history (Sample.state_with [] Sample.live_meeting) ++ l
            /\ Forall terminal l.
Proof.
  cbv zeta.
  assert (Hsteps : app_steps (Sample.state_with [] Sample.live_meeting)
            (toggleMeetingListener
               (run (Sample.env_with (Sample.plan_of "unknown" empty_info)
                       (Resolved None))
                    (Sample.state_with [] Sample.live_meeting) "hm"))).
  { eapply rt_trans; [apply rt_step; apply app_run|].
    apply rt_step. apply app_toggle. }
  split; [exact Hsteps|].
  exact (proj1 history_append_only _ _ Hsteps).
Defined.

(* ================================================================== *)
(** * The card of a history item *)

(** Evaluate [renderContent] on the item of a branch, with what the
    branch knows about the agent and the meeting action. *)
Ltac render_card :=
  unfold ResponseCard.renderContent, ResponseCard.as_text;
  cbn -[toLowerCase or_else truthy trim String.eqb
        JsObject.inherited_length];
  repeat match goal with
         | H : String.eqb ?a ?b = true |- _ =>
             apply String.eqb_eq in H; first [subst a | rewrite H]
         end;
  repeat match goal with
         | H : String.eqb ?a ?b = _ |- context [String.eqb ?a ?b] => rewrite H
         | H : meetingAction ?i = _ |- context [meetingAction ?i] => rewrite H
         end;
  cbn -[toLowerCase or_else truthy trim JsObject.inherited_length];
  repeat match goal with
         | H : String.eqb ?a ?b = false |- context [String.eqb ?a ?b] =>
             rewrite H;
             cbn -[toLowerCase or_else truthy trim JsObject.inherited_length]
         | |- context [match ?l with [] => _ | _ :: _ => _ end] =>
             destruct l;
             cbn -[toLowerCase or_else truthy trim JsObject.inherited_length]
         end.

(** X14. The card of a run's item never shows the "not sure" line of
    [case 'unknown'] (an item planned as ['unknown'] always has status
    [error], which is rendered first), and an item with status [error]
    shows its error message, or "An error occurred." when the message is
    empty.  Every result has the shape its branch of [renderContent] casts
    it to, with one exception: a [notes_read] of a topic that is not an
    own topic of the store but a name inherited from [Object.prototype]
    stores the inherited value, on which the card fails. *)
Theorem card_of_run_item E s q :
  accepted (with_input q s) None = true ->
  exists it,
    history (run E s q) = history s ++ [it] /\
    ResponseCard.renderContent it <> ResponseCard.NotSure /\
    (status it = error ->
       ResponseCard.renderContent it
       = ResponseCard.ErrorLine
           (or_else (errorMessage it) "An error occurred.")) /\
    (ResponseCard.renderContent it = ResponseCard.Miscast ->
       exists p,
         planned E q = Resolved p /\ agent p = "notes_read" /\
         let t := toLowerCase (or_else (topic (info p)) EmptyString) in
         JsObject.get t (notes s) = None /\ JsObject.inherited t = true /\
         result it = RInherited t).
Proof.
  intros Hacc.
  assert (H : forall st, fst (handleRun E (with_input q s) None
                                (with_input q s)) = st ->
            exists it,
              history st = history s ++ [it] /\
              ResponseCard.renderContent it <> ResponseCard.NotSure /\
              (status it = error ->
                 ResponseCard.renderContent it
                 = ResponseCard.ErrorLine
                     (or_else (errorMessage it) "An error occurred.")) /\
              (ResponseCard.renderContent it = ResponseCard.Miscast ->
                 exists p,
                   planned E q = Resolved p /\ agent p = "notes_read" /\
                   let t := toLowerCase (or_else (topic (info p)) EmptyString) in
                   JsObject.get t (notes s) = None /\
                   JsObject.inherited t = true /\
                   result it = RInherited t)).
  { intros st. every_branch Hacc p.
    all: cbn -[toLowerCase or_else truthy trim read_topic]; intros <-;
      eexists; (split; [cbn -[read_topic]; reflexivity|]).
    all: unfold read_topic, JsObject.lookup;
      repeat match goal with
             | |- context [JsObject.get ?k ?n] =>
                 destruct (JsObject.get k n) eqn:?
             | |- context [JsObject.inherited ?k] =>
                 destruct (JsObject.inherited k) eqn:?
             end.
    all: render_card.
    all: repeat match goal with
                | |- context [JsObject.inherited_length ?k] =>
                    destruct (JsObject.inherited_length k) as [[|?]|]
                end.
    all: split; [discriminate|];
      split; [intros; first [reflexivity | discriminate]|].
    all: intros Hm; try discriminate Hm.
    all: exists p; cbv zeta; repeat split; assumption. }
  exact (H _ eq_refl).
Qed.

Lemma card_of_run_item_witness :
  let E := Sample.env_with
             (Sample.plan_of "notes_read" (Sample.info_topic "Constructor"))
             (Resolved None) in
  let q := "read my notes on Constructor" in
  accepted (with_input q initial_state) None = true /\
  map result (history (run E initial_state q)) = [RInherited "constructor"] /\
  map ResponseCard.renderContent (history (run E initial_state q))
    = [ResponseCard.Miscast] /\
  exists it,
    history (run E initial_state q) = history initial_state ++ [it] /\
    ResponseCard.renderContent it <> ResponseCard.NotSure /\
    (status it = error ->
       ResponseCard.renderContent it
       = ResponseCard.ErrorLine
           (or_else (errorMessage it) "An error occurred.")) /\
    (ResponseCard.renderContent it = ResponseCard.Miscast ->
       exists p,
         planned E q = Resolved p /\ agent p = "notes_read" /\
         let t := toLowerCase (or_else (topic (info p)) EmptyString) in
         JsObject.get t (notes initial_state) = None /\
         JsObject.inherited t = true /\
         result it = RInherited t).
Proof.
  cbv zeta. split; [reflexivity|]. split; [reflexivity|].
  split; [reflexivity|].
  exact (card_of_run_item
           (Sample.env_with
              (Sample.plan_of "notes_read" (Sample.info_topic "Constructor"))
              (Resolved None))
           initial_state "read my notes on Constructor" eq_refl).
Defined.

Lemma neq_Some_eqb (a lit : string) :
  Some a <> Some lit -> String.eqb a lit = false.
Proof. intros H. apply String.eqb_neq. congruence. Qed.

(** X15. A handler's own verdict of failure (agent ['unknown'], a note
    without content, a [stop] without an active meeting, a meeting action
    other than start, add and stop) stores its explanation as the result
    and leaves the error message empty; the card of such an item shows
    "An error occurred.", not the explanation. *)
Theorem soft_failure_card E s q p :
  accepted (with_input q s) None = true ->
  planned E q = Resolved p ->
  agent p = "unknown"
  \/ (agent p = "notes_add" /\ truthy (content (info p)) = false)
  \/ (agent p = "meeting" /\ meetingAction (info p) = Some "stop" /\
      active (meeting s) = false)
  \/ (agent p = "meeting" /\ meetingAction (info p) <> Some "start" /\
      meetingAction (info p) <> Some "add" /\
      meetingAction (info p) <> Some "stop") ->
  exists it text,
    history (run E s q) = history s ++ [it] /\
    status it = error /\ errorMessage it = Some EmptyString /\
    result it = RText text /\ text <> "An error occurred." /\
    ResponseCard.renderContent it = ResponseCard.ErrorLine "An error occurred.".
Proof.
  intros Hacc Hplan Hcase.
  assert (H : forall st, run E s q = st ->
            exists it text,
              history st = history s ++ [it] /\
              status it = error /\ errorMessage it = Some EmptyString /\
              result it = RText text /\ text <> "An error occurred." /\
              ResponseCard.renderContent it
              = ResponseCard.ErrorLine "An error occurred.").
  { intros st. enter_run Hacc. rewrite Hplan. enter_switch.
    destruct Hcase as [Ha|[[Ha Hc]|[[Ha [Hact Hidle]]|[Ha [H1 [H2 H3]]]]]];
      rewrite Ha; cbn.
    - intros <-. eexists. eexists. cbn. repeat split. discriminate.
    - rewrite Hc. cbn. intros <-. eexists. eexists. cbn. repeat split.
      discriminate.
    - unfold meeting_case. rewrite Hact. cbn. rewrite Hidle. cbn.
      intros <-. eexists. eexists. cbn. repeat split. discriminate.
    - unfold meeting_case. destruct (meetingAction (info p)) as [a|].
      + rewrite (neq_Some_eqb _ _ H1), (neq_Some_eqb _ _ H2),
          (neq_Some_eqb _ _ H3). cbn.
        intros <-. eexists. eexists. cbn. repeat split. discriminate.
      + cbn. intros <-. eexists. eexists. cbn. repeat split. discriminate. }
  exact (H _ eq_refl).
Qed.

Lemma soft_failure_card_witness :
  let p := Sample.plan_of "notes_add" empty_info in
  let E := Sample.env_with p (Resolved None) in
  let q := "add a note" in
  accepted (with_input q initial_state) None = true /\
  planned E q = Resolved p /\
  truthy (content (info p)) = false /\
  exists it text,
    history (run E initial_state q) = history initial_state ++ [it] /\
    status it = error /\ errorMessage it = Some EmptyString /\
    result it = RText text /\ text <> "An error occurred." /\
    ResponseCard.renderContent it = ResponseCard.ErrorLine "An error occurred.".
Proof.
  cbv zeta. split; [reflexivity|]. split; [reflexivity|].
  split; [reflexivity|].
  exact (soft_failure_card
           (Sample.env_with (Sample.plan_of "notes_add" empty_info)
              (Resolved None))
           initial_state "add a note" (Sample.plan_of "notes_add" empty_info)
           eq_refl eq_refl (or_intror (or_introl (conj eq_refl eq_refl)))).
Defined.

(* ================================================================== *)
(** * The clients of [services/gemini.ts] *)

(** ** Patterns *)

Module PatternFacts.
Import Pattern.

Lemma append_assoc (a b c : string) :
  ((a ++ b) ++ c = a ++ (b ++ c))%string.
Proof. induction a as [|x r IH]; simpl; [reflexivity|now rewrite IH]. Qed.

Lemma append_empty_r (a : string) : (a ++ EmptyString)%string = a.
Proof. induction a as [|x r IH]; simpl; [reflexivity|now rewrite IH]. Qed.

Lemma drop_prefix_app pre s : drop_prefix pre (pre ++ s)%string = Some s.
Proof.
  induction pre as [|c r IH]; simpl; [reflexivity|].
  now rewrite Ascii.eqb_refl.
Qed.

Lemma drop_prefix_head c pre d s :
  c <> d -> drop_prefix (String c pre) (String d s) = None.
Proof. intros H. simpl. apply Ascii.eqb_neq in H. now rewrite H. Qed.

Lemma rev_string_acc s acc :
  rev_string s acc = (rev_string s EmptyString ++ acc)%string.
Proof.
  revert acc. induction s as [|c r IH]; intros acc; simpl; [reflexivity|].
  rewrite IH, (IH (String c EmptyString)), append_assoc.
  reflexivity.
Qed.

Lemma rev_string_app s t :
  rev_string (s ++ t) EmptyString
  = (rev_string t EmptyString ++ rev_string s EmptyString)%string.
Proof.
  induction s as [|c r IH]; simpl.
  - now rewrite append_empty_r.
  - rewrite rev_string_acc, IH, (rev_string_acc r (String c EmptyString)).
    now rewrite append_assoc.
Qed.

Lemma rev_string_involutive s :
  rev_string (rev_string s EmptyString) EmptyString = s.
Proof.
  induction s as [|c r IH]; simpl; [reflexivity|].
  rewrite (rev_string_acc r (String c EmptyString)), rev_string_app, IH.
  reflexivity.
Qed.

Lemma replace_end_app suf s : replace_end suf (s ++ suf)%string = s.
Proof.
  unfold replace_end. rewrite rev_string_app, drop_prefix_app.
  apply rev_string_involutive.
Qed.

Lemma replace_start_app pre s : replace_start pre (pre ++ s)%string = s.
Proof. unfold replace_start. now rewrite drop_prefix_app. Qed.

End PatternFacts.

Module GeminiFacts.
Import Pattern PatternFacts.

Lemma drop_prefix_Some pre s r :
  drop_prefix pre s = Some r -> s = (pre ++ r)%string.
Proof.
  revert s. induction pre as [|c p IH]; intros s; simpl.
  - intros H. now injection H as ->.
  - destruct s as [|d s']; [discriminate|].
    destruct (Ascii.eqb c d) eqn:Hcd; [|discriminate].
    apply Ascii.eqb_eq in Hcd. subst d. intros H. now rewrite (IH _ H).
Qed.

Lemma replace_end_none suf s :
  (forall r, s <> (r ++ suf)%string) -> replace_end suf s = s.
Proof.
  intros H. unfold replace_end.
  destruct (drop_prefix _ _) as [r|] eqn:Hd; [|reflexivity].
  exfalso. apply drop_prefix_Some in Hd.
  apply (H (rev_string r EmptyString)).
  rewrite <- (rev_string_involutive s), Hd, rev_string_app.
  now rewrite rev_string_involutive.
Qed.

Lemma replace_start_no_backtick pre s :
  (forall r, s <> String backtick r) ->
  replace_start (String backtick pre) s = s.
Proof.
  intros H. destruct s as [|c r]; [reflexivity|].
  destruct (Ascii.ascii_dec backtick c) as [<-|Hne].
  - now elim (H r).
  - unfold replace_start. now rewrite (drop_prefix_head _ _ _ _ Hne).
Qed.

Section Code.
Variable E : Env.
Variables (t : string) (d : option string) (w : World).

Lemma generateCode_result text :
  truthy (API_KEY E) = true ->
  generateContent E (code_request t d) = Resolved text ->
  fst (Gemini.generateCode E t d w)
  = Resolved (Gemini.clean_code (or_else text "# No code generated.")).
Proof.
  intros Hkey Hgen.
  unfold Gemini.generateCode, getAiClient, models_generateContent, bind, emit,
    await, ret. rewrite Hkey. cbn -[Gemini.clean_code Gemini.code_prompt].
  fold (code_request t d). rewrite Hgen. reflexivity.
Qed.

Lemma starts_without_backtick body rest :
  body <> EmptyString ->
  (forall r, body <> String backtick r) ->
  forall r, (body ++ rest)%string <> String backtick r.
Proof.
  intros Hne Hb r. destruct body as [|c b]; [congruence|]. simpl.
  intros Heq. injection Heq as -> _. now elim (Hb b).
Qed.

(** X16. [generateCode] removes one Markdown fence around the answer: for
    a body that is not empty and does not start with a backtick, the
    answers [```python\n body ```] and [```\n body ```] both give [body],
    and an answer without fences is returned as it is.  The closing fence
    is only removed at the very end of the answer: followed by a newline
    it stays.  Without any text the result is "# No code generated." *)
Theorem generateCode_strips_fences body :
  truthy (API_KEY E) = true ->
  body <> EmptyString ->
  (forall r, body <> String backtick r) ->
  (generateContent E (code_request t d)
     = Resolved (Some ((Gemini.fence ++ "python" ++ nl) ++ body ++ Gemini.fence)%string) ->
   fst (Gemini.generateCode E t d w) = Resolved body) /\
  (generateContent E (code_request t d)
     = Resolved (Some ((Gemini.fence ++ nl) ++ body ++ Gemini.fence)%string) ->
   fst (Gemini.generateCode E t d w) = Resolved body) /\
  (generateContent E (code_request t d) = Resolved (Some body) ->
   (forall r, body <> (r ++ Gemini.fence)%string) ->
   fst (Gemini.generateCode E t d w) = Resolved body) /\
  (generateContent E (code_request t d)
     = Resolved (Some ((Gemini.fence ++ "python" ++ nl)
                       ++ body ++ Gemini.fence ++ nl)%string) ->
   fst (Gemini.generateCode E t d w)
   = Resolved (body ++ Gemini.fence ++ nl)%string) /\
  (generateContent E (code_request t d) = Resolved None
   \/ generateContent E (code_request t d) = Resolved (Some EmptyString) ->
   fst (Gemini.generateCode E t d w) = Resolved "# No code generated.").
Proof.
  intros Hkey Hne Hb.
  assert (Hfence : forall x, Pattern.replace_start (Gemini.fence ++ x)
                               (body ++ Gemini.fence)%string
                             = (body ++ Gemini.fence)%string).
  { intros x. apply (replace_start_no_backtick _ _
                       (starts_without_backtick body _ Hne Hb)). }
  repeat split.
  - intros Hgen. rewrite (generateCode_result _ Hkey Hgen). f_equal.
    rewrite or_else_some by discriminate. unfold Gemini.clean_code.
    rewrite replace_start_app, Hfence. apply replace_end_app.
  - intros Hgen. rewrite (generateCode_result _ Hkey Hgen). f_equal.
    rewrite or_else_some by discriminate. unfold Gemini.clean_code.
    replace (Pattern.replace_start (Gemini.fence ++ "python" ++ nl)
               ((Gemini.fence ++ nl) ++ body ++ Gemini.fence))
      with ((Gemini.fence ++ nl) ++ body ++ Gemini.fence)%string
      by reflexivity.
    rewrite replace_start_app. apply replace_end_app.
  - intros Hgen Hend. rewrite (generateCode_result _ Hkey Hgen). f_equal.
    rewrite (or_else_some _ _ Hne). unfold Gemini.clean_code.
    assert (H1 : Pattern.replace_start (Gemini.fence ++ "python" ++ nl) body
                 = body) by apply (replace_start_no_backtick _ _ Hb).
    assert (H2 : Pattern.replace_start (Gemini.fence ++ nl) body = body)
      by apply (replace_start_no_backtick _ _ Hb).
    rewrite H1, H2. now apply replace_end_none.
  - intros Hgen. rewrite (generateCode_result _ Hkey Hgen). f_equal.
    rewrite or_else_some by discriminate. unfold Gemini.clean_code.
    rewrite replace_start_app.
    assert (H2 : Pattern.replace_start (Gemini.fence ++ nl)
                   (body ++ Gemini.fence ++ nl)%string
                 = (body ++ Gemini.fence ++ nl)%string)
      by apply (replace_start_no_backtick _ _
                  (starts_without_backtick body _ Hne Hb)).
    rewrite H2. unfold Pattern.replace_end. rewrite rev_string_app.
    reflexivity.
  - intros [Hgen|Hgen]; rewrite (generateCode_result _ Hkey Hgen);
      reflexivity.
Qed.

End Code.
Lemma generateCode_strips_fences_witness :
  let E := Sample.env_with (Sample.plan_of "code" empty_info)
             (Resolved (Some ((Gemini.fence ++ "python" ++ nl)
                              ++ "print(1)" ++ Gemini.fence)%string)) in
  let w := start_world E initial_state "print one" in
  truthy (API_KEY E) = true /\
  generateContent E (code_request "print one" None)
    = Resolved (Some ((Gemini.fence ++ "python" ++ nl)
                      ++ "print(1)" ++ Gemini.fence)%string) /\
  fst (Gemini.generateCode E "print one" None w) = Resolved "print(1)".
Proof.
  cbv zeta. split; [reflexivity|]. split; [reflexivity|].
  refine (proj1 (generateCode_strips_fences
           (Sample.env_with (Sample.plan_of "code" empty_info)
              (Resolved (Some ((Gemini.fence ++ "python" ++ nl)
                               ++ "print(1)" ++ Gemini.fence)%string)))
           "print one" None
           (start_world
              (Sample.env_with (Sample.plan_of "code" empty_info)
                 (Resolved (Some ((Gemini.fence ++ "python" ++ nl)
                                  ++ "print(1)" ++ Gemini.fence)%string)))
              initial_state "print one")
           "print(1)" eq_refl ltac:(discriminate) ltac:(discriminate)) _).
  reflexivity.
Defined.

Lemma or_else_text_nonempty o d :
  d <> EmptyString -> or_else o d <> EmptyString.
Proof.
  intros Hd. destruct o as [[|c r]|]; simpl; [assumption|discriminate|assumption].
Qed.

(** X17. [translateText] and [summarizeMeetingLog] never resolve to an
    empty string (an absent or empty answer is replaced by the fallback
    text), and they throw only when the API key is missing or the request
    itself throws. *)
Theorem text_clients_never_empty (E : Env) (w : World) :
  (forall text lang,
     match fst (Gemini.translateText E text lang w) with
     | Resolved r => r <> EmptyString
     | Thrown e =>
         (truthy (API_KEY E) = false /\ e = "API Key not found in environment")
         \/ generateContent E (translate_request text lang) = Thrown e
     end) /\
  (forall t l,
     match fst (summarizeMeetingLog E t l w) with
     | Resolved r => r <> EmptyString
     | Thrown e =>
         (truthy (API_KEY E) = false /\ e = "API Key not found in environment")
         \/ generateContent E (summary_request t l) = Thrown e
     end).
Proof.
  split.
  - intros text lang.
    unfold Gemini.translateText, getAiClient, models_generateContent, bind,
      emit, await, ret, throw.
    destruct (truthy (API_KEY E)); cbn -[Gemini.translate_prompt].
    + fold (translate_request text lang).
      destruct (generateContent E (translate_request text lang)) as [r|e];
        cbn; [apply or_else_text_nonempty; discriminate | now right].
    + left. split; reflexivity.
  - intros t l.
    unfold summarizeMeetingLog, getAiClient, models_generateContent, bind,
      emit, await, ret, throw.
    destruct (truthy (API_KEY E)); cbn -[summary_prompt join nl].
    + fold (summary_request t l).
      destruct (generateContent E (summary_request t l)) as [r|e];
        cbn; [apply or_else_text_nonempty; discriminate | now right].
    + left. split; reflexivity.
Qed.

(** X18. [generateSpeech] throws only without an API key.  With a key,
    every failure of the synthesis request is swallowed and yields no
    audio; audio is returned only when the first part of the response
    carries non-empty data. *)
Theorem generateSpeech_outcomes (E : Env) (B : Backend) (text : string)
    (w : World) :
  (truthy (API_KEY E) = false ->
     fst (Gemini.generateSpeech E B text w)
     = Thrown "API Key not found in environment") /\
  (truthy (API_KEY E) = true ->
     exists r,
       fst (Gemini.generateSpeech E B text w) = Resolved r /\
       (forall e, tts_generateContent B text = Thrown e -> r = None) /\
       (forall data, r = Some data ->
          data <> EmptyString /\
          exists resp, tts_generateContent B text = Resolved resp /\
                       Gemini.first_audio resp = Some data)).
Proof.
  unfold Gemini.generateSpeech, getAiClient, try_catch, bind, await, ret,
    throw.
  split; intros Hkey; rewrite Hkey; cbn; [reflexivity|].
  destruct (tts_generateContent B text) as [resp|e]; cbn.
  - destruct (Gemini.first_audio resp) as [[|c r]|] eqn:Ha; cbn;
      eexists; (split; [reflexivity|]); split; try discriminate.
    intros data Hd. injection Hd as <-. split; [discriminate|].
    exists resp. auto.
  - exists None. split; [reflexivity|]. split; [reflexivity|discriminate].
Qed.

Lemma generateSpeech_outcomes_witness :
  let E := Sample.env_with (Sample.plan_of "news" empty_info) (Resolved None) in
  let B := {| search_generateContent := fun _ => Thrown "offline";
              tts_generateContent := fun _ => Thrown "quota" |} in
  let w := start_world E initial_state "news" in
  truthy (API_KEY E) = true /\
  fst (Gemini.generateSpeech E B "hello" w) = Resolved None.
Proof.
  cbv zeta. split; [reflexivity|].
  destruct (proj2 (generateSpeech_outcomes
                     (Sample.env_with (Sample.plan_of "news" empty_info)
                        (Resolved None))
                     {| search_generateContent := fun _ => Thrown "offline";
                        tts_generateContent := fun _ => Thrown "quota" |}
                     "hello"
                     (start_world
                        (Sample.env_with (Sample.plan_of "news" empty_info)
                           (Resolved None))
                        initial_state "news")) eq_refl)
    as [r [Hr [Hnone _]]].
  rewrite Hr. f_equal. exact (Hnone "quota" eq_refl).
Defined.

End GeminiFacts.

Module NewsFacts.
Import Pattern PatternFacts.

Lemma find_after_here pat s r :
  drop_prefix pat s = Some r -> find_after pat s = Some r.
Proof. intros H. destruct s; simpl; now rewrite H. Qed.

Lemma take_until_here pat s r :
  drop_prefix pat s = Some r -> take_until pat s = Some EmptyString.
Proof. intros H. destruct s; simpl; now rewrite H. Qed.

Lemma find_after_clean p pre s :
  no_lt pre ->
  find_after (String lt_char p) (pre ++ s) = find_after (String lt_char p) s.
Proof.
  unfold no_lt. induction pre as [|c r IH]; intros H; [reflexivity|].
  inversion H as [|? ? Hc Hr]; subst.
  change ((String c r ++ s)%string) with (String c (r ++ s)).
  cbn [find_after]. rewrite drop_prefix_head by congruence. now apply IH.
Qed.

Lemma take_until_clean p h s :
  no_lt h ->
  take_until (String lt_char p) (h ++ s)
  = option_map (append h) (take_until (String lt_char p) s).
Proof.
  unfold no_lt. induction h as [|c r IH]; intros H.
  - simpl. now destruct (take_until _ s).
  - inversion H as [|? ? Hc Hr]; subst.
    change ((String c r ++ s)%string) with (String c (r ++ s)).
    cbn [take_until]. rewrite drop_prefix_head by congruence.
    rewrite (IH Hr). now destruct (take_until _ s).
Qed.

Lemma find_after_none p s :
  no_lt s -> find_after (String lt_char p) s = None.
Proof.
  unfold no_lt. induction s as [|c r IH]; intros H; [reflexivity|].
  inversion H as [|? ? Hc Hr]; subst.
  cbn [find_after]. rewrite drop_prefix_head by congruence. now apply IH.
Qed.

Lemma strip_tags_clean s : no_lt s -> strip_tags s = s.
Proof.
  unfold no_lt, strip_tags. induction s as [|c r IH]; intros H; [reflexivity|].
  inversion H as [|? ? Hc Hr]; subst. simpl.
  apply Ascii.eqb_neq in Hc. rewrite Hc. now rewrite IH.
Qed.

Lemma has_gt_false_no_tag s : has_gt s = false -> has_tag s = false.
Proof.
  induction s as [|c r IH]; simpl; [reflexivity|].
  intros H. apply orb_false_iff in H. destruct H as [_ Hr].
  rewrite Hr, (IH Hr). now rewrite andb_false_r.
Qed.

Lemma strip_tags_from_no_tag s :
  has_tag (strip_tags_from false s) = false /\
  has_tag (strip_tags_from true s) = false.
Proof.
  induction s as [|c r [IHf IHt]]; simpl; [split; reflexivity|].
  split.
  - destruct (Ascii.eqb c lt_char) eqn:Hc.
    + destruct (has_gt r) eqn:Hg; [exact IHt|].
      simpl. rewrite Hc, Hg. simpl. now apply has_gt_false_no_tag.
    + simpl. rewrite Hc. simpl. exact IHf.
  - destruct (Ascii.eqb c gt_char); assumption.
Qed.

(** X19. The fallback script of the news has no markup left: after
    [replace(/<[^>]*>/g, '')] no ['<'] of the text is followed by a ['>'];
    a text without any ['<'] is returned as it is. *)
Theorem strip_tags_removes_tags s :
  has_tag (strip_tags s) = false /\ (no_lt s -> strip_tags s = s).
Proof.
  split; [apply strip_tags_from_no_tag | apply strip_tags_clean].
Qed.

Lemma strip_tags_removes_tags_witness :
  no_lt "plain text > here" /\
  strip_tags "plain text > here" = "plain text > here" /\
  strip_tags "<b>Launch</b> at <i>dawn</i> <unclosed" = "Launch at dawn <unclosed".
Proof.
  assert (H : no_lt "plain text > here")
    by (unfold no_lt; repeat constructor; discriminate).
  split; [exact H|]. split; [|reflexivity].
  exact (proj2 (strip_tags_removes_tags "plain text > here") H).
Defined.

(** X20. For an answer in the requested format,
    [... <HEADLINE>h</HEADLINE> ... <SCRIPT>sc</SCRIPT> ...] with no other
    ['<'] before the closing tags, the headline is [h] trimmed and the
    script is [sc] trimmed.  For an answer without any ['<'] the headline
    is "Latest News: " followed by the topic and the script is the trimmed
    answer, or "No news script generated." when that is empty. *)
Theorem news_extraction t pre h mid sc post text :
  (no_lt pre -> no_lt h -> no_lt mid -> no_lt sc ->
   text = (pre ++ "<HEADLINE>" ++ h ++ "</HEADLINE>" ++ mid
               ++ "<SCRIPT>" ++ sc ++ "</SCRIPT>" ++ post)%string ->
   Gemini.news_headline t text = trim h /\ Gemini.news_script text = trim sc)
  /\
  (no_lt text ->
   Gemini.news_headline t text = ("Latest News: " ++ t)%string /\
   Gemini.news_script text
   = if is_empty (trim text) then "No news script generated." else trim text).
Proof.
  split.
  - intros Hpre Hh Hmid Hsc ->.
    unfold Gemini.news_headline, Gemini.news_script, match_between. split.
    + rewrite (find_after_clean _ _ _ Hpre).
      rewrite (find_after_here "<HEADLINE>" _ _ (drop_prefix_app _ _)).
      rewrite (take_until_clean _ _ _ Hh).
      rewrite (take_until_here "</HEADLINE>" _ _ (drop_prefix_app _ _)).
      simpl. now rewrite append_empty_r.
    + rewrite (find_after_clean _ _ _ Hpre).
      match goal with
      | |- context [find_after ?P ("<HEADLINE>" ++ ?Y)%string] =>
          change (find_after P ("<HEADLINE>" ++ Y)%string) with (find_after P Y)
      end.
      rewrite (find_after_clean _ _ _ Hh).
      match goal with
      | |- context [find_after ?P ("</HEADLINE>" ++ ?Y)%string] =>
          change (find_after P ("</HEADLINE>" ++ Y)%string)
            with (find_after P Y)
      end.
      rewrite (find_after_clean _ _ _ Hmid).
      rewrite (find_after_here "<SCRIPT>" _ _ (drop_prefix_app _ _)).
      rewrite (take_until_clean _ _ _ Hsc).
      rewrite (take_until_here "</SCRIPT>" _ _ (drop_prefix_app _ _)).
      simpl. now rewrite append_empty_r.
  - intros Hclean.
    unfold Gemini.news_headline, Gemini.news_script, match_between.
    rewrite !(find_after_none _ _ Hclean), (strip_tags_clean _ Hclean).
    split; reflexivity.
Qed.

Lemma news_extraction_witness :
  let text := (EmptyString ++ "<HEADLINE>" ++ " Starship flies " ++ "</HEADLINE>" ++ nl
               ++ "<SCRIPT>" ++ "It flew today. " ++ "</SCRIPT>" ++ EmptyString)%string in
  no_lt EmptyString /\ no_lt " Starship flies " /\ no_lt nl /\ no_lt "It flew today. " /\
  Gemini.news_headline "SpaceX" text = "Starship flies" /\
  Gemini.news_script text = "It flew today.".
Proof.
  cbv zeta.
  assert (H1 : no_lt EmptyString) by constructor.
  assert (H2 : no_lt " Starship flies ")
    by (unfold no_lt; repeat constructor; discriminate).
  assert (H3 : no_lt nl) by (unfold no_lt; repeat constructor; discriminate).
  assert (H4 : no_lt "It flew today. ")
    by (unfold no_lt; repeat constructor; discriminate).
  repeat (split; [assumption|]).
  exact (proj1 (news_extraction "SpaceX" EmptyString " Starship flies " nl
                  "It flew today. " EmptyString _) H1 H2 H3 H4 eq_refl).
Defined.

Lemma collect_sources_nonempty chunks :
  Forall (fun src => fst src <> EmptyString /\ snd src <> EmptyString)
         (Gemini.collect_sources chunks).
Proof.
  destruct chunks as [l|]; simpl; [|constructor].
  induction l as [|c r IH]; simpl; [constructor|].
  apply Forall_app. split; [|exact IH].
  destruct (web c) as [wc|]; repeat constructor; simpl;
    apply GeminiFacts.or_else_text_nonempty; discriminate.
Qed.

(** [generateNews] makes exactly one speech request, for the script of
    the package it resolves to, and none when it throws. *)
Lemma generateNews_speech_request (E : Env) (B : Backend) (t : string)
    (w : World) :
  match fst (Gemini.generateNews E B t w) with
  | Resolved n =>
      calls (snd (Gemini.generateNews E B t w))
      = calls w ++ [CallGenerateSpeech (script n)]
  | Thrown _ => calls (snd (Gemini.generateNews E B t w)) = calls w
  end.
Proof.
  unfold Gemini.generateNews, Gemini.generateSpeech, getAiClient, try_catch,
    bind, emit, await, ret, throw.
  destruct (truthy (API_KEY E));
    cbn -[Gemini.news_prompt Gemini.news_script Gemini.news_headline];
    [|reflexivity].
  destruct (search_generateContent B (Gemini.news_prompt t)) as [resp|e];
    cbn -[Gemini.news_prompt Gemini.news_script Gemini.news_headline];
    [|reflexivity].
  destruct (tts_generateContent B _) as [r|e];
    cbn -[Gemini.news_prompt Gemini.news_script Gemini.news_headline];
    [|reflexivity].
  destruct (truthy (Gemini.first_audio r)); reflexivity.
Qed.

(** X21. With an API key, [generateNews] fails only when the search
    request fails.  A failing speech synthesis is not an error of the news:
    the package is returned without audio.  Only chunks with a [web] part
    become sources, each with a non-empty title and link ("Source" and "#"
    by default). *)
Theorem generateNews_outcomes (E : Env) (B : Backend) (t : string) (w : World) :
  truthy (API_KEY E) = true ->
  (forall e, search_generateContent B (Gemini.news_prompt t) = Thrown e ->
     fst (Gemini.generateNews E B t w) = Thrown e) /\
  (forall resp,
     search_generateContent B (Gemini.news_prompt t) = Resolved resp ->
     exists n,
       fst (Gemini.generateNews E B t w) = Resolved n /\
       headline n
         = Gemini.news_headline t (or_else (search_text resp) EmptyString) /\
       script n = Gemini.news_script (or_else (search_text resp) EmptyString) /\
       sources n = Gemini.collect_sources (groundingChunks resp) /\
       Forall (fun src => fst src <> EmptyString /\ snd src <> EmptyString)
              (sources n) /\
       (length (sources n)
          <= length (match groundingChunks resp with
                     | Some l => l | None => [] end))%nat /\
       (forall e, tts_generateContent B (script n) = Thrown e ->
          audioData n = None)).
Proof.
  intros Hkey. split.
  - intros e Hs.
    unfold Gemini.generateNews, getAiClient, bind, await.
    rewrite Hkey. cbn -[Gemini.news_prompt]. rewrite Hs. reflexivity.
  - intros resp Hs.
    unfold Gemini.generateNews, Gemini.generateSpeech, getAiClient, try_catch,
      bind, await, ret.
    rewrite Hkey. cbn -[Gemini.news_prompt Gemini.news_headline
                        Gemini.news_script Gemini.collect_sources].
    rewrite Hs. cbn -[Gemini.news_prompt Gemini.news_headline
                      Gemini.news_script Gemini.collect_sources].
    assert (Hlen : (length (Gemini.collect_sources (groundingChunks resp))
                    <= length (match groundingChunks resp with
                               | Some l => l | None => [] end))%nat).
    { destruct (groundingChunks resp) as [l|]; simpl; [|lia].
      induction l as [|c r IH]; simpl; [lia|].
      rewrite length_app. destruct (web c); simpl; lia. }
    destruct (tts_generateContent B _) as [tr|e] eqn:Htts;
      cbn -[Gemini.news_prompt Gemini.news_headline
            Gemini.news_script Gemini.collect_sources];
      [destruct (truthy (Gemini.first_audio tr));
       cbn -[Gemini.news_prompt Gemini.news_headline
             Gemini.news_script Gemini.collect_sources]|];
      eexists; (split; [reflexivity|]);
      cbn -[Gemini.news_prompt Gemini.news_headline
            Gemini.news_script Gemini.collect_sources];
      (repeat split; try reflexivity; try apply collect_sources_nonempty;
       try exact Hlen);
      intros e' He'; congruence.
Qed.

Lemma generateNews_outcomes_witness :
  let E := Sample.env_with (Sample.plan_of "news" empty_info) (Resolved None) in
  let B := {| search_generateContent := fun _ =>
                Resolved {| search_text := Some "Rocket launched.";
                            groundingChunks :=
                              Some [ {| web := None |};
                                     {| web := Some {| web_title := None;
                                                       web_uri := Some "https://x.test" |} |} ] |};
              tts_generateContent := fun _ => Thrown "quota" |} in
  let w := start_world E initial_state "news" in
  truthy (API_KEY E) = true /\
  fst (Gemini.generateNews E B "SpaceX" w)
  = Resolved {| headline := "Latest News: SpaceX";
                script := "Rocket launched."; audioData := None;
                sources := [("Source", "https://x.test")] |}.
Proof.
  cbv zeta. split; [reflexivity|].
  destruct (proj2 (generateNews_outcomes
                     (Sample.env_with (Sample.plan_of "news" empty_info)
                        (Resolved None))
                     {| search_generateContent := fun _ =>
                          Resolved {| search_text := Some "Rocket launched.";
                                      groundingChunks :=
                                        Some [ {| web := None |};
                                               {| web := Some {| web_title := None;
                                                                 web_uri := Some "https://x.test" |} |} ] |};
                        tts_generateContent := fun _ => Thrown "quota" |}
                     "SpaceX"
                     (start_world
                        (Sample.env_with (Sample.plan_of "news" empty_info)
                           (Resolved None))
                        initial_state "news") eq_refl) _ eq_refl)
    as [n [Hn [Hh [Hsc [Hsrc [_ [_ Haudio]]]]]]].
  rewrite Hn. f_equal. destruct n as [hl sc au src]. cbn in Hh, Hsc, Hsrc.
  cbn [script audioData] in Haudio. rewrite Hsc in Haudio.
  rewrite Hh, Hsc, Hsrc, (Haudio "quota" eq_refl). reflexivity.
Defined.

End NewsFacts.

(* ================================================================== *)
(** * Paper search, audio decoding, dashboard *)

Module ArxivFacts.
Import Arxiv.

Lemma In_trim_start c s :
  In c (list_ascii_of_string (trim_start s)) -> In c (list_ascii_of_string s).
Proof.
  induction s as [|a r IH]; simpl; [auto|].
  destruct (is_space a); simpl; auto.
Qed.

Lemma In_rev_string c s acc :
  In c (list_ascii_of_string (rev_string s acc)) ->
  In c (list_ascii_of_string s) \/ In c (list_ascii_of_string acc).
Proof.
  revert acc. induction s as [|a r IH]; intros acc; simpl; [auto|].
  intros H. apply IH in H. simpl in H. tauto.
Qed.

Lemma In_trim c s :
  In c (list_ascii_of_string (trim s)) -> In c (list_ascii_of_string s).
Proof.
  unfold trim. intros H.
  apply In_rev_string in H. destruct H as [H|[]].
  apply In_trim_start, In_rev_string in H. destruct H as [H|[]].
  now apply In_trim_start.
Qed.

Lemma replace_newlines_no_line_feed s :
  ~ In line_feed (list_ascii_of_string (replace_newlines s)).
Proof.
  induction s as [|a r IH]; simpl; [auto|].
  intros [H|H]; [|auto]. unfold newline_to_space in H.
  destruct (Ascii.eqb a (ascii_of_nat 10)) eqn:Ha.
  - discriminate H.
  - apply Ascii.eqb_neq in Ha. now apply Ha.
Qed.

Lemma clean_text_spec x fallback :
  fallback <> EmptyString ->
  ~ In line_feed (list_ascii_of_string fallback) ->
  clean_text x fallback <> EmptyString /\
  ~ In line_feed (list_ascii_of_string (clean_text x fallback)).
Proof.
  intros Hne Hlf. unfold clean_text.
  destruct x as [s|]; cbn [option_map or_else]; [|auto].
  destruct (trim (replace_newlines s)) as [|a r] eqn:Ht;
    cbn [is_empty]; [auto|].
  split; [discriminate|]. intros H.
  apply (replace_newlines_no_line_feed s), In_trim. rewrite Ht. exact H.
Qed.

Lemma author_names_nonempty l :
  Forall (fun name => name <> EmptyString) (author_names l).
Proof.
  induction l as [|x r IH]; simpl; [constructor|].
  apply Forall_app. split; [|exact IH].
  destruct x as [[|c s]|]; simpl; repeat constructor. discriminate.
Qed.

(** X22. [searchArxiv] throws when the request fails, when the response is
    not OK (the message names the status) and when the body cannot be
    read.  Otherwise it returns one paper per entry, in the order of the
    feed; every title and summary is non-empty and free of line feeds
    ("No Title" and "No Summary" stand in for missing or blank ones) and
    no author name is empty. *)
Theorem searchArxiv_outcomes (W : Web) (t : string) :
  (forall e, fetch W (query_url W t) = Thrown e -> searchArxiv W t = Thrown e)
  /\
  (forall r, fetch W (query_url W t) = Resolved r -> ok r = false ->
     searchArxiv W t
     = Thrown ("ArXiv API failed with status: " ++ N_toString (http_status r)))
  /\
  (forall r e, fetch W (query_url W t) = Resolved r -> ok r = true ->
     body r = Thrown e -> searchArxiv W t = Thrown e)
  /\
  (forall r xml, fetch W (query_url W t) = Resolved r -> ok r = true ->
     body r = Resolved xml ->
     exists papers,
       searchArxiv W t = Resolved papers /\
       papers = map (paper_of W) (parseFromString W xml) /\
       length papers = length (parseFromString W xml) /\
       Forall (fun p =>
                 title p <> EmptyString /\ summary p <> EmptyString /\
                 ~ In line_feed (list_ascii_of_string (title p)) /\
                 ~ In line_feed (list_ascii_of_string (summary p)) /\
                 Forall (fun name => name <> EmptyString) (authors p))
              papers).
Proof.
  unfold searchArxiv. repeat split.
  - intros e ->. reflexivity.
  - intros r -> ->. reflexivity.
  - intros r e -> -> ->. reflexivity.
  - intros r xml -> -> ->. cbn. eexists. split; [reflexivity|].
    split; [reflexivity|]. split; [apply length_map|].
    apply Forall_map. apply Forall_forall. intros e _. cbn.
    assert (Ht := clean_text_spec (entry_title e) "No Title").
    assert (Hs := clean_text_spec (entry_summary e) "No Summary").
    destruct Ht as [Ht1 Ht2]; [discriminate|cbn; intuition discriminate|].
    destruct Hs as [Hs1 Hs2]; [discriminate|cbn; intuition discriminate|].
    repeat split; try assumption. apply author_names_nonempty.
Qed.

Lemma searchArxiv_outcomes_witness :
  let W := {| encodeURIComponent := fun s => s;
              fetch := fun _ => Resolved {| ok := false; http_status := 503;
                                            body := Resolved EmptyString |};
              parseFromString := fun _ => [];
              toLocaleDateString := fun s => s |} in
  fetch W (query_url W "LLM")
    = Resolved {| ok := false; http_status := 503; body := Resolved EmptyString |} /\
  searchArxiv W "LLM" = Thrown "ArXiv API failed with status: 503".
Proof.
  cbv zeta. split; [reflexivity|].
  exact (proj1 (proj2 (searchArxiv_outcomes
                         {| encodeURIComponent := fun s => s;
                            fetch := fun _ =>
                              Resolved {| ok := false; http_status := 503;
                                          body := Resolved EmptyString |};
                            parseFromString := fun _ => [];
                            toLocaleDateString := fun s => s |} "LLM"))
               _ eq_refl eq_refl).
Defined.

End ArxivFacts.

Module AudioFacts.
Import Audio.
Local Open Scope Q_scope.

Lemma list_pair_ind {A} (P : list A -> Prop) :
  P [] -> (forall x, P [x]) -> (forall x y l, P l -> P (x :: y :: l)) ->
  forall l, P l.
Proof.
  intros H0 H1 H2 l.
  enough (H : P l /\ forall x, P (x :: l)) by apply H.
  induction l as [|a r [IH1 IH2]]; split; auto.
Qed.

Lemma int16_range lo hi :
  (lo < 256)%N -> (hi < 256)%N ->
  (-32768 <= int16 lo hi < 32768)%Z.
Proof.
  intros Hlo Hhi. unfold int16.
  destruct (Z.ltb_spec (Z.of_N lo + 256 * Z.of_N hi) 32768); lia.
Qed.

Lemma sample_range v :
  (-32768 <= v < 32768)%Z -> -1 <= inject_Z v / 32768 /\ inject_Z v / 32768 < 1.
Proof.
  intros [Hlo Hhi]. split.
  - apply Qle_shift_div_l; [reflexivity|].
    unfold Qle. simpl. lia.
  - apply Qlt_shift_div_r; [reflexivity|].
    unfold Qlt. simpl. lia.
Qed.

Lemma Int16Array_spec bytes :
  Forall (fun b => (b < 256)%N) bytes ->
  match Int16Array bytes with
  | Some pcm =>
      Nat.even (length bytes) = true /\
      (2 * length pcm = length bytes)%nat /\
      Forall (fun v => (-32768 <= v < 32768)%Z) pcm
  | None => Nat.even (length bytes) = false
  end.
Proof.
  induction bytes as [|x|x y l IH] using list_pair_ind; intros Hb.
  - simpl. repeat split; constructor.
  - reflexivity.
  - inversion Hb as [|? ? Hx Hb']; subst.
    inversion Hb' as [|? ? Hy Hl]; subst.
    specialize (IH Hl). cbn [Int16Array].
    destruct (Int16Array l) as [pcm|]; cbn [option_map length Nat.even].
    + destruct IH as (He & Hlen & Hr). repeat split; [exact He|lia|].
      constructor; [now apply int16_range|exact Hr].
    + exact IH.
Qed.

Lemma bytes_of_bounded s : Forall (fun b => (b < 256)%N) (bytes_of s).
Proof.
  unfold bytes_of. apply Forall_map, Forall_forall. intros c _.
  apply N_ascii_bounded.
Qed.

Lemma length_bytes_of s : length (bytes_of s) = String.length s.
Proof.
  unfold bytes_of. rewrite length_map.
  induction s as [|c r IH]; simpl; [reflexivity|now rewrite IH].
Qed.

(** X23. Decoding the synthesized audio: a byte string of odd length
    cannot be viewed as 16-bit samples (the [RangeError] of
    [new Int16Array]); one of even length gives half as many samples, each
    in the range [-1, 1). *)
Theorem decode_samples (binaryString : string) :
  (Nat.even (String.length binaryString) = false ->
     decode binaryString = None) /\
  (Nat.even (String.length binaryString) = true ->
     exists samples,
       decode binaryString = Some samples /\
       (2 * length samples = String.length binaryString)%nat /\
       Forall (fun x => -1 <= x /\ x < 1) samples).
Proof.
  pose proof (Int16Array_spec _ (bytes_of_bounded binaryString)) as H.
  rewrite length_bytes_of in H. unfold decode.
  destruct (Int16Array (bytes_of binaryString)) as [pcm|]; split; intros He.
  - destruct H as [He' _]. congruence.
  - destruct H as (_ & Hlen & Hr). eexists. split; [reflexivity|].
    unfold channelData. rewrite length_map. split; [exact Hlen|].
    apply Forall_map. revert Hr. apply Forall_impl. intros v Hv.
    now apply sample_range.
  - reflexivity.
  - congruence.
Qed.

Lemma decode_samples_witness :
  Nat.even (String.length "abc") = false /\ decode "abc" = None.
Proof.
  split; [reflexivity|].
  exact (proj1 (decode_samples "abc") eq_refl).
Defined.

(** X24. [playGlobalAudio] leaves the avatar speaking only when the audio
    context was available, the data decoded to samples and the source
    started; after any failure the phase is [idle].  It writes nothing
    else of the component state. *)
Theorem playGlobalAudio_phase (Br : Browser) (base64Audio : string)
    (s : AppState) :
  let s' := playGlobalAudio Br base64Audio s in
  (loadingPhase s' = ph_speaking \/ loadingPhase s' = idle) /\
  (loadingPhase s' = ph_speaking ->
     exists binaryString samples,
       audio_context Br = Resolved tt /\
       atob Br base64Audio = Resolved binaryString /\
       decode binaryString = Some samples /\
       start_source Br samples = Resolved tt) /\
  history s' = history s /\ notes s' = notes s /\ meeting s' = meeting s /\
  loading s' = loading s /\ input s' = input s.
Proof.
  unfold playGlobalAudio.
  destruct (audio_context Br) as [[]|e1];
    [|cbn; repeat split; auto; discriminate].
  destruct (atob Br base64Audio) as [b|e2];
    [|cbn; repeat split; auto; discriminate].
  destruct (decode b) as [samples|] eqn:Hd;
    [|cbn; repeat split; auto; discriminate].
  destruct (start_source Br samples) as [[]|e3] eqn:Hs;
    [|cbn; repeat split; auto; discriminate].
  cbn. split; [auto|]. split; [|repeat split].
  intros _. exists b, samples. auto.
Qed.

Lemma playGlobalAudio_phase_witness :
  let Br := {| audio_context := Resolved tt;
               atob := fun _ => Resolved "abcd";
               start_source := fun _ => Resolved tt |} in
  loadingPhase (playGlobalAudio Br "YWJjZA==" initial_state) = ph_speaking /\
  exists samples, decode "abcd" = Some samples /\ length samples = 2%nat.
Proof.
  cbv zeta. split; [reflexivity|].
  destruct (proj1 (proj2 (playGlobalAudio_phase
              {| audio_context := Resolved tt;
                 atob := fun _ => Resolved "abcd";
                 start_source := fun _ => Resolved tt |}
              "YWJjZA==" initial_state)) eq_refl)
    as (b & samples & _ & Ha & Hd & _).
  cbn in Ha. injection Ha as <-.
  exists samples. split; [exact Hd|].
  cbv in Hd. injection Hd as <-. reflexivity.
Defined.

End AudioFacts.

Module DashboardFacts.
Import Dashboard.
Local Open Scope nat_scope.

Lemma slice_last_spec {A} n (l : list A) :
  firstn (length l - n) l ++ slice_last n l = l /\
  length (slice_last n l) = Nat.min n (length l).
Proof.
  unfold slice_last. split; [apply firstn_skipn|].
  rewrite length_skipn. lia.
Qed.

Lemma slice_last_snoc {A} n (l : list A) (c d : A) :
  0 < n -> last (slice_last n (l ++ [c])) d = c.
Proof.
  intros Hn. unfold slice_last. rewrite length_app. cbn [length].
  rewrite skipn_app.
  replace (length l + 1 - n - length l) with 0 by lia.
  cbn [skipn]. apply last_last.
Qed.

(** X25. The open dashboard of an active session shows the topic and the
    last three log lines (all of them when there are at most three), in
    order, and counts the lines it leaves out; in particular the line
    logged last is the last one shown.  A closed dashboard renders
    nothing, and an inactive session has no meeting block. *)
Theorem dashboard_meeting_block (n : NoteStore) (m : MeetingSession) :
  render n m false = None /\
  (active m = false ->
     exists v, render n m true = Some v /\ meeting_block v = None /\
               status_badge v = "IDLE") /\
  (active m = true ->
     exists v blk,
       render n m true = Some v /\ status_badge v = "LIVE" /\
       meeting_block v = Some blk /\ block_topic blk = mtopic m /\
       firstn (length (log m) - 3) (log m) ++ block_lines blk = log m /\
       length (block_lines blk) = Nat.min 3 (length (log m)) /\
       (length (log m) <= 3 -> block_more blk = None)%nat /\
       (3 < length (log m) ->
        block_more blk = Some (length (log m) - 3))%nat /\
       (forall l c, log m = l ++ [c] -> last (block_lines blk) EmptyString = c)).
Proof.
  split; [reflexivity|]. split.
  - intros Hi. unfold render. cbn. rewrite Hi. eexists. repeat split.
  - intros Ha. unfold render. cbn [negb]. rewrite Ha.
    destruct (slice_last_spec 3 (log m)) as [Hsplit Hlen].
    eexists. eexists. split; [reflexivity|].
    cbn [status_badge meeting_block block_topic block_lines block_more].
    split; [reflexivity|]. split; [reflexivity|]. split; [reflexivity|].
    split; [exact Hsplit|]. split; [exact Hlen|].
    split; [|split].
    + intros Hle. destruct (Nat.ltb_spec 3 (length (log m))); [lia|reflexivity].
    + intros Hlt. destruct (Nat.ltb_spec 3 (length (log m))); [reflexivity|lia].
    + intros l c Hlog. rewrite Hlog. apply slice_last_snoc. lia.
Qed.

Lemma dashboard_meeting_block_witness :
  let m := {| active := true; mtopic := "Standup";
              log := ["a"; "b"; "c"; "d"; "e"]; listening := true |} in
  active m = true /\
  exists v blk,
    render [] m true = Some v /\ meeting_block v = Some blk /\
    block_lines blk = ["c"; "d"; "e"] /\ block_more blk = Some 2.
Proof.
  cbv zeta. split; [reflexivity|].
  destruct (proj2 (proj2 (dashboard_meeting_block []
                            {| active := true; mtopic := "Standup";
                               log := ["a"; "b"; "c"; "d"; "e"];
                               listening := true |})) eq_refl)
    as (v & blk & Hv & _ & Hb & _ & Hsplit & _ & _ & Hmore & _).
  exists v, blk. split; [exact Hv|]. split; [exact Hb|]. split.
  - cbn in Hsplit. injection Hsplit as Hl. exact Hl.
  - apply Hmore. cbn. lia.
Defined.

End DashboardFacts.

Module ListenerFacts.
Import Dashboard.

(** X26. A final transcript heard by the meeting listener is trimmed; a
    blank one changes nothing, any other is logged as one line
    "[Speech]: <transcript>", which the open dashboard of an active
    session then shows as its last line.  Notes, history and the rest of
    the session are untouched. *)
Theorem heard_speech_on_dashboard (transcript : string) (s : AppState) :
  (is_empty (trim transcript) = true -> onresult transcript s = s) /\
  (is_empty (trim transcript) = false ->
     let s' := onresult transcript s in
     log (meeting s') =
       log (meeting s) ++ ["[Speech]: " ++ trim transcript]%string /\
     active (meeting s') = active (meeting s) /\
     listening (meeting s') = listening (meeting s) /\
     mtopic (meeting s') = mtopic (meeting s) /\
     notes s' = notes s /\ history s' = history s /\
     (active (meeting s) = true ->
      exists v blk,
        render (notes s') (meeting s') true = Some v /\
        meeting_block v = Some blk /\
        last (block_lines blk) EmptyString
          = ("[Speech]: " ++ trim transcript)%string)).
Proof.
  unfold onresult. cbv zeta.
  destruct (is_empty (trim transcript)); split; try discriminate.
  - reflexivity.
  - intros _. unfold with_meeting, Meeting.append_log, Meeting.speech_line.
    cbn [meeting notes history log active listening mtopic].
    do 6 (split; [reflexivity|]).
    intros Ha. unfold render, Meeting.append_log, Meeting.speech_line.
    cbn [negb active log mtopic]. rewrite Ha.
    eexists. eexists. split; [reflexivity|].
    cbn [meeting_block block_lines]. split; [reflexivity|].
    apply DashboardFacts.slice_last_snoc. lia.
Qed.

Lemma heard_speech_on_dashboard_witness :
  let s := Sample.state_with [] Sample.live_meeting in
  is_empty (trim "  hello team ") = false /\
  log (meeting (onresult "  hello team " s)) =
    log (meeting s) ++ ["[Speech]: hello team"].
Proof.
  cbv zeta. split; [reflexivity|].
  exact (proj1 (proj2 (heard_speech_on_dashboard "  hello team "
                         (Sample.state_with [] Sample.live_meeting))
                 eq_refl)).
Defined.

End ListenerFacts.

Module AvatarFrameFacts.
Import F64 F64Facts BotAvatar BotAvatarFacts.
Local Open Scope Q_scope.

(** X27. One animation frame of the lip sync: for a non-empty frame of
    byte amplitudes the mouth height lies between 2 and the ceiling (24,
    or 14 in small mode); a silent frame gives exactly 2; a frame whose
    bytes are all at least 73 already opens the mouth to the ceiling. *)
Theorem frame_mouth_height (small : bool) (dataArray : list N) :
  dataArray <> [] ->
  Forall (fun x => (x <= 255)%N) dataArray ->
  let height := mouth_height small (frame_average dataArray) in
  2 <= height <= maxHeight small /\
  (Forall (fun x => x = 0%N) dataArray -> height == 2) /\
  (Forall (fun x => (73 <= x)%N) dataArray -> height == maxHeight small).
Proof.
  intros Hne Hall. cbv zeta.
  pose proof (maxHeight_bounds small) as HM.
  pose proof (frame_average_range dataArray Hne Hall) as [Ha0 Ha255].
  pose proof (mouth_height_cases small (frame_average dataArray)) as Hc.
  split; [|split].
  - destruct Hc as [[H1 H2]|[[H1 H2]|[H1 H2]]]; lra.
  - intros Hz.
    assert (Hb : Forall (fun x => (0 <= x <= 0)%N) dataArray)
      by (revert Hz; apply Forall_impl; intros; lia).
    destruct (frame_average_between 0 0 dataArray Hne Hb) as [_ Hhi].
    assert (H0 : round (inject_Z (Z.of_N 0)) == 0) by reflexivity.
    assert (Hs : scaled small (frame_average dataArray) <= scaled small 0)
      by (apply scaled_mono; lra).
    assert (Hs0 : scaled small 0 == 0) by (destruct small; reflexivity).
    destruct Hc as [[H1 H2]|[[H1 H2]|[H1 H2]]]; lra.
  - intros Hl.
    assert (Hb : Forall (fun x => (73 <= x <= 255)%N) dataArray).
    { apply Forall_forall. intros x Hx.
      rewrite Forall_forall in Hall, Hl.
      split; [apply Hl|apply Hall]; exact Hx. }
    destruct (frame_average_between 73 255 dataArray Hne Hb) as [Hlo _].
    assert (H73 : round (inject_Z (Z.of_N 73)) == 73)
      by (vm_compute; reflexivity).
    assert (Hs : scaled small 73 <= scaled small (frame_average dataArray))
      by (apply scaled_mono; lra).
    assert (Hg : maxHeight small <= scaled small 73)
      by (destruct small; vm_compute; discriminate).
    destruct Hc as [[H1 H2]|[[H1 H2]|[H1 H2]]]; lra.
Qed.

Lemma frame_mouth_height_witness :
  [0; 0; 0; 0]%N <> [] /\
  Forall (fun x => (x <= 255)%N) [0; 0; 0; 0]%N /\
  mouth_height true (frame_average [0; 0; 0; 0]%N) == 2.
Proof.
  assert (Hne : [0; 0; 0; 0]%N <> []) by discriminate.
  assert (Hall : Forall (fun x => (x <= 255)%N) [0; 0; 0; 0]%N)
    by (repeat constructor; discriminate).
  split; [exact Hne|]. split; [exact Hall|].
  apply (frame_mouth_height true [0; 0; 0; 0]%N Hne Hall).
  repeat constructor.
Defined.

End AvatarFrameFacts.
